(** * Prompt-budget utilities of agentUniverse ([prompt_util.py])

    A shallow embedding of [split_text_on_tokens], [split_texts],
    [truncate_content], the two summarisation wrappers,
    [generate_template] and [process_llm_token], and of the input parsing
    of [GenPlotAgent], followed by the properties of the chunker, the
    splitter, the budget controller and the template assembly.

    Conventions of the embedding:
    - Python [int] is [Z]; Python [float] is IEEE 754 binary64, given by the
      reference operations of [SpecFloat] at precision 53 and [emax] 1024;
    - Python [str] is [string]; a value that may also be [None] is [pyval];
    - an exception is a value of [exn] (only exceptions that derive from
      [Exception], the ones [except Exception] catches); a computation
      returns an [outcome]: a result, a raised exception, or [OutOfFuel]
      when the iteration budget of the [while] loop is used up (the
      approximation of a run that is still looping; memory is not bounded,
      so a loop that appends for ever never raises [MemoryError]);
    - the token estimator of a model may answer differently from call to
      call: it reads the number of estimator calls made so far, which the
      splitter and the controller thread through as state. *)

From Stdlib Require Import ZArith Lia Bool List String Ascii.
From Stdlib Require Import Floats.SpecFloat.
From Stdlib Require Import Reals Lra.
From stdpp Require Import gmap strings list.

Local Open Scope string_scope.
Local Open Scope list_scope.
Local Open Scope Z_scope.

(** ** Exceptions and outcomes *)

(** The classes of the exceptions that occur; [LookupFailure] and
    [RuntimeFailure] stand for what the registries and a model may raise. *)
Inductive exn_class :=
  | ZeroDivisionError
  | OverflowError
  | ValueError
  | TypeError
  | IndexError
  | AttributeError
  | LookupFailure
  | RuntimeFailure.

Record exn := Exn { exn_cls : exn_class; exn_str : string }.

(** [str(e)] *)
Definition py_str_exn (e : exn) : string := exn_str e.

Inductive outcome (A : Type) :=
  | Return (a : A)
  | Raise (e : exn)
  | OutOfFuel.
Arguments Return {A} a.
Arguments Raise {A} e.
Arguments OutOfFuel {A}.

Definition obind {A B} (x : outcome A) (k : A -> outcome B) : outcome B :=
  match x with
  | Return a => k a
  | Raise e => Raise e
  | OutOfFuel => OutOfFuel
  end.

Declare Scope outcome_scope.
Delimit Scope outcome_scope with outcome.
Notation "'let!' x ':=' c 'in' k" := (obind c (fun x => k))
  (at level 10, x name, c at level 100, k at level 200) : outcome_scope.
Local Open Scope outcome_scope.

(** ** Python values and slicing *)

Inductive pyval :=
  | PNone
  | PStr (s : string).

(** [len(text)] *)
Definition py_len (v : pyval) : outcome Z :=
  match v with
  | PStr s => Return (Z.of_nat (String.length s))
  | PNone => Raise (Exn TypeError "object of type 'NoneType' has no len()")
  end.

(** Index adjustment of a slice bound against a sequence of length [n]:
    a negative bound counts from the end, and every bound is clipped to
    [0 .. n]. *)
Definition slice_index (n i : Z) : Z :=
  if i <? 0 then Z.max (i + n) 0 else Z.min i n.

(** [s[start:stop]] *)
Definition py_slice (s : string) (start stop : Z) : string :=
  let n := Z.of_nat (String.length s) in
  let a := slice_index n start in
  let b := slice_index n stop in
  substring (Z.to_nat a) (Z.to_nat (b - a)) s.

(** [s[start:]] *)
Definition py_slice_from (s : string) (start : Z) : string :=
  let n := Z.of_nat (String.length s) in
  let a := slice_index n start in
  substring (Z.to_nat a) (Z.to_nat (n - a)) s.

(** ** Floating point, as Python uses it in the chunker *)

Module PyFloat.

Definition prec : Z := 53.
Definition emax : Z := 1024.

Definition t := spec_float.

(** An integer as an unrounded binary number. *)
Definition raw_of_int (z : Z) : spec_float :=
  match z with
  | Z0 => S754_zero false
  | Zpos p => S754_finite false p 0
  | Zneg p => S754_finite true p 0
  end.

(** [float(z)]: the nearest double, ties to even; an integer beyond the
    range of doubles raises. *)
Definition of_int (z : Z) : outcome t :=
  match binary_normalize prec emax z 0 false with
  | S754_infinity _ =>
      Raise (Exn OverflowError "int too large to convert to float")
  | f => Return f
  end.

(** [a / b] on integers: the correctly rounded quotient; a zero divisor
    and a quotient beyond the range of doubles raise. *)
Definition int_truediv (a b : Z) : outcome t :=
  if b =? 0 then Raise (Exn ZeroDivisionError "division by zero")
  else
    match SFdiv prec emax (raw_of_int a) (raw_of_int b) with
    | S754_infinity _ =>
        Raise (Exn OverflowError
                 "integer division result too large for a float")
    | f => Return f
    end.

Definition mul (x y : t) : t := SFmul prec emax x y.

(** [c * x] with [c] an integer and [x] a float. *)
Definition int_mul (c : Z) (x : t) : outcome t :=
  let! f := of_int c in Return (mul f x).

(** [int(x)]: truncation toward zero. *)
Definition to_int (x : t) : outcome Z :=
  match x with
  | S754_zero _ => Return 0
  | S754_infinity _ =>
      Raise (Exn OverflowError "cannot convert float infinity to integer")
  | S754_nan =>
      Raise (Exn ValueError "cannot convert float NaN to integer")
  | S754_finite s m e =>
      let a := if 0 <=? e then Zpos m * 2 ^ e else Zpos m / 2 ^ (- e) in
      Return (if s then - a else a)
  end.

End PyFloat.

(** ** The chunker: [split_text_on_tokens] *)

(** The [while] loop of [split_text_on_tokens]; one unit of [fuel] pays for
    one evaluation of the loop condition. *)
Fixpoint chunk_loop (fuel : nat) (text : string)
    (chunk_char_size chunk_char_overlap : Z)
    (current_position : Z) (result : list string) : outcome (list string) :=
  match fuel with
  | O => OutOfFuel
  | S fuel' =>
      let n := Z.of_nat (String.length text) in
      if current_position + chunk_char_overlap <? n then
        let chunk :=
          if n <=? current_position + chunk_char_size
          then py_slice_from text current_position
          else py_slice text current_position
                 (current_position + chunk_char_size) in
        chunk_loop fuel' text chunk_char_size chunk_char_overlap
          (current_position + (chunk_char_size - chunk_char_overlap))
          (result ++ [chunk])
      else Return result
  end.

(** [int(c * char_per_token)] *)
Definition scaled_chars (c : Z) (char_per_token : PyFloat.t) : outcome Z :=
  let! f := PyFloat.int_mul c char_per_token in PyFloat.to_int f.

Definition split_text_on_tokens (fuel : nat) (text : pyval) (text_token : Z)
    (chunk_size chunk_overlap : Z) : outcome (list string) :=
  let! n := py_len text in
  let! char_per_token := PyFloat.int_truediv n text_token in
  let! chunk_char_size := scaled_chars chunk_size char_per_token in
  let! chunk_char_overlap := scaled_chars chunk_overlap char_per_token in
  match text with
  | PStr s => chunk_loop fuel s chunk_char_size chunk_char_overlap 0 []
  | PNone => Raise (Exn TypeError "object of type 'NoneType' has no len()")
  end.

(** ** Models, the world, and the state monad of the splitter *)

(** A model handle.  [get_num_tokens] receives the number of estimator
    calls made before this one, so that an estimator that fails once and
    then recovers can be described. *)
Record LLM := {
  llm_name : string;
  get_num_tokens : nat -> pyval -> outcome Z;
  max_context_length : Z;
  max_tokens : Z
}.

(** Which compression strategy was entered, and with which arguments. *)
Inductive strategy_call :=
  | CallTruncate (content : pyval) (token_length : Z) (agent_llm : LLM)
  | CallStuff (texts : list pyval) (llm : LLM)
      (summary_prompt_version : string)
  | CallMapReduce (texts : list pyval) (llm agent_llm : LLM)
      (summary_prompt_version combine_prompt_version : string).

(** The state around a run: the estimator calls made so far, and the record
    of strategy calls (ghost state: the source does not keep it; each
    strategy function appends its own entry on entry). *)
Record world := World {
  estimator_calls : nat;
  strategy_calls : list strategy_call
}.

Definition world0 : world := World 0 [].

Definition M (A : Type) : Type := world -> outcome A * world.

Definition ret {A} (a : A) : M A := fun w => (Return a, w).
Definition raise {A} (e : exn) : M A := fun w => (Raise e, w).
Definition lift {A} (x : outcome A) : M A := fun w => (x, w).

Definition bind {A B} (m : M A) (k : A -> M B) : M B :=
  fun w =>
    match m w with
    | (Return a, w') => k a w'
    | (Raise e, w') => (Raise e, w')
    | (OutOfFuel, w') => (OutOfFuel, w')
    end.

(** [try: m  except Exception as e: h e] *)
Definition try_except {A} (m : M A) (h : exn -> M A) : M A :=
  fun w =>
    match m w with
    | (Raise e, w') => h e w'
    | r => r
    end.

Declare Scope m_scope.
Delimit Scope m_scope with M.
Notation "'do!' x ':=' c 'in' k" := (bind c (fun x => k))
  (at level 10, x name, c at level 100, k at level 200) : m_scope.

(** [llm.get_num_tokens(text)] *)
Definition call_get_num_tokens (llm : LLM) (text : pyval) : M Z :=
  fun w =>
    (get_num_tokens llm (estimator_calls w) text,
     World (S (estimator_calls w)) (strategy_calls w)).

Definition record_call (c : strategy_call) : M unit :=
  fun w => (Return tt, World (estimator_calls w) (strategy_calls w ++ [c])).

(** ** The splitter: [split_texts] and [truncate_content] *)

Definition default_chunk_size : Z := 800.
Definition default_chunk_overlap : Z := 100.

(** The [for] loop inside the [try] block of [split_texts]. *)
Fixpoint split_texts_loop (fuel : nat) (texts : list pyval) (agent_llm : LLM)
    (chunk_size chunk_overlap : Z) (split_texts_res : list string)
    : M (list string) :=
  match texts with
  | [] => ret split_texts_res
  | text :: rest =>
      (do! text_token := call_get_num_tokens agent_llm text in
       do! chunks := lift (split_text_on_tokens fuel text text_token
                             chunk_size chunk_overlap) in
       split_texts_loop fuel rest agent_llm chunk_size chunk_overlap
         (split_texts_res ++ chunks))%M
  end.

Definition split_failed (e : exn) : exn :=
  Exn ValueError ("split text failed, exception=" +:+ py_str_exn e).

(** [split_texts(..., retry=False)]: the call that the handler of
    [split_texts] makes on itself. *)
Definition split_texts_no_retry (fuel : nat) (texts : list pyval)
    (agent_llm : LLM) (chunk_size chunk_overlap : Z) : M (list string) :=
  try_except
    (split_texts_loop fuel texts agent_llm chunk_size chunk_overlap [])
    (fun e => raise (split_failed e)).

(** [split_texts].  The source is recursive through its handler, with
    [retry=False] in the recursive call, so the recursion has depth one;
    [split_texts_unfold] below states the source's equation. *)
Definition split_texts (fuel : nat) (texts : list pyval) (agent_llm : LLM)
    (chunk_size chunk_overlap : Z) (retry : bool) : M (list string) :=
  try_except
    (split_texts_loop fuel texts agent_llm chunk_size chunk_overlap [])
    (fun e =>
       if retry
       then split_texts_no_retry fuel texts agent_llm
              default_chunk_size default_chunk_overlap
       else raise (split_failed e)).

Definition truncate_content (fuel : nat) (content : pyval) (token_length : Z)
    (agent_llm : LLM) : M string :=
  (do! _u := record_call (CallTruncate content token_length agent_llm) in
   do! chunks := split_texts fuel [content] agent_llm token_length
                   default_chunk_overlap true in
   match chunks with
   | c :: _ => ret c
   | [] => raise (Exn IndexError "list index out of range")
   end)%M.

(** ** Collaborators outside this module *)

(** The registries and the summarisation chains are not part of
    [prompt_util.py]; the functions below reach them only through this
    interface.  [llm_manager] and [prompt_manager] stand for
    [LLMManager().get_instance_obj] and [PromptManager().get_instance_obj]
    (the name read from the profile may be missing, hence [option]);
    [stuff_chain] and [map_reduce_chain] stand for building the chain with
    [load_summarize_chain] and running it to completion over the documents
    made from the texts. *)
Class Collaborators := {
  Prompt : Type;
  llm_manager : option string -> outcome LLM;
  prompt_manager : string -> outcome Prompt;
  stuff_chain : LLM -> Prompt -> list pyval -> outcome string;
  map_reduce_chain : LLM -> Prompt -> Prompt -> list string -> outcome string
}.

(** ** The summarisers *)

Definition summarize_by_stuff `{Collaborators} (texts : list pyval) (llm : LLM)
    (summary_prompt_version : string) : M string :=
  (do! _u := record_call (CallStuff texts llm summary_prompt_version) in
   do! summary_prompt := lift (prompt_manager summary_prompt_version) in
   lift (stuff_chain llm summary_prompt texts))%M.

Definition summarize_by_map_reduce `{Collaborators} (fuel : nat)
    (texts : list pyval) (llm agent_llm : LLM)
    (summary_prompt_version combine_prompt_version : string) : M string :=
  (do! _u := record_call (CallMapReduce texts llm agent_llm
                            summary_prompt_version combine_prompt_version) in
   do! chunks := split_texts fuel texts agent_llm
                   default_chunk_size default_chunk_overlap true in
   do! summary_prompt := lift (prompt_manager summary_prompt_version) in
   do! combine_prompt := lift (prompt_manager combine_prompt_version) in
   lift (map_reduce_chain llm summary_prompt combine_prompt chunks))%M.

(** ** The budget controller: [process_llm_token] *)

Inductive PromptProcessEnum := TRUNCATE | STUFF | MAP_REDUCE.

(** Modelled from the spec: the enumeration [PromptProcessEnum] of
    [agentuniverse.prompt.enum] is not among the sources.  Its three
    members carry the values ['truncate'], ['stuff'] and ['map_reduce'];
    [from_value] finds the member with a given value, and a value of no
    member is a configuration error surfaced to the caller. *)
Definition PromptProcessEnum_value (p : PromptProcessEnum) : string :=
  match p with
  | TRUNCATE => "truncate"
  | STUFF => "stuff"
  | MAP_REDUCE => "map_reduce"
  end.

Definition PromptProcessEnum_from_value (v : string)
    : outcome PromptProcessEnum :=
  if String.eqb v "truncate" then Return TRUNCATE
  else if String.eqb v "stuff" then Return STUFF
  else if String.eqb v "map_reduce" then Return MAP_REDUCE
  else Raise (Exn ValueError ("invalid prompt processor type: " +:+ v)).

(** The [prompt_processor] entry of the profile, the [llm_model] entry, and
    the profile; every key may be absent. *)
Record prompt_processor_config := {
  pp_type : option string;
  pp_llm : option string;
  pp_summary_prompt_version : option string;
  pp_combine_prompt_version : option string
}.

Record llm_model_config := {
  lm_name : option string;
  lm_prompt_processor : option prompt_processor_config
}.

Record profile_config := {
  pf_llm_model : option llm_model_config
}.

(** [dict()] *)
Definition empty_prompt_processor : prompt_processor_config :=
  {| pp_type := None; pp_llm := None;
     pp_summary_prompt_version := None;
     pp_combine_prompt_version := None |}.

(** [x or d] where [x] is a string or [None]: the empty string is falsy. *)
Definition py_or (x : option string) (d : string) : string :=
  match x with
  | Some s => if String.eqb s "" then d else s
  | None => d
  end.

(** [x or d] where [d] itself may be [None]. *)
Definition py_or_opt (x d : option string) : option string :=
  match x with
  | Some s => if String.eqb s "" then d else Some s
  | None => d
  end.

(** [llm_model.get('prompt_processor') or dict()] *)
Definition prompt_processor_of (llm_model : llm_model_config)
    : prompt_processor_config :=
  match lm_prompt_processor llm_model with
  | Some pp => pp
  | None => empty_prompt_processor
  end.

Definition prompt_processor_type_of (llm_model : llm_model_config) : string :=
  py_or (pp_type (prompt_processor_of llm_model))
        (PromptProcessEnum_value TRUNCATE).

Definition prompt_processor_llm_of (llm_model : llm_model_config)
    : option string :=
  py_or_opt (pp_llm (prompt_processor_of llm_model)) (lm_name llm_model).

Definition summary_prompt_version_of (llm_model : llm_model_config)
    : string :=
  py_or (pp_summary_prompt_version (prompt_processor_of llm_model))
        "prompt_processor.summary_cn".

Definition combine_prompt_version_of (llm_model : llm_model_config)
    : string :=
  py_or (pp_combine_prompt_version (prompt_processor_of llm_model))
        "prompt_processor.combine_cn".

(** A prompt template: the variables it declares and its [format]. *)
Record PromptTemplate := {
  input_variables : list string;
  format : gmap string pyval -> outcome string
}.

(** [{key: planner_input[key] for key in input_variables
      if key in planner_input}] *)
Definition prompt_input_dict_of (input_variables : list string)
    (planner_input : gmap string pyval) : gmap string pyval :=
  fold_left
    (fun d key =>
       match planner_input !! key with
       | Some v => <[key := v]> d
       | None => d
       end)
    input_variables ∅.

(** [planner_input.get('background')] *)
Definition get_background (planner_input : gmap string pyval) : pyval :=
  match planner_input !! "background" with
  | Some v => v
  | None => PNone
  end.

(** Everything [process_llm_token] does before its only assignment: the
    result is [None] when the function returns early, and [Some s] when it
    reaches [planner_input['background'] = s]. *)
Definition new_background `{Collaborators} (fuel : nat)
    (prompt_template : PromptTemplate) (profile : profile_config)
    (planner_input : gmap string pyval) : M (option string) :=
  match pf_llm_model profile with
  | None =>
      raise (Exn AttributeError "'NoneType' object has no attribute 'get'")
  | Some llm_model =>
      let llm_name := lm_name llm_model in
      let prompt_processor_type := prompt_processor_type_of llm_model in
      let prompt_processor_llm := prompt_processor_llm_of llm_model in
      let summary_prompt_version := summary_prompt_version_of llm_model in
      let combine_prompt_version := combine_prompt_version_of llm_model in
      let prompt_input_dict :=
        prompt_input_dict_of (input_variables prompt_template)
          planner_input in
      (do! agent_llm := lift (llm_manager llm_name) in
       do! prompt_llm := lift (llm_manager prompt_processor_llm) in
       do! prompt := lift (format prompt_template prompt_input_dict) in
       do! prompt_tokens := call_get_num_tokens agent_llm (PStr prompt) in
       let remaining_tokens :=
         max_context_length agent_llm - max_tokens agent_llm in
       if prompt_tokens <=? remaining_tokens then ret None
       else
         do! process_prompt_type_enum :=
           lift (PromptProcessEnum_from_value prompt_processor_type) in
         let content := get_background planner_input in
         match process_prompt_type_enum with
         | TRUNCATE =>
             do! s := truncate_content fuel content remaining_tokens
                        agent_llm in
             ret (Some s)
         | STUFF =>
             do! s := summarize_by_stuff [content] prompt_llm
                        summary_prompt_version in
             ret (Some s)
         | MAP_REDUCE =>
             do! s := summarize_by_map_reduce fuel [content] prompt_llm
                        agent_llm summary_prompt_version
                        combine_prompt_version in
             ret (Some s)
         end)%M
  end.

(** The outcome of a call of [process_llm_token]: how it ended, the
    contents of the caller's [planner_input] afterwards, and the world. *)
Record controller_run := {
  run_outcome : outcome unit;
  run_planner_input : gmap string pyval;
  run_world : world
}.

Definition process_llm_token `{Collaborators} (fuel : nat)
    (prompt_template : PromptTemplate) (profile : profile_config)
    (planner_input : gmap string pyval) (w : world) : controller_run :=
  match new_background fuel prompt_template profile planner_input w with
  | (Return (Some s), w') =>
      {| run_outcome := Return tt;
         run_planner_input := <["background" := PStr s]> planner_input;
         run_world := w' |}
  | (Return None, w') =>
      {| run_outcome := Return tt;
         run_planner_input := planner_input;
         run_world := w' |}
  | (Raise e, w') =>
      {| run_outcome := Raise e;
         run_planner_input := planner_input;
         run_world := w' |}
  | (OutOfFuel, w') =>
      {| run_outcome := OutOfFuel;
         run_planner_input := planner_input;
         run_world := w' |}
  end.

(** ** Sizes and coverage *)

(** [char_per_token], [chunk_char_size] and [chunk_char_overlap] as
    [split_text_on_tokens] computes them for a text of [n] characters. *)
Definition chunk_char_sizes (n text_token chunk_size chunk_overlap : Z)
    : outcome (Z * Z) :=
  let! char_per_token := PyFloat.int_truediv n text_token in
  let! chunk_char_size := scaled_chars chunk_size char_per_token in
  let! chunk_char_overlap := scaled_chars chunk_overlap char_per_token in
  Return (chunk_char_size, chunk_char_overlap).

(** The cursor of the chunker moves by [step], the computed size minus the
    computed overlap, so the [k]-th chunk of a result was cut at position
    [k * step] and spans from there over its own length.  Position [i] of
    [text] is covered when it lies inside the span of one of the chunks. *)
Definition covered_by (text : string) (step : Z) (chunks : list string)
    (i : nat) : Prop :=
  exists (k : nat) (chunk : string),
    chunks !! k = Some chunk /\
    chunk = substring (Z.to_nat (Z.of_nat k * step)) (String.length chunk)
              text /\
    (Z.to_nat (Z.of_nat k * step) <= i <
     Z.to_nat (Z.of_nat k * step) + String.length chunk)%nat.

(** The chunks cover the text from position 0 to its end without a gap. *)
Definition covers (text : string) (step : Z) (chunks : list string) : Prop :=
  forall i, (i < String.length text)%nat -> covered_by text step chunks i.

(** ** The value of a float, for the rounding bounds *)

(** The real number denoted by mantissa [m] and exponent [e]. *)
Definition fval (m e : Z) : R := (IZR m * powerRZ 2 e)%R.

(** The relative error of one rounding to 53 bits is at most [2 ^ -52]. *)
Definition feps : R := powerRZ 2 (-52).

(** ** Concrete inputs used by the examples below *)

Definition text_of_length (n : nat) : string :=
  string_of_list_ascii (repeat "a"%char n).

(** An estimator that always answers [tok]. *)
Definition constant_llm (tok window completion : Z) : LLM :=
  {| llm_name := "constant";
     get_num_tokens := fun _ _ => Return tok;
     max_context_length := window;
     max_tokens := completion |}.

(** An estimator that answers [f text] at every call. *)
Definition steady_llm (f : pyval -> Z) (window completion : Z) : LLM :=
  {| llm_name := "steady";
     get_num_tokens := fun _ text => Return (f text);
     max_context_length := window;
     max_tokens := completion |}.

(** An estimator that raises [e] at its first call and answers [f text]
    from the second call on. *)
Definition flaky_llm (e : exn) (f : pyval -> Z) (window completion : Z)
    : LLM :=
  {| llm_name := "flaky";
     get_num_tokens := fun calls text =>
       match calls with
       | O => Raise e
       | S _ => Return (f text)
       end;
     max_context_length := window;
     max_tokens := completion |}.

(** An estimator whose first call fails with a timeout and whose later
    calls fail with a rate limit. *)
Definition moody_llm : LLM :=
  {| llm_name := "moody";
     get_num_tokens := fun calls _ =>
       match calls with
       | O => Raise (Exn RuntimeFailure "timeout")
       | S _ => Raise (Exn RuntimeFailure "rate limit")
       end;
     max_context_length := 4096;
     max_tokens := 1024 |}.

(** An estimator that counts one token per character. *)
Definition char_count_llm (window completion : Z) : LLM :=
  {| llm_name := "char_count";
     get_num_tokens := fun _ text => py_len text;
     max_context_length := window;
     max_tokens := completion |}.

(** Registries that know one model and accept every prompt version, and
    chains that answer with fixed summaries. *)
Definition demo_collaborators (llm : LLM) : Collaborators :=
  {| Prompt := string;
     llm_manager := fun name =>
       match name with
       | Some _ => Return llm
       | None => Raise (Exn LookupFailure "no model name")
       end;
     prompt_manager := fun version => Return version;
     stuff_chain := fun _ _ _ => Return "stuff summary";
     map_reduce_chain := fun _ _ _ _ => Return "map-reduce summary" |}.

(** A template made of [instructions] characters of fixed text followed by
    the background. *)
Definition demo_template (instructions : nat) : PromptTemplate :=
  {| input_variables := ["background"; "input"];
     format := fun d =>
       match d !! "background" with
       | Some (PStr b) => Return (text_of_length instructions +:+ b)
       | _ => Raise (Exn LookupFailure "background")
       end |}.

Definition demo_profile (type : option string) : profile_config :=
  {| pf_llm_model := Some
       {| lm_name := Some "demo_llm";
          lm_prompt_processor := Some
            {| pp_type := type; pp_llm := None;
               pp_summary_prompt_version := None;
               pp_combine_prompt_version := None |} |} |}.

Definition demo_planner_input (background : string) : gmap string pyval :=
  <["background" := PStr background]> (<["input" := PStr "question"]> ∅).

(** ** Reassembly of a split *)

(** [s[n:]] for a bound [n] that is not negative. *)
Definition drop_chars (n : nat) (s : string) : string :=
  substring n (String.length s - n) s.

(** The text behind a list of chunks cut with [overlap] shared characters:
    the first chunk, followed by every later chunk without its first
    [overlap] characters. *)
Definition unsplit (overlap : nat) (chunks : list string) : string :=
  match chunks with
  | [] => ""
  | c :: rest => fold_left (fun s c' => s +:+ drop_chars overlap c') rest c
  end.

(** [chunk] is a contiguous piece of [text]. *)
Definition piece_of (chunk text : string) : Prop :=
  exists start, chunk = substring start (String.length chunk) text.

(** ** [generate_template] *)

(** [getattr(obj, attr, None)], for an object given by its attributes. *)
Definition py_getattr (obj : gmap string pyval) (attr : string) : pyval :=
  match obj !! attr with
  | Some v => v
  | None => PNone
  end.

Definition newline : string := String (ascii_of_nat 10) "".

(** [sep.join(values)] *)
Fixpoint py_join (sep : string) (values : list string) : string :=
  match values with
  | [] => ""
  | v :: rest =>
      match rest with
      | [] => v
      | _ :: _ => v +:+ sep +:+ py_join sep rest
      end
  end.

(** The [for] loop of [generate_template]. *)
Fixpoint generate_template_loop (agent_prompt_model : gmap string pyval)
    (prompt_assemble_order : list string) (values : list string)
    : list string :=
  match prompt_assemble_order with
  | [] => values
  | attr :: rest =>
      match py_getattr agent_prompt_model attr with
      | PNone => generate_template_loop agent_prompt_model rest values
      | PStr value =>
          generate_template_loop agent_prompt_model rest (values ++ [value])
      end
  end.

Definition generate_template (agent_prompt_model : gmap string pyval)
    (prompt_assemble_order : list string) : string :=
  py_join newline
    (generate_template_loop agent_prompt_model prompt_assemble_order []).

(** ** [GenPlotAgent] *)

Module GenPlotAgent.

Definition input_keys : list string := ["choice"].

Definition output_keys : list string := ["output"].

(** The input object, by what its [get_data] returns for a key; the values
    of the dictionaries are of any type [V]. *)
Definition parse_input {V : Type} (get_data : string -> V)
    (agent_input : gmap string V) : gmap string V :=
  <["choice" := get_data "choice"]> agent_input.

Definition parse_result {V : Type} (planner_result : gmap string V)
    : gmap string V :=
  planner_result.

End GenPlotAgent.

(** Arithmetic goals are solved with the bounds [2 ^ 900] and [2 ^ 971] of
    the float range kept abstract: no step of the arithmetic depends on
    their value. *)
Ltac hide_big :=
  let P := fresh "P" in
  let Q := fresh "Q" in
  set (P := 2 ^ 900) in *; clearbody P;
  set (Q := 2 ^ 971) in *; clearbody Q.

(** ** Strings and slices *)

Section Strings.

Lemma length_substring (s : string) (n m : nat) :
  String.length (substring n m s) = Nat.min m (String.length s - n).
Proof.
  revert n m. induction s as [|c s IH]; intros [|n] [|m]; simpl;
    try reflexivity.
  - rewrite IH. f_equal. f_equal. lia.
  - apply IH.
  - apply IH.
Qed.

Lemma substring_all (s : string) : substring 0 (String.length s) s = s.
Proof. induction s; simpl; congruence. Qed.

Lemma prefix_substring (s : string) (m : nat) :
  String.prefix (substring 0 m s) s = true.
Proof.
  revert m. induction s as [|c s IH]; intros [|m]; simpl; try reflexivity.
  destruct (ascii_dec c c); [apply IH | congruence].
Qed.

Lemma slice_index_id (n i : Z) : 0 <= i <= n -> slice_index n i = i.
Proof. unfold slice_index. destruct (i <? 0) eqn:E; lia. Qed.

Lemma py_slice_inside (s : string) (a b : Z) :
  0 <= a -> a <= b -> b <= Z.of_nat (String.length s) ->
  py_slice s a b = substring (Z.to_nat a) (Z.to_nat (b - a)) s.
Proof.
  intros. unfold py_slice. rewrite !slice_index_id by lia. reflexivity.
Qed.

Lemma py_slice_from_inside (s : string) (a : Z) :
  0 <= a <= Z.of_nat (String.length s) ->
  py_slice_from s a =
  substring (Z.to_nat a) (String.length s - Z.to_nat a) s.
Proof.
  intros. unfold py_slice_from. rewrite slice_index_id by lia.
  f_equal. lia.
Qed.

Lemma py_slice_0_prefix (s : string) (b : Z) :
  String.prefix (py_slice s 0 b) s = true.
Proof.
  unfold py_slice. rewrite (slice_index_id _ 0) by lia.
  apply prefix_substring.
Qed.

Lemma py_slice_from_0 (s : string) : py_slice_from s 0 = s.
Proof.
  rewrite py_slice_from_inside by lia. simpl.
  rewrite Nat.sub_0_r. apply substring_all.
Qed.

End Strings.

(** ** The chunking loop *)

Section ChunkLoop.

Variable text : string.
Variables chunk_char_size chunk_char_overlap : Z.

Let n := Z.of_nat (String.length text).
Let loop fuel := chunk_loop fuel text chunk_char_size chunk_char_overlap.

Lemma chunk_loop_step (fuel : nat) (pos : Z) (acc : list string) :
  pos + chunk_char_overlap < n ->
  loop (S fuel) pos acc =
  loop fuel (pos + (chunk_char_size - chunk_char_overlap))
    (acc ++ [if n <=? pos + chunk_char_size
             then py_slice_from text pos
             else py_slice text pos (pos + chunk_char_size)]).
Proof.
  intros Hlt. unfold loop. simpl. fold n.
  destruct (pos + chunk_char_overlap <? n) eqn:E; [reflexivity | lia].
Qed.

Lemma chunk_loop_exit (fuel : nat) (pos : Z) (acc : list string) :
  n <= pos + chunk_char_overlap ->
  loop (S fuel) pos acc = Return acc.
Proof.
  intros Hge. unfold loop. simpl. fold n.
  destruct (pos + chunk_char_overlap <? n) eqn:E; [lia | reflexivity].
Qed.

(** The loop only ever appends to its accumulator. *)
Lemma chunk_loop_extends (fuel : nat) (pos : Z) (acc r : list string) :
  loop fuel pos acc = Return r -> exists l, r = acc ++ l.
Proof.
  revert pos acc. induction fuel as [|fuel IH]; intros pos acc Hr.
  - discriminate.
  - destruct (Z_lt_ge_dec (pos + chunk_char_overlap) n) as [Hlt|Hge].
    + rewrite chunk_loop_step in Hr by assumption.
      apply IH in Hr as [l ->]. rewrite <- app_assoc. eauto.
    + rewrite chunk_loop_exit in Hr by lia.
      inversion Hr. exists []. now rewrite app_nil_r.
Qed.

(** More fuel does not change a result already reached. *)
Lemma chunk_loop_fuel_mono (fuel fuel' : nat) (pos : Z)
    (acc r : list string) :
  (fuel <= fuel')%nat ->
  loop fuel pos acc = Return r -> loop fuel' pos acc = Return r.
Proof.
  revert fuel' pos acc. induction fuel as [|fuel IH];
    intros fuel' pos acc Hle Hr; [discriminate|].
  destruct fuel' as [|fuel']; [lia|].
  destruct (Z_lt_ge_dec (pos + chunk_char_overlap) n) as [Hlt|Hge].
  - rewrite chunk_loop_step in * by assumption.
    apply IH; [lia | assumption].
  - rewrite chunk_loop_exit in * by lia. assumption.
Qed.

(** The loop raises nothing: it returns or is still running. *)
Lemma chunk_loop_no_raise (fuel : nat) (pos : Z) (acc : list string) e :
  loop fuel pos acc <> Raise e.
Proof.
  revert pos acc. induction fuel as [|fuel IH]; intros pos acc;
    [discriminate|].
  destruct (Z_lt_ge_dec (pos + chunk_char_overlap) n) as [Hlt|Hge].
  - rewrite chunk_loop_step by assumption. apply IH.
  - rewrite chunk_loop_exit by lia. discriminate.
Qed.

(** When the step [chunk_char_size - chunk_char_overlap] is not positive
    and the condition holds at a position at or before the start, it
    holds forever: no amount of fuel lets the loop return. *)
Lemma chunk_loop_diverges (fuel : nat) (pos : Z) (acc : list string) :
  chunk_char_size <= chunk_char_overlap ->
  pos <= 0 ->
  chunk_char_overlap < n ->
  loop fuel pos acc = OutOfFuel.
Proof.
  intros Hstep. revert pos acc.
  induction fuel as [|fuel IH]; intros pos acc Hpos Hov; [reflexivity|].
  rewrite chunk_loop_step by lia. apply IH; lia.
Qed.

(** When the step is positive the loop returns, within
    [n - chunk_char_overlap - pos + 1] evaluations of its condition. *)
Lemma chunk_loop_terminates (fuel : nat) (pos : Z) (acc : list string) :
  chunk_char_overlap < chunk_char_size ->
  (Z.to_nat (n - chunk_char_overlap - pos) < fuel)%nat ->
  exists r, loop fuel pos acc = Return r.
Proof.
  intros Hstep. revert pos acc.
  induction fuel as [|fuel IH]; intros pos acc Hfuel; [lia|].
  destruct (Z_lt_ge_dec (pos + chunk_char_overlap) n) as [Hlt|Hge].
  - rewrite chunk_loop_step by assumption. apply IH. lia.
  - rewrite chunk_loop_exit by lia. eauto.
Qed.

(** The first chunk, when there is one, is a prefix of the text. *)
Lemma chunk_loop_first_prefix (fuel : nat) (c : string) (r : list string) :
  loop fuel 0 [] = Return (c :: r) -> String.prefix c text = true.
Proof.
  destruct fuel as [|fuel]; [discriminate|].
  destruct (Z_lt_ge_dec (0 + chunk_char_overlap) n) as [Hlt|Hge].
  - rewrite chunk_loop_step by assumption. intros Hr.
    apply chunk_loop_extends in Hr as [l Hl]. simpl in Hl.
    inversion Hl; subst.
    destruct (n <=? 0 + chunk_char_size).
    + rewrite py_slice_from_0. rewrite <- (substring_all text) at 1.
      apply prefix_substring.
    + apply py_slice_0_prefix.
  - rewrite chunk_loop_exit by lia. discriminate.
Qed.

End ChunkLoop.

(** ** Coverage *)

Section Coverage.

Variable text : string.
Variables chunk_char_size chunk_char_overlap : Z.
Hypothesis overlap_nonneg : 0 <= chunk_char_overlap.
Hypothesis step_positive : chunk_char_overlap < chunk_char_size.

Let n := Z.of_nat (String.length text).
Let step := chunk_char_size - chunk_char_overlap.
Let loop fuel := chunk_loop fuel text chunk_char_size chunk_char_overlap.

Lemma covered_by_app_l (acc l : list string) (i : nat) :
  covered_by text step acc i -> covered_by text step (acc ++ l) i.
Proof.
  intros (k & c & Hk & Heq & Hr). exists k, c.
  split; [now apply lookup_app_l_Some | now split].
Qed.

(** The chunk emitted at a position inside the text starts there and
    reaches to [pos + chunk_char_size] or to the end of the text. *)
Lemma emitted_chunk_span (pos : Z) :
  0 <= pos < n ->
  let chunk := if n <=? pos + chunk_char_size
               then py_slice_from text pos
               else py_slice text pos (pos + chunk_char_size) in
  chunk = substring (Z.to_nat pos) (String.length chunk) text /\
  Z.of_nat (String.length chunk) = Z.min chunk_char_size (n - pos).
Proof.
  intros Hpos. cbv zeta. unfold n in *.
  destruct (_ <=? pos + chunk_char_size) eqn:E.
  - apply Z.leb_le in E.
    rewrite py_slice_from_inside by lia.
    rewrite length_substring. rewrite Nat.min_id. split; [reflexivity|].
    lia.
  - apply Z.leb_gt in E.
    rewrite py_slice_inside by lia.
    rewrite length_substring.
    replace (Nat.min (Z.to_nat (pos + chunk_char_size - pos))
               (String.length text - Z.to_nat pos))
      with (Z.to_nat (pos + chunk_char_size - pos)) by lia.
    split; [reflexivity|]. lia.
Qed.

(** The invariant of the loop: the cursor stands at [length acc * step],
    and the chunks so far cover the text up to the cursor plus the
    overlap. *)
Lemma chunk_loop_covers (fuel : nat) (pos : Z) (acc r : list string) :
  pos = Z.of_nat (length acc) * step ->
  (forall i, Z.of_nat i < Z.min (pos + chunk_char_overlap) n ->
             covered_by text step acc i) ->
  loop fuel pos acc = Return r ->
  covers text step r.
Proof.
  revert pos acc. induction fuel as [|fuel IH];
    intros pos acc Hpos Hinv Hr; [discriminate|].
  assert (Hpos0 : 0 <= pos) by (unfold step in *; nia).
  destruct (Z_lt_ge_dec (pos + chunk_char_overlap) n) as [Hlt|Hge].
  - unfold loop in Hr. rewrite chunk_loop_step in Hr by assumption.
    apply IH in Hr; [assumption | |].
    + rewrite length_app. cbn [length]. unfold step in *. lia.
    + intros i Hi.
      destruct (Z_lt_ge_dec (Z.of_nat i) (pos + chunk_char_overlap))
        as [Hold|Hnew].
      * apply covered_by_app_l, Hinv. lia.
      * destruct (emitted_chunk_span pos) as [Heq Hlen]; [lia|].
        unfold n in *.
        eexists (length acc), _.
        split; [now apply list_lookup_middle|].
        rewrite <- Hpos. split; [exact Heq|]. lia.
  - unfold loop in Hr.
    rewrite chunk_loop_exit in Hr by (unfold n in *; lia).
    inversion Hr; subst r. intros i Hi. apply Hinv. unfold n in *. lia.
Qed.

(** With a positive step and an overlap shorter than the text, the loop
    started as the chunker starts it returns chunks that cover the text. *)
Lemma chunk_loop_covers_from_start (fuel : nat) :
  chunk_char_overlap < n ->
  (Z.to_nat n < fuel)%nat ->
  exists chunks, loop fuel 0 [] = Return chunks /\ covers text step chunks.
Proof.
  intros Hov Hfuel.
  destruct (chunk_loop_terminates text chunk_char_size chunk_char_overlap
              fuel 0 []) as [r Hr]; [assumption | unfold n in *; lia |].
  exists r. split; [exact Hr|].
  destruct fuel as [|fuel]; [discriminate|].
  rewrite chunk_loop_step in Hr by (unfold n in *; lia).
  eapply chunk_loop_covers; [| | exact Hr].
  - cbn [app length]. unfold step. lia.
  - intros i Hi.
    destruct (emitted_chunk_span 0) as [Heq Hlen]; [unfold n in *; lia|].
    unfold n in *.
    eexists 0%nat, _. split; [reflexivity|].
    split; [exact Heq|]. lia.
Qed.

End Coverage.

(** ** The chunker *)

Lemma split_text_on_tokens_loop (fuel : nat) (text : string)
    (text_token chunk_size chunk_overlap size ov : Z) :
  chunk_char_sizes (Z.of_nat (String.length text)) text_token
    chunk_size chunk_overlap = Return (size, ov) ->
  split_text_on_tokens fuel (PStr text) text_token chunk_size chunk_overlap =
  chunk_loop fuel text size ov 0 [].
Proof.
  unfold chunk_char_sizes, split_text_on_tokens. simpl.
  destruct (PyFloat.int_truediv _ _) as [cpt| |]; simpl; try discriminate.
  destruct (scaled_chars chunk_size cpt) as [a| |]; simpl; try discriminate.
  destruct (scaled_chars chunk_overlap cpt) as [b| |]; simpl;
    try discriminate.
  intros [= -> ->]. reflexivity.
Qed.

(** A run of the chunker that returns has computed its two sizes. *)
Lemma split_text_on_tokens_returns (fuel : nat) (text : pyval)
    (text_token chunk_size chunk_overlap : Z) (chunks : list string) :
  split_text_on_tokens fuel text text_token chunk_size chunk_overlap =
    Return chunks ->
  exists s size ov,
    text = PStr s /\
    chunk_char_sizes (Z.of_nat (String.length s)) text_token
      chunk_size chunk_overlap = Return (size, ov) /\
    chunk_loop fuel s size ov 0 [] = Return chunks.
Proof.
  unfold split_text_on_tokens. intros Hr.
  destruct text as [|s]; simpl in Hr; [discriminate|].
  destruct (PyFloat.int_truediv _ _) as [cpt| |] eqn:E1; simpl in Hr;
    try discriminate.
  destruct (scaled_chars chunk_size cpt) as [a| |] eqn:E2; simpl in Hr;
    try discriminate.
  destruct (scaled_chars chunk_overlap cpt) as [b| |] eqn:E3; simpl in Hr;
    try discriminate.
  exists s, a, b. split; [reflexivity|]. split; [|exact Hr].
  unfold chunk_char_sizes. rewrite E1. simpl. rewrite E2. simpl.
  rewrite E3. reflexivity.
Qed.

(** C9. For every text, a token estimate of 0 makes [split_text_on_tokens]
    fail with [ZeroDivisionError] at the division [len(text) / text_token],
    whatever the chunk parameters and before the loop is entered; in
    particular it does not return an empty chunk list. *)
Theorem split_text_on_tokens_zero_tokens (fuel : nat) (text : string)
    (chunk_size chunk_overlap : Z) :
  split_text_on_tokens fuel (PStr text) 0 chunk_size chunk_overlap =
  Raise (Exn ZeroDivisionError "division by zero").
Proof.
  unfold split_text_on_tokens. cbn [py_len obind].
  unfold PyFloat.int_truediv. rewrite Z.eqb_refl. reflexivity.
Qed.

(** C3. For a text of 4000 characters estimated at 1000 tokens, with
    [chunk_size = 800] and [chunk_overlap = 100], the chunker computes
    [chunk_char_size = 3200] and [chunk_char_overlap = 400] and returns
    exactly two chunks: characters [0, 3200) and characters [2800, 4000),
    the second of length 1200. *)
Theorem split_text_on_tokens_scenario_4000 (fuel : nat) (text : string) :
  String.length text = 4000%nat ->
  (3 <= fuel)%nat ->
  chunk_char_sizes 4000 1000 800 100 = Return (3200, 400) /\
  split_text_on_tokens fuel (PStr text) 1000 800 100 =
    Return [substring 0 3200 text; substring 2800 1200 text] /\
  String.length (substring 0 3200 text) = 3200%nat /\
  String.length (substring 2800 1200 text) = 1200%nat.
Proof.
  intros Hlen Hfuel.
  assert (Hsizes : chunk_char_sizes 4000 1000 800 100 = Return (3200, 400))
    by (vm_compute; reflexivity).
  split; [exact Hsizes|]. split.
  - rewrite (split_text_on_tokens_loop fuel text 1000 800 100 3200 400)
      by (rewrite Hlen; exact Hsizes).
    destruct fuel as [|[|[|fuel]]]; try lia.
    rewrite chunk_loop_step by (rewrite Hlen; lia).
    rewrite chunk_loop_step by (rewrite Hlen; lia).
    rewrite chunk_loop_exit by (rewrite Hlen; lia).
    rewrite Hlen. simpl app.
    change (Z.of_nat 4000 <=? 0 + 3200) with false.
    change (Z.of_nat 4000 <=? 0 + (3200 - 400) + 3200) with true.
    cbv iota.
    rewrite py_slice_inside by (rewrite ?Hlen; lia).
    rewrite py_slice_from_inside by (rewrite ?Hlen; lia).
    rewrite Hlen. reflexivity.
  - rewrite !length_substring, Hlen. split; reflexivity.
Qed.

Lemma split_text_on_tokens_scenario_4000_witness :
  String.length (text_of_length 4000) = 4000%nat /\
  split_text_on_tokens 3 (PStr (text_of_length 4000)) 1000 800 100 =
    Return [substring 0 3200 (text_of_length 4000);
            substring 2800 1200 (text_of_length 4000)].
Proof.
  split; [vm_compute; reflexivity|].
  apply (split_text_on_tokens_scenario_4000 3 (text_of_length 4000)).
  - vm_compute; reflexivity.
  - lia.
Defined.

(** The other scenario of the specification: 2400 characters estimated at
    800 tokens give [chunk_char_size = 2400], and the single chunk is the
    whole text. *)
Example split_text_on_tokens_scenario_2400 :
  chunk_char_sizes 2400 800 800 100 = Return (2400, 300) /\
  split_text_on_tokens 2 (PStr (text_of_length 2400)) 800 800 100 =
    Return [text_of_length 2400].
Proof. split; vm_compute; reflexivity. Qed.

(** The chunker has no guard against a step that is not positive: when the
    computed [chunk_char_size] is at most the computed [chunk_char_overlap]
    and the overlap is shorter than the text, the run never leaves the
    loop, whatever the iteration budget. *)
Lemma split_text_on_tokens_loops_forever (fuel : nat) (text : string)
    (text_token chunk_size chunk_overlap size ov : Z) :
  chunk_char_sizes (Z.of_nat (String.length text)) text_token
    chunk_size chunk_overlap = Return (size, ov) ->
  size <= ov ->
  ov < Z.of_nat (String.length text) ->
  split_text_on_tokens fuel (PStr text) text_token chunk_size chunk_overlap =
  OutOfFuel.
Proof.
  intros Hsizes Hle Hlt.
  rewrite (split_text_on_tokens_loop _ _ _ _ _ _ _ Hsizes).
  apply chunk_loop_diverges; [assumption | lia | assumption].
Qed.

(** When the computed overlap is at least the length of the text, the loop
    body never runs and the result is the empty list. *)
Lemma split_text_on_tokens_empty (fuel : nat) (text : string)
    (text_token chunk_size chunk_overlap size ov : Z) :
  chunk_char_sizes (Z.of_nat (String.length text)) text_token
    chunk_size chunk_overlap = Return (size, ov) ->
  Z.of_nat (String.length text) <= ov ->
  split_text_on_tokens (S fuel) (PStr text) text_token
    chunk_size chunk_overlap = Return [].
Proof.
  intros Hsizes Hle.
  rewrite (split_text_on_tokens_loop _ _ _ _ _ _ _ Hsizes).
  apply chunk_loop_exit. lia.
Qed.

(** X17. With a positive step and a non-negative overlap shorter than the
    text, the chunker returns, and its chunks cover the text. *)
Lemma split_text_on_tokens_covers (fuel : nat) (text : string)
    (text_token chunk_size chunk_overlap size ov : Z) :
  chunk_char_sizes (Z.of_nat (String.length text)) text_token
    chunk_size chunk_overlap = Return (size, ov) ->
  0 <= ov < Z.of_nat (String.length text) ->
  ov < size ->
  (String.length text < fuel)%nat ->
  exists chunks,
    split_text_on_tokens fuel (PStr text) text_token
      chunk_size chunk_overlap = Return chunks /\
    covers text (size - ov) chunks.
Proof.
  intros Hsizes Hov Hstep Hfuel.
  rewrite (split_text_on_tokens_loop _ _ _ _ _ _ _ Hsizes).
  apply chunk_loop_covers_from_start; lia.
Qed.

(** ** Rounding error of the chunk sizes *)

Section FloatBasics.

Local Abbreviation prec := PyFloat.prec.
Local Abbreviation emax := PyFloat.emax.

Lemma two_neq_0 : (2 <> 0)%R.
Proof. lra. Qed.

Lemma powerRZ_2_pos (e : Z) : (0 < powerRZ 2 e)%R.
Proof. apply powerRZ_lt. lra. Qed.

Lemma IZR_pow2 (k : Z) : 0 <= k -> IZR (2 ^ k) = powerRZ 2 k.
Proof.
  intros Hk. rewrite <- (Z2Nat.id k) by assumption.
  rewrite <- pow_IZR. apply pow_powerRZ.
Qed.

Lemma fval_shift (m e k : Z) :
  0 <= k -> fval (m * 2 ^ k) e = fval m (e + k).
Proof.
  intros Hk. unfold fval. rewrite mult_IZR, IZR_pow2 by assumption.
  rewrite (powerRZ_add 2 e k two_neq_0). ring.
Qed.

Lemma fval_le (m m' e : Z) : m <= m' -> (fval m e <= fval m' e)%R.
Proof.
  intros Hle. unfold fval. apply Rmult_le_compat_r.
  - left. apply powerRZ_2_pos.
  - now apply IZR_le.
Qed.

Lemma digits2_pos_bounds (p : positive) :
  2 ^ (Zpos (digits2_pos p) - 1) <= Zpos p < 2 ^ Zpos (digits2_pos p).
Proof.
  induction p as [p IH|p IH|]; cbn [digits2_pos].
  - rewrite Pos2Z.inj_succ.
    replace (Z.succ (Z.pos (digits2_pos p)) - 1)
      with (Z.succ (Z.pos (digits2_pos p) - 1)) by lia.
    rewrite !Z.pow_succ_r by lia. lia.
  - rewrite Pos2Z.inj_succ.
    replace (Z.succ (Z.pos (digits2_pos p)) - 1)
      with (Z.succ (Z.pos (digits2_pos p) - 1)) by lia.
    rewrite !Z.pow_succ_r by lia. lia.
  - cbn. lia.
Qed.

Lemma Zdigits2_bounds (m : Z) :
  0 < m -> 2 ^ (Zdigits2 m - 1) <= m < 2 ^ Zdigits2 m.
Proof.
  destruct m as [|p|p]; try lia. intros _. apply digits2_pos_bounds.
Qed.

Lemma Zdigits2_pos (m : Z) : 0 < m -> 0 < Zdigits2 m.
Proof. destruct m; cbn; lia. Qed.

(** One step of [shr] halves the mantissa. *)
Lemma shr_1_m (mrs : shr_record) :
  0 <= shr_m mrs -> shr_m (shr_1 mrs) = shr_m mrs / 2.
Proof.
  destruct mrs as [m r s]. cbn [shr_m]. intros Hm.
  destruct m as [|[p|p|]|p]; cbn [shr_1 shr_m].
  all: try (exfalso; lia).
  all: try reflexivity.
  - apply Z.div_unique with (r := 1); lia.
  - apply Z.div_unique with (r := 0); lia.
Qed.

Lemma iter_shr_1_m (k : positive) (mrs : shr_record) :
  0 <= shr_m mrs ->
  shr_m (SpecFloat.iter_pos shr_1 k mrs) = shr_m mrs / 2 ^ Zpos k.
Proof.
  revert mrs. induction k as [k IH|k IH|]; intros mrs Hm;
    cbn [SpecFloat.iter_pos].
  - assert (H1 : 0 <= shr_m (shr_1 mrs))
      by (rewrite shr_1_m by assumption; apply Z.div_pos; lia).
    assert (H2 : 0 <= shr_m (SpecFloat.iter_pos shr_1 k (shr_1 mrs)))
      by (rewrite IH by assumption; apply Z.div_pos; lia).
    rewrite IH, IH, shr_1_m by assumption.
    rewrite !Z.div_div by lia. f_equal.
    replace (Z.pos k~1) with (1 + Z.pos k + Z.pos k) by lia.
    rewrite !Z.pow_add_r by lia. lia.
  - assert (H2 : 0 <= shr_m (SpecFloat.iter_pos shr_1 k mrs))
      by (rewrite IH by assumption; apply Z.div_pos; lia).
    rewrite IH, IH by assumption.
    rewrite !Z.div_div by lia. f_equal.
    replace (Z.pos k~0) with (Z.pos k + Z.pos k) by lia.
    rewrite !Z.pow_add_r by lia. lia.
  - rewrite shr_1_m by assumption. reflexivity.
Qed.

(** [shr] by [n]: the mantissa is divided by [2 ^ n] and the exponent
    grows by [n], when [n] is positive; nothing happens otherwise. *)
Lemma shr_spec (mrs : shr_record) (e n : Z) :
  0 <= shr_m mrs ->
  let '(mrs', e') := shr mrs e n in
  (0 < n -> shr_m mrs' = shr_m mrs / 2 ^ n /\ e' = e + n) /\
  (n <= 0 -> mrs' = mrs /\ e' = e).
Proof.
  intros Hm. destruct n as [|p|p]; cbn [shr].
  - split; [lia | auto].
  - split; [|lia]. intros _. split; [|reflexivity].
    apply iter_shr_1_m. assumption.
  - split; [lia | auto].
Qed.

Lemma shr_record_of_loc_m (m : Z) (l : location) :
  shr_m (shr_record_of_loc m l) = m.
Proof. now destruct l as [|[]]. Qed.

Lemma loc_of_shr_record_of_loc (m : Z) (l : location) :
  loc_of_shr_record (shr_record_of_loc m l) = l.
Proof. now destruct l as [|[]]. Qed.

Lemma round_nearest_even_bounds (m : Z) (l : location) :
  m <= round_nearest_even m l <= m + 1.
Proof.
  unfold round_nearest_even.
  destruct l as [|[]]; try destruct (Z.even m); lia.
Qed.

End FloatBasics.

Section RoundingBounds.

Local Abbreviation prec := PyFloat.prec.
Local Abbreviation emax := PyFloat.emax.

Lemma feps_pos : (0 < feps)%R.
Proof. apply powerRZ_2_pos. Qed.

Lemma fval_nonneg (m e : Z) : 0 <= m -> (0 <= fval m e)%R.
Proof.
  intros Hm. unfold fval. apply Rmult_le_pos.
  - now apply IZR_le.
  - left. apply powerRZ_2_pos.
Qed.

(** A second [shr_fexp] after rounding does not increase the value. *)
Lemma shr_fexp_exact_le (m e : Z) :
  0 <= m ->
  let '(mrs, e') := shr_fexp prec emax m e loc_Exact in
  (fval (shr_m mrs) e' <= fval m e)%R /\ e <= e' /\ 0 <= shr_m mrs.
Proof.
  intros Hm. unfold shr_fexp.
  set (k := fexp prec emax (Zdigits2 m + e) - e).
  pose proof (shr_spec (shr_record_of_loc m loc_Exact) e k) as Hs.
  destruct (shr (shr_record_of_loc m loc_Exact) e k) as [mrs e'].
  cbn [shr_record_of_loc shr_m] in Hs. specialize (Hs Hm).
  destruct Hs as [Hpos Hneg].
  destruct (Z_lt_le_dec 0 k) as [Hk|Hk].
  - destruct (Hpos Hk) as [-> ->]. split; [|split].
    + rewrite <- fval_shift by lia. apply fval_le.
      rewrite Z.mul_comm. apply Z.mul_div_le. lia.
    + lia.
    + apply Z.div_pos; lia.
  - destruct (Hneg Hk) as [-> ->]. cbn [shr_m].
    split; [lra | split; lia].
Qed.

(** On a positive mantissa [binary_round_aux] keeps the sign it is given
    and does not produce a NaN. *)
Lemma binary_round_aux_cases (sx : bool) (m e : Z) (l : location) :
  0 < m ->
  match binary_round_aux prec emax sx m e l with
  | S754_zero s | S754_infinity s | S754_finite s _ _ => s = sx
  | S754_nan => False
  end.
Proof.
  intros Hm. unfold binary_round_aux.
  unfold shr_fexp at 1.
  set (k := fexp prec emax (Zdigits2 m + e) - e).
  pose proof (shr_spec (shr_record_of_loc m l) e k) as Hs.
  destruct (shr (shr_record_of_loc m l) e k) as [mrs1 e1].
  rewrite shr_record_of_loc_m in Hs. specialize (Hs ltac:(lia)).
  destruct Hs as [Hpos Hneg].
  assert (Hm1 : 0 <= shr_m mrs1).
  { destruct (Z_lt_le_dec 0 k) as [Hk|Hk].
    - destruct (Hpos Hk) as [-> _]. apply Z.div_pos; lia.
    - destruct (Hneg Hk) as [-> _]. rewrite shr_record_of_loc_m. lia. }
  pose proof (round_nearest_even_bounds (shr_m mrs1)
                (loc_of_shr_record mrs1)) as Hm2.
  pose proof (shr_fexp_exact_le
                (round_nearest_even (shr_m mrs1) (loc_of_shr_record mrs1))
                e1 ltac:(lia)) as H2.
  destruct (shr_fexp prec emax _ e1 loc_Exact) as [mrs2 e2].
  destruct H2 as (_ & _ & Hnn).
  destruct (shr_m mrs2) as [|p|p]; [reflexivity | | lia].
  destruct (e2 <=? emax - prec); reflexivity.
Qed.

(** What [binary_round_aux] returns is at most the rounded mantissa of
    the first shift, taken at the exponent of that shift. *)
Lemma binary_round_aux_upper (m e : Z) (l : location) (s : bool)
    (m3 : positive) (e3 : Z) :
  0 < m ->
  binary_round_aux prec emax false m e l = S754_finite s m3 e3 ->
  let k := fexp prec emax (Zdigits2 m + e) - e in
  s = false /\ e <= e3 /\
  (0 < k -> (fval (Zpos m3) e3 <= fval (m / 2 ^ k + 1) (e + k))%R) /\
  (k <= 0 -> (fval (Zpos m3) e3 <= fval (round_nearest_even m l) e)%R).
Proof.
  intros Hm Hr k. unfold binary_round_aux in Hr.
  unfold shr_fexp at 1 in Hr. fold k in Hr.
  pose proof (shr_spec (shr_record_of_loc m l) e k) as Hs.
  destruct (shr (shr_record_of_loc m l) e k) as [mrs1 e1].
  rewrite shr_record_of_loc_m in Hs. specialize (Hs ltac:(lia)).
  destruct Hs as [Hpos Hneg].
  set (m2 := round_nearest_even (shr_m mrs1) (loc_of_shr_record mrs1))
    in Hr.
  pose proof (round_nearest_even_bounds (shr_m mrs1)
                (loc_of_shr_record mrs1)) as Hm2. fold m2 in Hm2.
  assert (Hm1 : 0 <= shr_m mrs1).
  { destruct (Z_lt_le_dec 0 k) as [Hk|Hk].
    - destruct (Hpos Hk) as [-> _]. apply Z.div_pos; lia.
    - destruct (Hneg Hk) as [-> _]. rewrite shr_record_of_loc_m. lia. }
  pose proof (shr_fexp_exact_le m2 e1 ltac:(lia)) as H2.
  destruct (shr_fexp prec emax m2 e1 loc_Exact) as [mrs2 e2].
  destruct H2 as (Hval & He & Hnn).
  destruct (shr_m mrs2) as [|p|p] eqn:Em; try discriminate.
  destruct (e2 <=? emax - prec); [|discriminate].
  injection Hr as <- <- <-.
  assert (He1 : e <= e1).
  { destruct (Z_lt_le_dec 0 k) as [Hk|Hk].
    - destruct (Hpos Hk) as [_ ->]. lia.
    - destruct (Hneg Hk) as [_ ->]. lia. }
  split; [reflexivity|]. split; [lia|]. split.
  - intros Hk. destruct (Hpos Hk) as [E1 ->].
    eapply Rle_trans; [exact Hval|]. apply fval_le. lia.
  - intros Hk. destruct (Hneg Hk) as [-> ->].
    subst m2.
    rewrite shr_record_of_loc_m, loc_of_shr_record_of_loc in Hval.
    exact Hval.
Qed.

(** In the normal range, and with at least [prec] digits whenever the
    input is inexact, one rounding adds at most the fraction [feps]. *)
Lemma binary_round_aux_relative (m e : Z) (l : location) (s : bool)
    (m3 : positive) (e3 : Z) :
  0 < m ->
  emin prec emax <= Zdigits2 m + e - prec ->
  (l <> loc_Exact -> prec <= Zdigits2 m) ->
  binary_round_aux prec emax false m e l = S754_finite s m3 e3 ->
  s = false /\ e <= e3 /\
  (fval (Zpos m3) e3 <= fval m e * (1 + feps))%R.
Proof.
  intros Hm Hnormal Hdigits Hr.
  destruct (binary_round_aux_upper m e l s m3 e3 Hm Hr)
    as (Hs & He & Hpos & Hneg).
  split; [exact Hs|]. split; [exact He|].
  pose proof (Zdigits2_bounds m Hm) as Hd.
  assert (Hk : fexp prec emax (Zdigits2 m + e) - e = Zdigits2 m - prec)
    by (unfold fexp; lia).
  rewrite Hk in Hpos, Hneg.
  assert (Heps : (fval m e * (1 + feps) = fval m e + fval m (e - 52))%R).
  { unfold fval, feps. replace (e - 52) with (e + -52) by lia.
    rewrite (powerRZ_add 2 e (-52) two_neq_0). ring. }
  rewrite Heps.
  destruct (Z_lt_le_dec 0 (Zdigits2 m - prec)) as [Hlt|Hle].
  - eapply Rle_trans; [apply Hpos; exact Hlt|].
    set (k := Zdigits2 m - prec) in *.
    rewrite <- fval_shift by lia.
    assert (Hpow : 2 ^ k * 2 ^ 52 <= m).
    { rewrite <- Z.pow_add_r by lia.
      replace (k + 52) with (Zdigits2 m - 1) by (unfold k, prec; lia).
      lia. }
    assert (Hfloor : m / 2 ^ k * 2 ^ k <= m)
      by (rewrite Z.mul_comm; apply Z.mul_div_le; lia).
    assert (H52 : (fval (2 ^ k) e <= fval m (e - 52))%R).
    { replace e with ((e - 52) + 52) at 1 by lia.
      rewrite <- fval_shift by lia. apply fval_le. lia. }
    replace ((m / 2 ^ k + 1) * 2 ^ k) with (m / 2 ^ k * 2 ^ k + 2 ^ k)
      by ring.
    unfold fval in *. rewrite plus_IZR.
    pose proof (IZR_le _ _ Hfloor) as Hf.
    pose proof (powerRZ_2_pos e) as He0. nra.
  - eapply Rle_trans; [apply Hneg; exact Hle|].
    destruct l as [|c].
    + cbn [round_nearest_even].
      pose proof (fval_nonneg m (e - 52) ltac:(lia)). lra.
    + assert (Hd53 : Zdigits2 m = prec)
        by (specialize (Hdigits ltac:(discriminate)); lia).
      pose proof (round_nearest_even_bounds m (loc_Inexact c)) as Hrne.
      eapply Rle_trans; [apply (fval_le _ (m + 1)); lia|].
      assert (H52 : (fval 1 e <= fval m (e - 52))%R).
      { replace e with ((e - 52) + 52) at 1 by lia.
        rewrite <- fval_shift by lia. apply fval_le.
        rewrite Hd53 in Hd. unfold prec in Hd. cbn in Hd. lia. }
      unfold fval in *. rewrite plus_IZR. lra.
Qed.

End RoundingBounds.

Section ChunkSizeBound.

Local Abbreviation prec := PyFloat.prec.
Local Abbreviation emax := PyFloat.emax.

Lemma fval_mul (m1 e1 m2 e2 : Z) :
  fval (m1 * m2) (e1 + e2) = (fval m1 e1 * fval m2 e2)%R.
Proof.
  unfold fval. rewrite mult_IZR, (powerRZ_add 2 e1 e2 two_neq_0). ring.
Qed.

Lemma fval_0 (m : Z) : fval m 0 = IZR m.
Proof. unfold fval. cbn. ring. Qed.

Lemma iter_xO (m d : positive) :
  Zpos (Pos.iter xO m d) = Zpos m * 2 ^ Zpos d.
Proof.
  induction d as [|d IH] using Pos.peano_ind.
  - cbn [Pos.iter]. change (2 ^ 1) with 2. lia.
  - rewrite Pos.iter_succ, Pos2Z.inj_xO, IH, Pos2Z.inj_succ.
    rewrite Z.pow_succ_r by lia. ring.
Qed.

Lemma shl_align_spec (mx : positive) (ex ex' : Z) :
  let '(mz, ez) := shl_align mx ex ex' in
  fval (Zpos mz) ez = fval (Zpos mx) ex /\ Z.min ex ex' <= ez.
Proof.
  unfold shl_align. destruct (ex' - ex) as [|d|d] eqn:E.
  - split; [reflexivity | lia].
  - split; [reflexivity | lia].
  - split; [|lia]. rewrite iter_xO, fval_shift by lia. f_equal. lia.
Qed.

(** [float(r)] for a positive integer. *)
Lemma of_int_upper (r : Z) (f : PyFloat.t) :
  0 < r ->
  PyFloat.of_int r = Return f ->
  (exists m e, f = S754_finite false m e /\
               (fval (Zpos m) e <= IZR r * (1 + feps))%R /\ -52 <= e) \/
  f = S754_zero false.
Proof.
  intros Hr. destruct r as [|p|p]; try lia. unfold PyFloat.of_int.
  cbn [binary_normalize]. unfold binary_round.
  pose proof (shl_align_spec p 0
                (fexp prec emax (Zpos (digits2_pos p) + 0))) as Hal.
  destruct (shl_align p 0 _) as [mz ez]. destruct Hal as [Hval Hez].
  assert (Hez' : -52 <= ez).
  { pose proof (digits2_pos_bounds p). unfold fexp, prec in Hez. lia. }
  pose proof (binary_round_aux_cases false (Zpos mz) ez loc_Exact
                ltac:(lia)) as Hcases.
  destruct (binary_round_aux prec emax false (Zpos mz) ez loc_Exact)
    as [s|s| |s m e] eqn:Eb; intros Hf; try discriminate;
    try contradiction.
  - injection Hf as <-. right. now subst.
  - injection Hf as <-. left.
    destruct (binary_round_aux_relative (Zpos mz) ez loc_Exact s m e)
      as (-> & He & Hrel); try assumption; try lia.
    + pose proof (Zdigits2_pos (Zpos mz)). unfold emin, prec, emax. lia.
    + congruence.
    + exists m, e. split; [reflexivity|]. split; [|lia].
      rewrite Hval, fval_0 in Hrel. exact Hrel.
Qed.

(** [int(x)] is at most [x]. *)
Lemma to_int_upper (m : positive) (e z : Z) :
  PyFloat.to_int (S754_finite false m e) = Return z ->
  (IZR z <= fval (Zpos m) e)%R.
Proof.
  cbn [PyFloat.to_int]. intros [= <-].
  destruct (0 <=? e) eqn:E.
  - apply Z.leb_le in E. rewrite <- (Z.add_0_l e) at 2.
    rewrite <- fval_shift, fval_0 by assumption. lra.
  - apply Z.leb_gt in E.
    assert (Hfloor : Zpos m / 2 ^ (- e) * 2 ^ (- e) <= Zpos m)
      by (rewrite Z.mul_comm; apply Z.mul_div_le; lia).
    apply (fval_le _ _ e) in Hfloor.
    rewrite fval_shift in Hfloor by lia.
    replace (e + - e) with 0 in Hfloor by lia.
    rewrite fval_0 in Hfloor. exact Hfloor.
Qed.


(** [a / b] for positive integers, [b] below [2 ^ 900]. *)
Lemma int_truediv_upper (a b : Z) (f : PyFloat.t) :
  0 < a -> 0 < b < 2 ^ 900 ->
  PyFloat.int_truediv a b = Return f ->
  (exists m e, f = S754_finite false m e /\
               (fval (Zpos m) e * IZR b <= IZR a * (1 + feps))%R /\
               -953 <= e) \/
  f = S754_zero false.
Proof.
  intros Ha [Hb Hb900]. destruct a as [|pa|pa]; try lia.
  destruct b as [|pb|pb]; try lia.
  unfold PyFloat.int_truediv. cbn [Z.eqb PyFloat.raw_of_int SFdiv].
  unfold SFdiv_core_binary.
  set (d1 := Zdigits2 (Zpos pa)). set (d2 := Zdigits2 (Zpos pb)).
  pose proof (Zdigits2_bounds (Zpos pa) ltac:(lia)) as Hd1. fold d1 in Hd1.
  pose proof (Zdigits2_bounds (Zpos pb) ltac:(lia)) as Hd2. fold d2 in Hd2.
  pose proof (Zdigits2_pos (Zpos pa) ltac:(lia)) as Hd1p. fold d1 in Hd1p.
  pose proof (Zdigits2_pos (Zpos pb) ltac:(lia)) as Hd2p. fold d2 in Hd2p.
  assert (Hd2' : d2 <= 900).
  { assert (Hlt : 2 ^ (d2 - 1) < 2 ^ 900) by lia.
    apply Z.pow_lt_mono_r_iff in Hlt; lia. }
  set (e' := Z.min (fexp prec emax (d1 + 0 - (d2 + 0))) (0 - 0)).
  assert (He' : e' = Z.min (d1 - d2 - 53) 0)
    by (unfold e', fexp, emin, prec, emax; lia).
  set (s := 0 - 0 - e').
  set (m' := match s with
             | 0 => Zpos pa
             | Zpos _ => Z.shiftl (Zpos pa) s
             | Zneg _ => 0
             end).
  assert (Hs : s = - e') by (unfold s; lia).
  assert (Hm' : m' = Zpos pa * 2 ^ s).
  { unfold m'. clearbody s. destruct s as [|p|p]; try lia.
    rewrite Z.shiftl_mul_pow2 by lia. reflexivity. }
  pose proof (Z_div_mod m' (Zpos pb) ltac:(lia)) as Hdiv.
  destruct (Z.div_eucl m' (Zpos pb)) as [q r]. destruct Hdiv as [Hq Hr].
  assert (Hlow : Zpos pb * 2 ^ 52 <= m').
  { rewrite Hm'. destruct (Z_le_gt_dec (d1 - d2 - 53) 0) as [Hc|Hc].
    - assert (Hs' : s = 53 + d2 - d1) by lia.
      assert (2 ^ (d1 - 1) * 2 ^ s = 2 ^ d2 * 2 ^ 52).
      { rewrite <- !Z.pow_add_r by lia. f_equal. lia. }
      nia.
    - assert (Hs' : s = 0) by lia. rewrite Hs', Z.mul_1_r.
      assert (2 ^ d2 * 2 ^ 52 <= 2 ^ (d1 - 1)).
      { rewrite <- Z.pow_add_r by lia. apply Z.pow_le_mono_r; lia. }
      nia. }
  assert (Hq52 : 2 ^ 52 <= q) by nia.
  pose proof (Zdigits2_bounds q ltac:(lia)) as Hdq.
  assert (Hdq' : 53 <= Zdigits2 q).
  { pose proof (Zdigits2_pos q ltac:(lia)).
    assert (Hlt : 2 ^ 52 < 2 ^ Zdigits2 q) by lia.
    apply Z.pow_lt_mono_r_iff in Hlt; lia. }
  pose proof (binary_round_aux_cases (xorb false false) q e'
                (new_location (Zpos pb) r) ltac:(lia)) as Hcases.
  destruct (binary_round_aux prec emax (xorb false false) q e' _)
    as [sz|sz| |sz m3 e3] eqn:Eb; intros Hf; try discriminate;
    try contradiction.
  - injection Hf as <-. right. now subst.
  - injection Hf as <-. left. cbn [xorb] in Eb.
    destruct (binary_round_aux_relative q e' _ sz m3 e3 ltac:(lia)
                ltac:(unfold emin, prec, emax; lia)
                ltac:(intros _; unfold prec; lia) Eb)
      as (-> & He3 & Hrel).
    exists m3, e3. split; [reflexivity|]. split; [|lia].
    assert (Hqb : (fval q e' * IZR (Zpos pb) <= IZR (Zpos pa))%R).
    { assert (Hle : q * Zpos pb <= Zpos pa * 2 ^ s) by nia.
      apply (fval_le _ _ e') in Hle.
      rewrite fval_shift in Hle by lia.
      replace (e' + s) with 0 in Hle by lia. rewrite fval_0 in Hle.
      unfold fval in *. rewrite mult_IZR in Hle. lra. }
    pose proof feps_pos as Heps.
    assert (0 <= IZR (Zpos pb))%R by (apply IZR_le; lia).
    assert (0 <= fval q e')%R by (apply fval_nonneg; lia).
    nra.
Qed.


Lemma to_int_nonneg (m : positive) (e z : Z) :
  PyFloat.to_int (S754_finite false m e) = Return z -> 0 <= z.
Proof.
  cbn [PyFloat.to_int]. intros [= <-]. destruct (0 <=? e) eqn:E.
  - apply Z.mul_nonneg_nonneg; [lia | apply Z.pow_nonneg; lia].
  - apply Z.leb_gt in E.
    apply Z.div_pos; [lia | apply Z.pow_pos_nonneg; lia].
Qed.

Lemma feps_value : feps = (/ 4503599627370496)%R.
Proof.
  unfold feps. cbn [powerRZ]. f_equal.
  rewrite pow_IZR. f_equal.
Qed.

(** The chunk size in characters never exceeds the exact quotient
    [chunk_size * len(text) / text_token], for a text that is not empty,
    fewer than [2 ^ 900] tokens, and [chunk_size * len(text)] below
    [2 ^ 50]: three roundings cannot lift the product over the next
    integer. *)
Lemma scaled_chars_upper (a b r : Z) (cpt : PyFloat.t) (size : Z) :
  0 < a -> 0 < b < 2 ^ 900 -> 0 <= r -> r * a < 2 ^ 50 ->
  PyFloat.int_truediv a b = Return cpt ->
  scaled_chars r cpt = Return size ->
  0 <= size /\ size * b <= r * a.
Proof.
  intros Ha Hb Hr Hra Hdiv Hsize.
  unfold scaled_chars, PyFloat.int_mul in Hsize.
  destruct (PyFloat.of_int r) as [fr| |] eqn:Efr; try discriminate.
  cbn [obind] in Hsize.
  destruct (Z.eq_dec r 0) as [->|Hr0].
  - cbv in Efr. injection Efr as <-.
    destruct (int_truediv_upper a b cpt Ha Hb Hdiv)
      as [(mc & ec & -> & _)| ->]; cbn in Hsize;
      injection Hsize as <-; lia.
  - destruct (of_int_upper r fr ltac:(lia) Efr)
      as [(mr & er & -> & Hvr & Her)| ->];
    destruct (int_truediv_upper a b cpt Ha Hb Hdiv)
      as [(mc & ec & -> & Hvc & Hec)| ->];
    try (cbn in Hsize; injection Hsize as <-; nia).
    unfold PyFloat.mul in Hsize. cbn [SFmul xorb] in Hsize.
    pose proof (binary_round_aux_cases false (Zpos (mr * mc)) (er + ec)
                  loc_Exact ltac:(lia)) as Hcases.
    destruct (binary_round_aux prec emax false (Zpos (mr * mc)) (er + ec)
                loc_Exact) as [sz|sz| |sz m3 e3] eqn:Eb;
      try contradiction; subst sz.
    + cbn in Hsize. injection Hsize as <-. nia.
    + discriminate.
    + split; [eapply to_int_nonneg; exact Hsize|].
      pose proof (to_int_upper _ _ _ Hsize) as Hz.
      pose proof (Zdigits2_pos (Zpos (mr * mc)) ltac:(lia)) as Hdp.
      destruct (binary_round_aux_relative (Zpos (mr * mc)) (er + ec)
                  loc_Exact false m3 e3 ltac:(lia)
                  ltac:(unfold emin, prec, emax; lia)
                  ltac:(congruence) Eb) as (_ & _ & Hrel).
      rewrite Pos2Z.inj_mul, fval_mul in Hrel.
      pose proof feps_pos as Heps. pose proof feps_value as Hev.
      assert (Hb0 : (0 < IZR b)%R) by (apply IZR_lt; lia).
      assert (Ha0 : (0 < IZR a)%R) by (apply IZR_lt; lia).
      assert (Hr0' : (0 < IZR r)%R) by (apply IZR_lt; lia).
      assert (Hvr0 : (0 <= fval (Zpos mr) er)%R)
        by (apply fval_nonneg; lia).
      assert (Hvc0 : (0 <= fval (Zpos mc) ec)%R)
        by (apply fval_nonneg; lia).
      assert (Hra' : (IZR r * IZR a <= 1125899906842623)%R).
      { rewrite <- mult_IZR. apply IZR_le.
        change (2 ^ 50) with 1125899906842624 in Hra. lia. }
      assert (H1 : (IZR size * IZR b <=
                    fval (Zpos mr) er * (fval (Zpos mc) ec * IZR b) *
                    (1 + feps))%R) by nra.
      assert (H2 : (fval (Zpos mr) er * (fval (Zpos mc) ec * IZR b) <=
                    IZR r * (1 + feps) * (IZR a * (1 + feps)))%R).
      { apply Rmult_le_compat; try assumption.
        apply Rmult_le_pos; lra. }
      assert (H3 : (IZR size * IZR b <
                    IZR r * IZR a + 1)%R).
      { eapply Rle_lt_trans; [exact H1|].
        eapply Rle_lt_trans;
          [apply Rmult_le_compat_r; [lra | exact H2]|].
        set (X := (IZR r * IZR a)%R) in *.
        replace (IZR r * (1 + feps) * (IZR a * (1 + feps)) * (1 + feps))%R
          with (X * ((1 + feps) * (1 + feps) * (1 + feps)))%R
          by (unfold X; ring).
        assert (He3 : ((1 + feps) * (1 + feps) * (1 + feps) <=
                       1 + 4 * feps)%R) by (rewrite Hev; lra).
        assert (HX : (0 < X)%R) by (unfold X; nra).
        assert (X * ((1 + feps) * (1 + feps) * (1 + feps)) <=
                X * (1 + 4 * feps))%R by (apply Rmult_le_compat_l; lra).
        assert (X * (4 * feps) < 1)%R by (rewrite Hev; lra).
        lra. }
      rewrite <- mult_IZR in H3.
      replace (IZR r * IZR a + 1)%R with (IZR (r * a + 1)) in H3
        by (rewrite plus_IZR, mult_IZR; reflexivity).
      apply lt_IZR in H3. lia.
Qed.

End ChunkSizeBound.

(** ** The state monad *)

Lemma bind_return_inv {A B} (m : M A) (k : A -> M B) (w w' : world) (b : B) :
  bind m k w = (Return b, w') ->
  exists a w1, m w = (Return a, w1) /\ k a w1 = (Return b, w').
Proof.
  unfold bind. destruct (m w) as [[a|e|] w1]; intros Hr;
    try discriminate. eauto.
Qed.

(** ** The splitter *)

(** The equation of the source: the handler calls [split_texts] itself,
    with the default chunk parameters and [retry=False]. *)
Lemma split_texts_unfold (fuel : nat) (texts : list pyval) (agent_llm : LLM)
    (chunk_size chunk_overlap : Z) (retry : bool) :
  split_texts fuel texts agent_llm chunk_size chunk_overlap retry =
  try_except
    (split_texts_loop fuel texts agent_llm chunk_size chunk_overlap [])
    (fun e =>
       if retry
       then split_texts fuel texts agent_llm
              default_chunk_size default_chunk_overlap false
       else raise (split_failed e)).
Proof. reflexivity. Qed.

(** What a call of [split_texts] comes to, by the outcome of its first
    attempt and, after a failure, of the retry. *)
Lemma split_texts_no_retry_raise (fuel : nat) (texts : list pyval)
    (agent_llm : LLM) (cs co : Z) (w w1 : world) (e : exn) :
  split_texts_loop fuel texts agent_llm cs co [] w = (Raise e, w1) ->
  split_texts fuel texts agent_llm cs co false w = (Raise (split_failed e), w1).
Proof. unfold split_texts, try_except. now intros ->. Qed.

Lemma split_texts_retry_ok (fuel : nat) (texts : list pyval) (agent_llm : LLM)
    (cs co : Z) (w w1 w2 : world) (e : exn) (r : list string) :
  split_texts_loop fuel texts agent_llm cs co [] w = (Raise e, w1) ->
  split_texts_loop fuel texts agent_llm
    default_chunk_size default_chunk_overlap [] w1 = (Return r, w2) ->
  split_texts fuel texts agent_llm cs co true w = (Return r, w2).
Proof.
  unfold split_texts, split_texts_no_retry, try_except.
  now intros -> ->.
Qed.

Lemma split_texts_retry_raise (fuel : nat) (texts : list pyval)
    (agent_llm : LLM) (cs co : Z) (w w1 w2 : world) (e1 e2 : exn) :
  split_texts_loop fuel texts agent_llm cs co [] w = (Raise e1, w1) ->
  split_texts_loop fuel texts agent_llm
    default_chunk_size default_chunk_overlap [] w1 = (Raise e2, w2) ->
  split_texts fuel texts agent_llm cs co true w =
  (Raise (split_failed e2), w2).
Proof.
  unfold split_texts, split_texts_no_retry, try_except.
  now intros -> ->.
Qed.

(** A call that returns got its chunks from one run of the loop, with the
    caller's parameters or with the default ones. *)
Lemma split_texts_return_inv (fuel : nat) (texts : list pyval)
    (agent_llm : LLM) (cs co : Z) (retry : bool) (w w' : world)
    (r : list string) :
  split_texts fuel texts agent_llm cs co retry w = (Return r, w') ->
  exists cs' co' w0,
    split_texts_loop fuel texts agent_llm cs' co' [] w0 = (Return r, w').
Proof.
  unfold split_texts, split_texts_no_retry, try_except, raise.
  destruct (split_texts_loop fuel texts agent_llm cs co [] w)
    as [[r0|e|] w1] eqn:E1.
  - intros [= -> ->]. eauto.
  - destruct retry; [|discriminate].
    destruct (split_texts_loop fuel texts agent_llm _ _ [] w1)
      as [[r0|e'|] w2] eqn:E2; try discriminate.
    intros [= -> ->]. eauto.
  - discriminate.
Qed.

Section SplitterRuns.

Variable fuel : nat.

Lemma split_texts_loop_single_inv (content : pyval) (llm : LLM) (cs co : Z)
    (w w' : world) (r : list string) :
  split_texts_loop fuel [content] llm cs co [] w = (Return r, w') ->
  exists tok,
    get_num_tokens llm (estimator_calls w) content = Return tok /\
    split_text_on_tokens fuel content tok cs co = Return r.
Proof.
  cbn [split_texts_loop]. unfold bind, call_get_num_tokens, lift, ret.
  destruct (get_num_tokens llm (estimator_calls w) content)
    as [tok|e|] eqn:E1; try discriminate.
  destruct (split_text_on_tokens fuel content tok cs co)
    as [chunks|e|] eqn:E2; try discriminate.
  intros [= <- <-]. exists tok. split; [reflexivity | exact E2].
Qed.

(** A run of the loop leaves the record of strategy calls alone, and a
    run that returns has asked the estimator once per text. *)
Lemma split_texts_loop_world (texts : list pyval) (llm : LLM) (cs co : Z)
    (acc : list string) (w : world) :
  strategy_calls (snd (split_texts_loop fuel texts llm cs co acc w)) =
  strategy_calls w.
Proof.
  revert acc w. induction texts as [|t texts IH]; intros acc w;
    [reflexivity|].
  cbn [split_texts_loop]. unfold bind, call_get_num_tokens, lift.
  destruct (get_num_tokens llm (estimator_calls w) t) as [tok|e|];
    try reflexivity.
  destruct (split_text_on_tokens fuel t tok cs co) as [chunks|e|];
    try reflexivity.
  rewrite IH. reflexivity.
Qed.

Lemma split_texts_loop_calls (texts : list pyval) (llm : LLM) (cs co : Z)
    (acc r : list string) (w w' : world) :
  split_texts_loop fuel texts llm cs co acc w = (Return r, w') ->
  estimator_calls w' = (estimator_calls w + length texts)%nat.
Proof.
  revert acc w. induction texts as [|t texts IH]; intros acc w.
  - cbn. intros [= _ <-]. lia.
  - cbn [split_texts_loop]. unfold bind, call_get_num_tokens, lift.
    destruct (get_num_tokens llm (estimator_calls w) t) as [tok|e|];
      try discriminate.
    destruct (split_text_on_tokens fuel t tok cs co) as [chunks|e|];
      try discriminate.
    intros Hr. apply IH in Hr. rewrite Hr. cbn. lia.
Qed.

(** Two estimators that give the same answers from the respective
    starting points on make the loop end the same way. *)
Lemma split_texts_loop_agree (texts : list pyval) (l1 l2 : LLM) (cs co : Z)
    (acc : list string) (w1 w2 : world) :
  (forall j t, get_num_tokens l1 (estimator_calls w1 + j)%nat t =
               get_num_tokens l2 (estimator_calls w2 + j)%nat t) ->
  fst (split_texts_loop fuel texts l1 cs co acc w1) =
  fst (split_texts_loop fuel texts l2 cs co acc w2).
Proof.
  revert acc w1 w2. induction texts as [|t texts IH];
    intros acc w1 w2 Hagree; [reflexivity|].
  cbn [split_texts_loop]. unfold bind, call_get_num_tokens, lift.
  pose proof (Hagree 0%nat t) as H0. rewrite !Nat.add_0_r in H0.
  rewrite <- H0.
  destruct (get_num_tokens l1 (estimator_calls w1) t) as [tok|e|];
    try reflexivity.
  destruct (split_text_on_tokens fuel t tok cs co) as [chunks|e|];
    try reflexivity.
  apply IH. intros j t'. cbn. specialize (Hagree (S j) t').
  rewrite !Nat.add_succ_r in Hagree. exact Hagree.
Qed.

(** With the steady estimator the first attempt decides the call: the
    retry would repeat it and fail the same way. *)
Lemma split_texts_steady_return_inv (texts : list pyval) (f : pyval -> Z)
    (window completion : Z) (w w' : world) (r : list string) :
  split_texts fuel texts (steady_llm f window completion)
    default_chunk_size default_chunk_overlap true w = (Return r, w') ->
  fst (split_texts_loop fuel texts (steady_llm f window completion)
         default_chunk_size default_chunk_overlap [] w) = Return r.
Proof.
  set (llm := steady_llm f window completion).
  unfold split_texts, split_texts_no_retry, try_except, raise.
  destruct (split_texts_loop fuel texts llm _ _ [] w)
    as [[r0|e|] w1] eqn:E1.
  - now intros [= -> ->].
  - assert (Hsame :
      fst (split_texts_loop fuel texts llm
             default_chunk_size default_chunk_overlap [] w1) =
      fst (split_texts_loop fuel texts llm
             default_chunk_size default_chunk_overlap [] w)).
    { apply split_texts_loop_agree. reflexivity. }
    rewrite E1 in Hsame.
    destruct (split_texts_loop fuel texts llm _ _ [] w1) as [[r0|e'|] w2];
      simpl in Hsame; discriminate.
  - discriminate.
Qed.

End SplitterRuns.

(** With the flaky estimator and a batch that is not empty, the first
    attempt raises at the first estimator call, whatever the chunk
    parameters, and the retry with the default parameters ends as the
    steady estimator's attempt with the default parameters does. *)
Lemma split_texts_flaky_attempts (fuel : nat) (texts : list pyval) (e : exn)
    (f : pyval -> Z) (window completion : Z) (cs co : Z)
    (chunks : list string) :
  texts <> [] ->
  fst (split_texts_loop fuel texts (steady_llm f window completion)
         default_chunk_size default_chunk_overlap [] world0) =
    Return chunks ->
  split_texts_loop fuel texts (flaky_llm e f window completion) cs co []
    world0 = (Raise e, World 1 []) /\
  split_texts_loop fuel texts (flaky_llm e f window completion)
    default_chunk_size default_chunk_overlap [] (World 1 []) =
    (Return chunks, World (S (length texts)) []).
Proof.
  intros Hne Hsteady. split.
  - destruct texts as [|t texts]; [congruence|]. reflexivity.
  - pose proof (split_texts_loop_agree fuel texts
                  (flaky_llm e f window completion)
                  (steady_llm f window completion)
                  default_chunk_size default_chunk_overlap []
                  (World 1 []) world0) as Hagree.
    rewrite Hsteady in Hagree.
    pose proof (split_texts_loop_world fuel texts
                  (flaky_llm e f window completion)
                  default_chunk_size default_chunk_overlap []
                  (World 1 [])) as Hworld.
    destruct (split_texts_loop fuel texts (flaky_llm e f window completion)
                default_chunk_size default_chunk_overlap [] (World 1 []))
      as [o [calls log]] eqn:E.
    simpl in Hagree, Hworld. rewrite Hagree in * by reflexivity.
    apply split_texts_loop_calls in E. simpl in E. subst. reflexivity.
Qed.

(** C5, counterexample.  A recovered call does not return what a first
    attempt without failure would have returned when the caller passes its
    own chunk parameters: after a first failure a call with
    [chunk_size = 400] returns the two chunks of the default size, where an
    estimator that never fails gives three chunks of 1600 characters. *)
Lemma split_texts_retry_forgets_chunk_size :
  let text := text_of_length 4000 in
  let flaky :=
    flaky_llm (Exn RuntimeFailure "timeout") (fun _ => 1000) 4096 1024 in
  let steady := steady_llm (fun _ => 1000) 4096 1024 in
  fst (split_texts 5 [PStr text] flaky 400 100 true world0) =
    Return [substring 0 3200 text; substring 2800 1200 text] /\
  fst (split_texts 5 [PStr text] steady 400 100 true world0) =
    Return [substring 0 1600 text; substring 1200 1600 text;
            substring 2400 1600 text] /\
  fst (split_texts 5 [PStr text] flaky 400 100 true world0) <>
  fst (split_texts 5 [PStr text] steady 400 100 true world0).
Proof.
  cbv zeta. split; [|split].
  - vm_compute. reflexivity.
  - vm_compute. reflexivity.
  - vm_compute. discriminate.
Qed.

(** C5 (amended). For a batch that is not empty and an estimator that
    raises at its first call and answers from the second call on,
    [split_texts] with [retry=True] makes exactly one retry over the whole
    batch (one failed estimator call, then one call per text) with the
    default chunk parameters, and returns what a call with the default
    chunk parameters returns when the estimator never fails, whatever
    chunk parameters the caller passed; this is the result of an
    unfailing first attempt when the caller's parameters are the default
    ones.  With [retry=False] the call raises the wrapped error of the
    first failure instead. *)
Theorem split_texts_retry_recovers (fuel : nat) (texts : list pyval) (e : exn)
    (f : pyval -> Z) (window completion : Z) (cs co : Z)
    (chunks : list string) (w' : world) :
  texts <> [] ->
  split_texts fuel texts (steady_llm f window completion)
    default_chunk_size default_chunk_overlap true world0 =
    (Return chunks, w') ->
  split_texts fuel texts (flaky_llm e f window completion)
    cs co true world0 =
    (Return chunks, World (S (length texts)) []) /\
  split_texts fuel texts (flaky_llm e f window completion)
    cs co false world0 =
    (Raise (split_failed e), World 1 []).
Proof.
  intros Hne Hsteady.
  apply split_texts_steady_return_inv in Hsteady.
  destruct (split_texts_flaky_attempts fuel texts e f window completion
              cs co chunks Hne Hsteady) as [Hfirst Hretry].
  split.
  - eapply split_texts_retry_ok; eassumption.
  - apply split_texts_no_retry_raise. exact Hfirst.
Qed.

Lemma split_texts_retry_recovers_witness :
  split_texts 3 [PStr (text_of_length 4000)]
    (flaky_llm (Exn RuntimeFailure "timeout") (fun _ => 1000) 4096 1024)
    400 100 true world0 =
    (Return [substring 0 3200 (text_of_length 4000);
             substring 2800 1200 (text_of_length 4000)],
     World 2 []) /\
  split_texts 3 [PStr (text_of_length 4000)]
    (flaky_llm (Exn RuntimeFailure "timeout") (fun _ => 1000) 4096 1024)
    400 100 false world0 =
    (Raise (Exn ValueError "split text failed, exception=timeout"),
     World 1 []).
Proof.
  apply (split_texts_retry_recovers 3 [PStr (text_of_length 4000)]
           (Exn RuntimeFailure "timeout") (fun _ => 1000) 4096 1024
           400 100
           [substring 0 3200 (text_of_length 4000);
            substring 2800 1200 (text_of_length 4000)]
           (World 1 [])).
  - discriminate.
  - vm_compute. reflexivity.
Defined.

(** C6, counterexample.  With an estimator whose two failures differ, the
    wrapped error does not carry the cause of the first attempt: the
    message is built from the failure of the retry and does not mention
    the first one. *)
Lemma split_texts_message_is_not_first_cause :
  split_texts_loop 5 [PStr "background"] moody_llm
    default_chunk_size default_chunk_overlap [] world0 =
    (Raise (Exn RuntimeFailure "timeout"), World 1 []) /\
  split_texts_loop 5 [PStr "background"] moody_llm
    default_chunk_size default_chunk_overlap [] (World 1 []) =
    (Raise (Exn RuntimeFailure "rate limit"), World 2 []) /\
  split_texts 5 [PStr "background"] moody_llm
    default_chunk_size default_chunk_overlap true world0 =
    (Raise (Exn ValueError "split text failed, exception=rate limit"),
     World 2 []) /\
  fst (split_texts 5 [PStr "background"] moody_llm
         default_chunk_size default_chunk_overlap true world0) <>
    Raise (split_failed (Exn RuntimeFailure "timeout")).
Proof.
  repeat split; try reflexivity. vm_compute. discriminate.
Qed.

(** C6 (amended). When the first attempt and the single retry both fail,
    [split_texts] raises a [ValueError] whose message is
    ["split text failed, exception="] followed by the text of the failure
    of the retry; it carries the cause of the first attempt whenever the
    two failures have the same text.  The error reaches the caller: the
    call does not return a value. *)
Theorem split_texts_both_attempts_fail (fuel : nat) (texts : list pyval)
    (agent_llm : LLM) (cs co : Z) (w w1 w2 : world) (e1 e2 : exn) :
  split_texts_loop fuel texts agent_llm cs co [] w = (Raise e1, w1) ->
  split_texts_loop fuel texts agent_llm
    default_chunk_size default_chunk_overlap [] w1 = (Raise e2, w2) ->
  split_texts fuel texts agent_llm cs co true w =
    (Raise (Exn ValueError
              ("split text failed, exception=" +:+ py_str_exn e2)), w2) /\
  (py_str_exn e1 = py_str_exn e2 ->
   split_texts fuel texts agent_llm cs co true w =
     (Raise (Exn ValueError
               ("split text failed, exception=" +:+ py_str_exn e1)), w2)).
Proof.
  intros H1 H2.
  pose proof (split_texts_retry_raise _ _ _ _ _ _ _ _ _ _ H1 H2) as Hr.
  split; [exact Hr|]. intros ->. exact Hr.
Qed.

Lemma split_texts_both_attempts_fail_witness :
  split_texts 5 [PStr "background"] (constant_llm 0 4096 1024)
    default_chunk_size default_chunk_overlap true world0 =
  (Raise (Exn ValueError "split text failed, exception=division by zero"),
   World 2 []).
Proof.
  refine (proj1 (split_texts_both_attempts_fail 5 [PStr "background"]
                   (constant_llm 0 4096 1024)
                   default_chunk_size default_chunk_overlap
                   world0 (World 1 []) (World 2 [])
                   (Exn ZeroDivisionError "division by zero")
                   (Exn ZeroDivisionError "division by zero") _ _)).
  - reflexivity.
  - reflexivity.
Defined.

(** ** Truncation *)

(** C10. Whenever [truncate_content] returns normally, the content was a
    string and the returned string is a prefix of it: the chunk kept is
    the one that starts at character position 0, so nothing is dropped
    from the front and no character is rewritten. *)
Theorem truncate_content_prefix (fuel : nat) (content : pyval)
    (token_length : Z) (agent_llm : LLM) (w w' : world) (s : string) :
  truncate_content fuel content token_length agent_llm w = (Return s, w') ->
  exists c, content = PStr c /\ String.prefix s c = true.
Proof.
  unfold truncate_content. intros Hr.
  apply bind_return_inv in Hr as (u & w1 & _ & Hr).
  apply bind_return_inv in Hr as (chunks & w2 & Hsplit & Hhead).
  destruct chunks as [|c0 rest]; [discriminate|].
  injection Hhead as -> ->.
  apply split_texts_return_inv in Hsplit as (cs' & co' & w0 & Hloop).
  apply split_texts_loop_single_inv in Hloop as (tok & _ & Hchunks).
  apply split_text_on_tokens_returns in Hchunks
    as (c & size & ov & -> & _ & Hloop).
  exists c. split; [reflexivity|].
  eapply chunk_loop_first_prefix. exact Hloop.
Qed.

Lemma truncate_content_prefix_witness :
  exists c, PStr (text_of_length 4000) = PStr c /\
            String.prefix (substring 0 3200 (text_of_length 4000)) c = true.
Proof.
  apply (truncate_content_prefix 3 (PStr (text_of_length 4000)) 800
           (constant_llm 1000 4096 1024) world0
           (World 1 [CallTruncate (PStr (text_of_length 4000)) 800
                       (constant_llm 1000 4096 1024)])
           (substring 0 3200 (text_of_length 4000))).
  vm_compute. reflexivity.
Defined.

(** What a successful truncation returns: the first
    [min chunk_char_size len(content)] characters of the content, for the
    sizes computed from the estimate of the content. *)
Lemma truncate_content_first_attempt (fuel : nat) (content : string)
    (token_length : Z) (agent_llm : LLM) (w : world) (tok size ov : Z) :
  get_num_tokens agent_llm (estimator_calls w) (PStr content) = Return tok ->
  chunk_char_sizes (Z.of_nat (String.length content)) tok
    token_length default_chunk_overlap = Return (size, ov) ->
  0 <= ov < Z.of_nat (String.length content) ->
  ov < size ->
  (String.length content < fuel)%nat ->
  truncate_content fuel (PStr content) token_length agent_llm w =
  (Return (substring 0 (Z.to_nat (Z.min size
                                   (Z.of_nat (String.length content))))
             content),
   World (S (estimator_calls w))
     (strategy_calls w ++
      [CallTruncate (PStr content) token_length agent_llm])).
Proof.
  intros Htok Hsizes Hov Hstep Hfuel.
  unfold truncate_content, record_call, split_texts, try_except, bind.
  cbn [split_texts_loop]. unfold bind, call_get_num_tokens, lift.
  cbn [estimator_calls strategy_calls]. rewrite Htok.
  rewrite (split_text_on_tokens_loop _ _ _ _ _ _ _ Hsizes).
  destruct (chunk_loop_terminates content size ov fuel 0 []) as [r Hr];
    [assumption | lia |].
  rewrite Hr. cbn [app].
  destruct fuel as [|fuel']; [discriminate|].
  rewrite chunk_loop_step in Hr by lia.
  destruct (chunk_loop_extends _ _ _ _ _ _ _ Hr) as [l ->].
  assert (Hchunk :
    (if Z.of_nat (String.length content) <=? 0 + size
     then py_slice_from content 0
     else py_slice content 0 (0 + size)) =
    substring 0 (Z.to_nat (Z.min size (Z.of_nat (String.length content))))
      content).
  { destruct (Z.of_nat (String.length content) <=? 0 + size) eqn:E.
    - apply Z.leb_le in E. rewrite py_slice_from_0.
      rewrite Z.min_r by lia. rewrite Nat2Z.id. symmetry.
      apply substring_all.
    - apply Z.leb_gt in E. rewrite py_slice_inside by lia.
      rewrite Z.min_l by lia. f_equal. lia. }
  rewrite Hchunk. reflexivity.
Qed.

(** The sizes computed for a text that is not empty stay below the exact
    quotient. *)
Lemma chunk_char_sizes_upper (n tok cs co size ov : Z) :
  0 < n -> 0 < tok < 2 ^ 900 -> 0 <= cs -> cs * n < 2 ^ 50 ->
  chunk_char_sizes n tok cs co = Return (size, ov) ->
  0 <= size /\ size * tok <= cs * n.
Proof.
  intros Hn Htok Hcs Hprod. unfold chunk_char_sizes.
  destruct (PyFloat.int_truediv n tok) as [cpt| |] eqn:Ediv;
    try discriminate.
  cbn [obind].
  destruct (scaled_chars cs cpt) as [a| |] eqn:Ea; try discriminate.
  cbn [obind].
  destruct (scaled_chars co cpt) as [b| |]; try discriminate.
  intros [= <- <-].
  exact (scaled_chars_upper n tok cs cpt a Hn Htok Hcs Hprod Ediv Ea).
Qed.

(** Where the truncation works: when the estimate of the content is
    positive, the computed overlap is shorter than the content and smaller
    than the computed size, and the magnitudes are those of
    [chunk_char_sizes_upper], [truncate_content] returns a prefix of the
    content whose length, converted to tokens at the measured ratio
    [len(content) / tok], is at most [token_length]. *)
Lemma truncate_content_within_budget (fuel : nat) (content : string)
    (token_length : Z) (agent_llm : LLM) (w : world) (tok size ov : Z) :
  get_num_tokens agent_llm (estimator_calls w) (PStr content) = Return tok ->
  chunk_char_sizes (Z.of_nat (String.length content)) tok
    token_length default_chunk_overlap = Return (size, ov) ->
  0 <= ov < Z.of_nat (String.length content) ->
  ov < size ->
  (String.length content < fuel)%nat ->
  0 < tok < 2 ^ 900 ->
  0 <= token_length ->
  token_length * Z.of_nat (String.length content) < 2 ^ 50 ->
  exists s,
    truncate_content fuel (PStr content) token_length agent_llm w =
      (Return s,
       World (S (estimator_calls w))
         (strategy_calls w ++
          [CallTruncate (PStr content) token_length agent_llm])) /\
    String.prefix s content = true /\
    Z.of_nat (String.length s) * tok <=
      token_length * Z.of_nat (String.length content).
Proof.
  intros Htok Hsizes Hov Hstep Hfuel Hpos Htl Hprod.
  eexists. split; [|split].
  - eapply truncate_content_first_attempt; eassumption.
  - apply prefix_substring.
  - assert (Hlen : 0 < Z.of_nat (String.length content)) by lia.
    destruct (chunk_char_sizes_upper _ _ _ _ _ _ Hlen Hpos Htl Hprod
                Hsizes) as [Hsize0 Hbound].
    rewrite length_substring. hide_big; nia.
Qed.

(** ** The record of strategy calls *)

Section StrategyRecord.

Context `{Collaborators}.
Variable fuel : nat.


Lemma split_texts_world (texts : list pyval) (llm : LLM) (cs co : Z)
    (retry : bool) (w0 : world) :
  strategy_calls (snd (split_texts fuel texts llm cs co retry w0)) =
  strategy_calls w0.
Proof.
  unfold split_texts, split_texts_no_retry, try_except, raise.
  pose proof (split_texts_loop_world fuel texts llm cs co [] w0) as H1.
  destruct (split_texts_loop fuel texts llm cs co [] w0) as [[r|e|] w2];
    simpl in *; try assumption.
  destruct retry; [|assumption].
  pose proof (split_texts_loop_world fuel texts llm
                default_chunk_size default_chunk_overlap [] w2) as H2.
  destruct (split_texts_loop fuel texts llm _ _ [] w2) as [[r|e'|] w3];
    simpl in *; congruence.
Qed.

Lemma bind_ret_world {A B} (m : M A) (g : A -> B) (w0 : world) :
  snd (bind m (fun a => ret (g a)) w0) = snd (m w0).
Proof. unfold bind, ret. now destruct (m w0) as [[a|e|] w2]. Qed.

Lemma truncate_content_calls (content : pyval) (token_length : Z)
    (llm : LLM) (w0 : world) :
  strategy_calls (snd (truncate_content fuel content token_length llm w0)) =
  strategy_calls w0 ++ [CallTruncate content token_length llm].
Proof.
  unfold truncate_content, bind at 1, record_call.
  set (w2 := World _ _).
  pose proof (split_texts_world [content] llm token_length
                default_chunk_overlap true w2) as Hw.
  unfold bind.
  destruct (split_texts fuel [content] llm token_length
              default_chunk_overlap true w2) as [[[|c r]|e|] w3];
    simpl in *; exact Hw.
Qed.

Lemma summarize_by_stuff_calls (texts : list pyval) (llm : LLM)
    (version : string) (w0 : world) :
  strategy_calls (snd (summarize_by_stuff texts llm version w0)) =
  strategy_calls w0 ++ [CallStuff texts llm version].
Proof.
  unfold summarize_by_stuff, bind, record_call, lift.
  destruct (prompt_manager version) as [p|e|]; reflexivity.
Qed.

Lemma summarize_by_map_reduce_calls (texts : list pyval) (llm llm' : LLM)
    (sv cv : string) (w0 : world) :
  strategy_calls
    (snd (summarize_by_map_reduce fuel texts llm llm' sv cv w0)) =
  strategy_calls w0 ++ [CallMapReduce texts llm llm' sv cv].
Proof.
  unfold summarize_by_map_reduce, bind at 1, record_call.
  set (w2 := World _ _).
  pose proof (split_texts_world texts llm' default_chunk_size
                default_chunk_overlap true w2) as Hw.
  unfold bind, lift.
  destruct (split_texts fuel texts llm' default_chunk_size
              default_chunk_overlap true w2) as [[r|e|] w3];
    simpl in *; try exact Hw.
  destruct (prompt_manager sv) as [p|e|]; try exact Hw.
  destruct (prompt_manager cv) as [q|e|]; exact Hw.
Qed.

End StrategyRecord.

(** ** The controller *)

Section Controller.

Context `{Collaborators}.
Variable fuel : nat.
Variable prompt_template : PromptTemplate.
Variable profile : profile_config.
Variable planner_input : gmap string pyval.
Variable w : world.

(** The steps up to the budget check went through: the profile has its
    [llm_model] entry, both models were found, the template was
    formatted, and the target model estimated the prompt. *)
Variable llm_model : llm_model_config.
Variables agent_llm prompt_llm : LLM.
Variable prompt : string.
Variable prompt_tokens : Z.
Hypothesis has_llm_model : pf_llm_model profile = Some llm_model.
Hypothesis found_agent_llm :
  llm_manager (lm_name llm_model) = Return agent_llm.
Hypothesis found_prompt_llm :
  llm_manager (prompt_processor_llm_of llm_model) = Return prompt_llm.
Hypothesis formatted :
  format prompt_template
    (prompt_input_dict_of (input_variables prompt_template) planner_input)
  = Return prompt.
Hypothesis estimated :
  get_num_tokens agent_llm (estimator_calls w) (PStr prompt) =
  Return prompt_tokens.

Let remaining_tokens := max_context_length agent_llm - max_tokens agent_llm.
Let w1 := World (S (estimator_calls w)) (strategy_calls w).

Lemma new_background_within_budget :
  prompt_tokens <= remaining_tokens ->
  new_background fuel prompt_template profile planner_input w =
  (Return None, w1).
Proof.
  intros Hle. unfold new_background. rewrite has_llm_model.
  unfold bind, lift, call_get_num_tokens.
  rewrite found_agent_llm, found_prompt_llm, formatted, estimated.
  fold remaining_tokens.
  destruct (prompt_tokens <=? remaining_tokens) eqn:E; [reflexivity | lia].
Qed.

Lemma new_background_over_budget :
  remaining_tokens < prompt_tokens ->
  new_background fuel prompt_template profile planner_input w =
  bind (lift (PromptProcessEnum_from_value
                (prompt_processor_type_of llm_model)))
    (fun process_prompt_type_enum =>
       let content := get_background planner_input in
       match process_prompt_type_enum with
       | TRUNCATE =>
           bind (truncate_content fuel content remaining_tokens agent_llm)
             (fun s => ret (Some s))
       | STUFF =>
           bind (summarize_by_stuff [content] prompt_llm
                   (summary_prompt_version_of llm_model))
             (fun s => ret (Some s))
       | MAP_REDUCE =>
           bind (summarize_by_map_reduce fuel [content] prompt_llm
                   agent_llm (summary_prompt_version_of llm_model)
                   (combine_prompt_version_of llm_model))
             (fun s => ret (Some s))
       end) w1.
Proof.
  intros Hgt. unfold new_background. rewrite has_llm_model.
  unfold bind at 1 2 3 4. unfold lift at 1 2 3. unfold call_get_num_tokens.
  rewrite found_agent_llm, found_prompt_llm, formatted, estimated.
  fold remaining_tokens.
  destruct (prompt_tokens <=? remaining_tokens) eqn:E; [lia | reflexivity].
Qed.


Lemma process_llm_token_world :
  run_world (process_llm_token fuel prompt_template profile
               planner_input w) =
  snd (new_background fuel prompt_template profile planner_input w).
Proof.
  unfold process_llm_token.
  now destruct (new_background _ _ _ _ _) as [[[s|]|e|] w2].
Qed.

(** Over budget, the configured type selects the strategy, and the
    record of strategy calls gains that one call and nothing else. *)
Lemma dispatch_truncate :
  remaining_tokens < prompt_tokens ->
  prompt_processor_type_of llm_model = "truncate" ->
  new_background fuel prompt_template profile planner_input w =
    bind (truncate_content fuel (get_background planner_input)
            remaining_tokens agent_llm)
      (fun s => ret (Some s)) w1 /\
  strategy_calls
    (run_world (process_llm_token fuel prompt_template profile
                  planner_input w)) =
  strategy_calls w ++
  [CallTruncate (get_background planner_input) remaining_tokens agent_llm].
Proof.
  intros Hgt Htype.
  assert (Hnb := new_background_over_budget Hgt).
  rewrite Htype in Hnb. split; [rewrite Hnb; reflexivity|].
  rewrite process_llm_token_world, Hnb. unfold bind at 1, lift.
  cbn [PromptProcessEnum_from_value String.eqb Ascii.eqb Bool.eqb].
  rewrite bind_ret_world, truncate_content_calls. reflexivity.
Qed.

Lemma dispatch_stuff :
  remaining_tokens < prompt_tokens ->
  prompt_processor_type_of llm_model = "stuff" ->
  new_background fuel prompt_template profile planner_input w =
    bind (summarize_by_stuff [get_background planner_input] prompt_llm
            (summary_prompt_version_of llm_model))
      (fun s => ret (Some s)) w1 /\
  strategy_calls
    (run_world (process_llm_token fuel prompt_template profile
                  planner_input w)) =
  strategy_calls w ++
  [CallStuff [get_background planner_input] prompt_llm
     (summary_prompt_version_of llm_model)].
Proof.
  intros Hgt Htype.
  assert (Hnb := new_background_over_budget Hgt).
  rewrite Htype in Hnb. split; [rewrite Hnb; reflexivity|].
  rewrite process_llm_token_world, Hnb. unfold bind at 1, lift.
  cbn [PromptProcessEnum_from_value String.eqb Ascii.eqb Bool.eqb].
  rewrite bind_ret_world, summarize_by_stuff_calls. reflexivity.
Qed.

Lemma dispatch_map_reduce :
  remaining_tokens < prompt_tokens ->
  prompt_processor_type_of llm_model = "map_reduce" ->
  new_background fuel prompt_template profile planner_input w =
    bind (summarize_by_map_reduce fuel [get_background planner_input]
            prompt_llm agent_llm (summary_prompt_version_of llm_model)
            (combine_prompt_version_of llm_model))
      (fun s => ret (Some s)) w1 /\
  strategy_calls
    (run_world (process_llm_token fuel prompt_template profile
                  planner_input w)) =
  strategy_calls w ++
  [CallMapReduce [get_background planner_input] prompt_llm agent_llm
     (summary_prompt_version_of llm_model)
     (combine_prompt_version_of llm_model)].
Proof.
  intros Hgt Htype.
  assert (Hnb := new_background_over_budget Hgt).
  rewrite Htype in Hnb. split; [rewrite Hnb; reflexivity|].
  rewrite process_llm_token_world, Hnb. unfold bind at 1, lift.
  cbn [PromptProcessEnum_from_value String.eqb Ascii.eqb Bool.eqb].
  rewrite bind_ret_world, summarize_by_map_reduce_calls. reflexivity.
Qed.

(** X18. Where the TRUNCATE policy does its work: over budget, with the
    background a string whose estimate is positive, a computed overlap
    shorter than the background and smaller than the computed size, and the
    magnitudes of [chunk_char_sizes_upper], the call returns and
    ['background'] becomes a prefix of the old background whose length,
    converted to tokens at the measured ratio, is at most
    [remaining_tokens]. *)
Lemma process_llm_token_truncate_within_budget (content : string)
    (tok size ov : Z) :
  remaining_tokens < prompt_tokens ->
  prompt_processor_type_of llm_model = "truncate" ->
  planner_input !! "background" = Some (PStr content) ->
  get_num_tokens agent_llm (S (estimator_calls w)) (PStr content) =
    Return tok ->
  chunk_char_sizes (Z.of_nat (String.length content)) tok
    remaining_tokens default_chunk_overlap = Return (size, ov) ->
  0 <= ov < Z.of_nat (String.length content) ->
  ov < size ->
  (String.length content < fuel)%nat ->
  0 < tok < 2 ^ 900 ->
  0 <= remaining_tokens ->
  remaining_tokens * Z.of_nat (String.length content) < 2 ^ 50 ->
  exists s,
    process_llm_token fuel prompt_template profile planner_input w =
      {| run_outcome := Return tt;
         run_planner_input := <["background" := PStr s]> planner_input;
         run_world :=
           World (S (S (estimator_calls w)))
             (strategy_calls w ++
              [CallTruncate (PStr content) remaining_tokens agent_llm]) |} /\
    String.prefix s content = true /\
    Z.of_nat (String.length s) * tok <=
      remaining_tokens * Z.of_nat (String.length content).
Proof.
  intros Hgt Htype Hbg Htok Hsizes Hov Hstep Hfuel Hpos Hrem Hprod.
  destruct (truncate_content_within_budget fuel content remaining_tokens
              agent_llm w1 tok size ov Htok Hsizes Hov Hstep Hfuel Hpos
              Hrem Hprod) as (s & Hrun & Hprefix & Hbound).
  exists s. split; [|split; assumption].
  unfold process_llm_token.
  destruct (dispatch_truncate Hgt Htype) as [-> _].
  unfold get_background. rewrite Hbg.
  unfold bind. rewrite Hrun. reflexivity.
Qed.

End Controller.

(** C7. A call of [process_llm_token] leaves every key of [planner_input]
    other than ['background'] as it was, however the call ends; a call
    that does not return normally leaves ['background'] as it was too;
    and when the prompt's estimated token count is at most
    [remaining_tokens], the call returns with [planner_input] unchanged on
    every key and without entering any strategy. *)
Theorem process_llm_token_frame `{Collaborators} (fuel : nat)
    (prompt_template : PromptTemplate) (profile : profile_config)
    (planner_input : gmap string pyval) (w : world) :
  let run :=
    process_llm_token fuel prompt_template profile planner_input w in
  (forall key : string,
     key <> "background" ->
     run_planner_input run !! key = planner_input !! key) /\
  (run_outcome run <> Return tt -> run_planner_input run = planner_input) /\
  (forall (llm_model : llm_model_config) (agent_llm prompt_llm : LLM)
          (prompt : string) (prompt_tokens : Z),
     pf_llm_model profile = Some llm_model ->
     llm_manager (lm_name llm_model) = Return agent_llm ->
     llm_manager (prompt_processor_llm_of llm_model) = Return prompt_llm ->
     format prompt_template
       (prompt_input_dict_of (input_variables prompt_template)
          planner_input) = Return prompt ->
     get_num_tokens agent_llm (estimator_calls w) (PStr prompt) =
       Return prompt_tokens ->
     prompt_tokens <= max_context_length agent_llm - max_tokens agent_llm ->
     run = {| run_outcome := Return tt;
              run_planner_input := planner_input;
              run_world := World (S (estimator_calls w))
                             (strategy_calls w) |}).
Proof.
  cbv zeta. split; [|split].
  - intros key Hkey. unfold process_llm_token.
    destruct (new_background _ _ _ _ _) as [[[s|]|e|] w2]; cbn;
      try reflexivity.
    apply lookup_insert_ne. congruence.
  - unfold process_llm_token.
    destruct (new_background _ _ _ _ _) as [[[s|]|e|] w2]; cbn;
      congruence.
  - intros llm_model agent_llm prompt_llm prompt prompt_tokens
      Hm Ha Hp Hf He Hle.
    unfold process_llm_token.
    rewrite (new_background_within_budget fuel prompt_template profile
               planner_input w llm_model agent_llm prompt_llm prompt
               prompt_tokens Hm Ha Hp Hf He Hle).
    reflexivity.
Qed.

Lemma process_llm_token_frame_witness :
  @process_llm_token (demo_collaborators (char_count_llm 4096 1024)) 5
    (demo_template 100) (demo_profile None)
    (demo_planner_input (text_of_length 80)) world0 =
  {| run_outcome := Return tt;
     run_planner_input := demo_planner_input (text_of_length 80);
     run_world := World 1 [] |}.
Proof.
  refine (proj2 (proj2
    (@process_llm_token_frame (demo_collaborators (char_count_llm 4096 1024))
       5 (demo_template 100) (demo_profile None)
       (demo_planner_input (text_of_length 80)) world0))
    _ (char_count_llm 4096 1024) (char_count_llm 4096 1024)
    (text_of_length 100 +:+ text_of_length 80) 180 _ _ _ _ _ _).
  - reflexivity.
  - reflexivity.
  - reflexivity.
  - vm_compute. reflexivity.
  - vm_compute. reflexivity.
  - vm_compute. discriminate.
Defined.

(** C8. When the prompt is over budget, [process_llm_token] goes on as the
    strategy named by the configured type and enters that strategy alone:
    ['truncate'] the truncation of the background to [remaining_tokens]
    with the target model, ['stuff'] the stuff summarisation with the
    compression model and the summary prompt version, ['map_reduce'] the
    map-reduce summarisation with the compression model, the target model
    and both prompt versions.  Options that are absent take their
    defaults: ['truncate'], the target model's name,
    ['prompt_processor.summary_cn'] and ['prompt_processor.combine_cn']. *)
Theorem process_llm_token_dispatch `{Collaborators} (fuel : nat)
    (prompt_template : PromptTemplate) (profile : profile_config)
    (planner_input : gmap string pyval) (w : world)
    (llm_model : llm_model_config) (agent_llm prompt_llm : LLM)
    (prompt : string) (prompt_tokens : Z) :
  pf_llm_model profile = Some llm_model ->
  llm_manager (lm_name llm_model) = Return agent_llm ->
  llm_manager (prompt_processor_llm_of llm_model) = Return prompt_llm ->
  format prompt_template
    (prompt_input_dict_of (input_variables prompt_template) planner_input)
    = Return prompt ->
  get_num_tokens agent_llm (estimator_calls w) (PStr prompt) =
    Return prompt_tokens ->
  max_context_length agent_llm - max_tokens agent_llm < prompt_tokens ->
  let remaining_tokens :=
    max_context_length agent_llm - max_tokens agent_llm in
  let content := get_background planner_input in
  let w1 := World (S (estimator_calls w)) (strategy_calls w) in
  let run :=
    process_llm_token fuel prompt_template profile planner_input w in
  (prompt_processor_type_of llm_model = "truncate" ->
   new_background fuel prompt_template profile planner_input w =
     bind (truncate_content fuel content remaining_tokens agent_llm)
       (fun s => ret (Some s)) w1 /\
   strategy_calls (run_world run) =
     strategy_calls w ++ [CallTruncate content remaining_tokens agent_llm]) /\
  (prompt_processor_type_of llm_model = "stuff" ->
   new_background fuel prompt_template profile planner_input w =
     bind (summarize_by_stuff [content] prompt_llm
             (summary_prompt_version_of llm_model))
       (fun s => ret (Some s)) w1 /\
   strategy_calls (run_world run) =
     strategy_calls w ++
     [CallStuff [content] prompt_llm (summary_prompt_version_of llm_model)]) /\
  (prompt_processor_type_of llm_model = "map_reduce" ->
   new_background fuel prompt_template profile planner_input w =
     bind (summarize_by_map_reduce fuel [content] prompt_llm agent_llm
             (summary_prompt_version_of llm_model)
             (combine_prompt_version_of llm_model))
       (fun s => ret (Some s)) w1 /\
   strategy_calls (run_world run) =
     strategy_calls w ++
     [CallMapReduce [content] prompt_llm agent_llm
        (summary_prompt_version_of llm_model)
        (combine_prompt_version_of llm_model)]) /\
  (pp_type (prompt_processor_of llm_model) = None ->
   prompt_processor_type_of llm_model = "truncate") /\
  (pp_llm (prompt_processor_of llm_model) = None ->
   prompt_processor_llm_of llm_model = lm_name llm_model) /\
  (pp_summary_prompt_version (prompt_processor_of llm_model) = None ->
   summary_prompt_version_of llm_model = "prompt_processor.summary_cn") /\
  (pp_combine_prompt_version (prompt_processor_of llm_model) = None ->
   combine_prompt_version_of llm_model = "prompt_processor.combine_cn").
Proof.
  intros Hm Ha Hp Hf He Hgt. cbv zeta.
  repeat match goal with |- _ /\ _ => split end.
  - intros Ht. eapply dispatch_truncate; eassumption.
  - intros Ht. eapply dispatch_stuff; eassumption.
  - intros Ht. eapply dispatch_map_reduce; eassumption.
  - unfold prompt_processor_type_of. now intros ->.
  - unfold prompt_processor_llm_of. now intros ->.
  - unfold summary_prompt_version_of. now intros ->.
  - unfold combine_prompt_version_of. now intros ->.
Qed.

Lemma process_llm_token_dispatch_witness :
  strategy_calls
    (run_world
       (@process_llm_token (demo_collaborators (char_count_llm 4096 1024)) 5
          (demo_template 100) (demo_profile (Some "stuff"))
          (demo_planner_input (text_of_length 4000)) world0)) =
  [] ++ [CallStuff [PStr (text_of_length 4000)] (char_count_llm 4096 1024)
           "prompt_processor.summary_cn"].
Proof.
  refine (proj2 (proj1 (proj2
    (@process_llm_token_dispatch
       (demo_collaborators (char_count_llm 4096 1024)) 5
       (demo_template 100) (demo_profile (Some "stuff"))
       (demo_planner_input (text_of_length 4000)) world0
       {| lm_name := Some "demo_llm";
          lm_prompt_processor := Some
            {| pp_type := Some "stuff"; pp_llm := None;
               pp_summary_prompt_version := None;
               pp_combine_prompt_version := None |} |}
       (char_count_llm 4096 1024) (char_count_llm 4096 1024)
       (text_of_length 100 +:+ text_of_length 4000) 4100
       _ _ _ _ _ _)) _)).
  - reflexivity.
  - reflexivity.
  - reflexivity.
  - vm_compute. reflexivity.
  - vm_compute. reflexivity.
  - vm_compute. reflexivity.
  - reflexivity.
Defined.

(** ** Inputs on which the chunker and the truncation go wrong *)

(** C2. A text of ten characters estimated at two tokens, chunked with
    the default parameters, comes back as no chunk at all: the computed
    overlap (500 characters) is not smaller than the text, so the loop
    condition fails before the first chunk, and no character position of
    the text is covered. *)
Theorem split_text_on_tokens_drops_short_text (fuel : nat) :
  chunk_char_sizes 10 2 default_chunk_size default_chunk_overlap =
    Return (4000, 500) /\
  split_text_on_tokens (S fuel) (PStr "short text") 2
    default_chunk_size default_chunk_overlap = Return [] /\
  (forall step, ~ covers "short text" step []).
Proof.
  split; [vm_compute; reflexivity|]. split.
  - apply (split_text_on_tokens_empty fuel "short text" 2
             default_chunk_size default_chunk_overlap 4000 500).
    + vm_compute. reflexivity.
    + vm_compute. discriminate.
  - intros step Hcov. destruct (Hcov 0%nat) as (k & c & Hk & _).
    + cbn. lia.
    + rewrite lookup_nil in Hk. discriminate.
Qed.

(** C4. With [chunk_size = chunk_overlap = 100] on a text of 4000
    characters estimated at 1000 tokens, the computed size and overlap are
    both 400 characters and the overlap is shorter than the text: the
    chunker raises no configuration error, and no iteration budget
    lets it return. *)
Theorem split_text_on_tokens_equal_overlap_never_returns (fuel : nat) :
  chunk_char_sizes 4000 1000 100 100 = Return (400, 400) /\
  split_text_on_tokens fuel (PStr (text_of_length 4000)) 1000 100 100 =
    OutOfFuel.
Proof.
  split; [vm_compute; reflexivity|].
  apply (split_text_on_tokens_loops_forever fuel (text_of_length 4000)
           1000 100 100 400 400).
  - vm_compute. reflexivity.
  - lia.
  - vm_compute. reflexivity.
Qed.

Lemma truncate_content_out_of_fuel (fuel : nat) (content : pyval)
    (token_length : Z) (agent_llm : LLM) (w : world) (tok : Z) :
  get_num_tokens agent_llm (estimator_calls w) content = Return tok ->
  split_text_on_tokens fuel content tok token_length default_chunk_overlap =
    OutOfFuel ->
  fst (truncate_content fuel content token_length agent_llm w) = OutOfFuel.
Proof.
  intros Htok Hsplit.
  unfold truncate_content, record_call, split_texts, try_except, bind.
  cbn [split_texts_loop]. unfold bind, call_get_num_tokens, lift.
  cbn [estimator_calls strategy_calls]. rewrite Htok, Hsplit. reflexivity.
Qed.

(** C1. Three over-budget runs of the controller with the TRUNCATE policy
    in which the background is not rewritten to fit, with an estimator
    that counts one token per character.  In the first the window is 4096
    tokens with 1024 kept for the completion, the instructions of the
    template take 3100 tokens and the background 80: the truncation gets
    no chunk back and the call raises [IndexError].  In the other two the
    window is 4096 with 4000 kept for the completion, so 96 tokens remain,
    and the prompt is the background alone: a background of 98 tokens
    raises [IndexError] and stays as it was, over the budget; with a
    background of 1000 tokens the truncation never returns. *)
Theorem process_llm_token_truncate_fails (fuel : nat) :
  @process_llm_token (demo_collaborators (char_count_llm 4096 1024)) (S fuel)
    (demo_template 3100) (demo_profile None)
    (demo_planner_input (text_of_length 80)) world0 =
  {| run_outcome := Raise (Exn IndexError "list index out of range");
     run_planner_input := demo_planner_input (text_of_length 80);
     run_world :=
       World 2 [CallTruncate (PStr (text_of_length 80)) 3072
                  (char_count_llm 4096 1024)] |} /\
  @process_llm_token (demo_collaborators (char_count_llm 4096 4000)) (S fuel)
    (demo_template 0) (demo_profile None)
    (demo_planner_input (text_of_length 98)) world0 =
  {| run_outcome := Raise (Exn IndexError "list index out of range");
     run_planner_input := demo_planner_input (text_of_length 98);
     run_world :=
       World 2 [CallTruncate (PStr (text_of_length 98)) 96
                  (char_count_llm 4096 4000)] |} /\
  run_outcome
    (@process_llm_token (demo_collaborators (char_count_llm 4096 4000)) fuel
       (demo_template 0) (demo_profile None)
       (demo_planner_input (text_of_length 1000)) world0) = OutOfFuel.
Proof.
  split; [vm_compute; reflexivity|].
  split; [vm_compute; reflexivity|].
  assert (Hloop :
    fst (truncate_content fuel (PStr (text_of_length 1000)) 96
           (char_count_llm 4096 4000) (World 1 [])) = OutOfFuel).
  { apply (truncate_content_out_of_fuel fuel (PStr (text_of_length 1000)) 96
             (char_count_llm 4096 4000) (World 1 []) 1000).
    - vm_compute. reflexivity.
    - apply (split_text_on_tokens_loops_forever fuel (text_of_length 1000)
               1000 96 default_chunk_overlap 96 100).
      + vm_compute. reflexivity.
      + lia.
      + vm_compute. reflexivity. }
  unfold process_llm_token.
  rewrite (new_background_over_budget
             (H := demo_collaborators (char_count_llm 4096 4000))
             fuel (demo_template 0) (demo_profile None)
             (demo_planner_input (text_of_length 1000)) world0
             {| lm_name := Some "demo_llm";
                lm_prompt_processor := Some
                  {| pp_type := None; pp_llm := None;
                     pp_summary_prompt_version := None;
                     pp_combine_prompt_version := None |} |}
             (char_count_llm 4096 4000) (char_count_llm 4096 4000)
             (text_of_length 0 +:+ text_of_length 1000) 1000);
    try (vm_compute; reflexivity).
  unfold bind at 1, lift.
  change (PromptProcessEnum_from_value _) with (Return TRUNCATE).
  cbv iota beta zeta.
  change (get_background _) with (PStr (text_of_length 1000)).
  change (max_context_length _ - max_tokens _) with 96.
  unfold bind.
  destruct (truncate_content fuel (PStr (text_of_length 1000)) 96
              (char_count_llm 4096 4000) _) as [[s|e|] w2];
    simpl in Hloop; try discriminate. reflexivity.
Qed.

(** ** More on substrings *)

Lemma substring_nil_length (s : string) (a : nat) : substring a 0 s = "".
Proof.
  revert a. induction s as [|c s IH]; intros [|a]; simpl; auto.
Qed.

Lemma substring_clip (s : string) (a b : nat) :
  substring a b s = substring a (Nat.min b (String.length s - a)) s.
Proof.
  revert a b. induction s as [|c s IH]; intros [|a] [|b]; simpl;
    try reflexivity.
  all: try (f_equal; rewrite (IH 0%nat b); f_equal; f_equal; lia).
  all: try apply IH.
Qed.

Lemma substring_whole (s : string) (m : nat) :
  (String.length s <= m)%nat -> substring 0 m s = s.
Proof.
  intros Hm. rewrite substring_clip, Nat.sub_0_r, Nat.min_r by assumption.
  apply substring_all.
Qed.

Lemma substring_substring (s : string) (c d a b : nat) :
  substring a b (substring c d s) =
  substring (c + a) (Nat.min b (d - a)) s.
Proof.
  revert c d a b. induction s as [|ch s IH]; intros c d a b.
  - destruct c, d, a, b; reflexivity.
  - destruct c as [|c].
    + destruct d as [|d].
      * replace (Nat.min b (0 - a)) with 0%nat by lia.
        rewrite !(substring_nil_length (String ch s)).
        destruct a, b; reflexivity.
      * cbn [substring]. destruct a as [|a].
        -- destruct b as [|b]; [reflexivity|]. cbn.
           rewrite (IH 0%nat d 0%nat b). cbn. now rewrite Nat.sub_0_r.
        -- cbn [substring Nat.add Nat.sub]. apply (IH 0%nat d a b).
    + cbn [substring Nat.add]. apply IH.
Qed.

Lemma substring_app (s : string) (a b : nat) :
  substring 0 a s +:+ substring a b s = substring 0 (a + b) s.
Proof.
  revert a b. induction s as [|c s IH]; intros a b.
  - destruct a, b; reflexivity.
  - destruct a as [|a].
    + reflexivity.
    + cbn [substring Nat.add]. rewrite <- IH. reflexivity.
Qed.

Lemma piece_of_substring (s : string) (a b : nat) :
  piece_of (substring a b s) s.
Proof.
  exists a. rewrite length_substring. apply substring_clip.
Qed.

(** ** The shape of the chunks *)

Section ChunkShape.

Variable text : string.
Variables chunk_char_size chunk_char_overlap : Z.
Hypothesis overlap_nonneg : 0 <= chunk_char_overlap.
Hypothesis step_positive : chunk_char_overlap < chunk_char_size.

Let n := Z.of_nat (String.length text).
Let step := chunk_char_size - chunk_char_overlap.
Let loop fuel := chunk_loop fuel text chunk_char_size chunk_char_overlap.

(** The chunk of index [k] was cut at [k * step], while the loop condition
    held there, and reaches over [chunk_char_size] characters or to the
    end of the text. *)
Lemma chunk_loop_nth (fuel : nat) (pos : Z) (acc r : list string) :
  pos = Z.of_nat (length acc) * step ->
  loop fuel pos acc = Return r ->
  forall (k : nat) (chunk : string),
    (length acc <= k)%nat ->
    r !! k = Some chunk ->
    Z.of_nat k * step + chunk_char_overlap < n /\
    chunk = substring (Z.to_nat (Z.of_nat k * step))
              (Z.to_nat (Z.min chunk_char_size (n - Z.of_nat k * step)))
              text.
Proof.
  revert pos acc. induction fuel as [|fuel IH];
    intros pos acc Hpos Hr k chunk Hk Hlook; [discriminate|].
  assert (Hpos0 : 0 <= pos) by (unfold step in *; nia).
  destruct (Z_lt_ge_dec (pos + chunk_char_overlap) n) as [Hlt|Hge].
  - unfold loop in Hr. rewrite chunk_loop_step in Hr by assumption.
    destruct (Nat.eq_dec k (length acc)) as [->|Hne].
    + destruct (chunk_loop_extends _ _ _ _ _ _ _ Hr) as [l ->].
      rewrite <- app_assoc in Hlook. cbn [app] in Hlook.
      rewrite list_lookup_middle in Hlook by reflexivity.
      injection Hlook as <-. rewrite <- Hpos. split; [exact Hlt|].
      destruct (emitted_chunk_span text chunk_char_size chunk_char_overlap
                  overlap_nonneg step_positive pos) as [Heq Hlen];
        [unfold n in *; lia|].
      rewrite Heq at 1. f_equal. unfold n in *. lia.
    + refine (IH _ _ _ Hr k chunk _ Hlook).
      * rewrite length_app. cbn [length]. unfold step in *. lia.
      * rewrite length_app. cbn [length]. lia.
  - unfold loop in Hr.
    rewrite chunk_loop_exit in Hr by (unfold n in *; lia).
    injection Hr as <-. apply lookup_lt_Some in Hlook. lia.
Qed.

(** When the loop returns, the cursor after the last chunk fails the loop
    condition. *)
Lemma chunk_loop_final_cursor (fuel : nat) (pos : Z) (acc r : list string) :
  pos = Z.of_nat (length acc) * step ->
  loop fuel pos acc = Return r ->
  n <= Z.of_nat (length r) * step + chunk_char_overlap.
Proof.
  revert pos acc. induction fuel as [|fuel IH];
    intros pos acc Hpos Hr; [discriminate|].
  destruct (Z_lt_ge_dec (pos + chunk_char_overlap) n) as [Hlt|Hge].
  - unfold loop in Hr. rewrite chunk_loop_step in Hr by assumption.
    eapply IH; [|exact Hr].
    rewrite length_app. cbn [length]. unfold step in *. lia.
  - unfold loop in Hr.
    rewrite chunk_loop_exit in Hr by (unfold n in *; lia).
    injection Hr as <-. lia.
Qed.

Lemma unsplit_snoc (overlap : nat) (acc : list string) (c : string) :
  acc <> [] ->
  unsplit overlap (acc ++ [c]) = unsplit overlap acc +:+ drop_chars overlap c.
Proof.
  destruct acc as [|c0 acc]; [congruence|]. intros _.
  cbn [unsplit app]. apply fold_left_app.
Qed.

(** The invariant of reassembly: the chunks so far, put together without
    the shared characters, are the text up to the cursor plus the
    overlap. *)
Lemma chunk_loop_unsplit (fuel : nat) (pos : Z) (acc r : list string) :
  acc <> [] ->
  pos = Z.of_nat (length acc) * step ->
  unsplit (Z.to_nat chunk_char_overlap) acc =
    substring 0 (Z.to_nat (pos + chunk_char_overlap)) text ->
  loop fuel pos acc = Return r ->
  unsplit (Z.to_nat chunk_char_overlap) r = text.
Proof.
  revert pos acc. induction fuel as [|fuel IH];
    intros pos acc Hne Hpos Hinv Hr; [discriminate|].
  assert (Hpos0 : 0 <= pos) by (unfold step in *; nia).
  destruct (Z_lt_ge_dec (pos + chunk_char_overlap) n) as [Hlt|Hge].
  - unfold loop in Hr. rewrite chunk_loop_step in Hr by assumption.
    refine (IH _ _ _ _ _ Hr).
    + now destruct acc.
    + rewrite length_app. cbn [length]. unfold step in *. lia.
    + destruct (emitted_chunk_span text chunk_char_size chunk_char_overlap
                  overlap_nonneg step_positive pos) as [Heq Hlen];
        [unfold n in *; lia|].
      set (c := if _ <=? _ then _ else _) in *.
      rewrite unsplit_snoc, Hinv by assumption.
      unfold drop_chars. rewrite Heq at 2.
      rewrite substring_substring, Nat.min_id.
      replace (Z.to_nat pos + Z.to_nat chunk_char_overlap)%nat
        with (Z.to_nat (pos + chunk_char_overlap)) by lia.
      rewrite substring_app.
      destruct (Z_le_gt_dec chunk_char_size (n - pos)) as [Hfull|Hclip].
      * f_equal. unfold n in *. lia.
      * rewrite !substring_whole by (unfold n in *; lia). reflexivity.
  - unfold loop in Hr.
    rewrite chunk_loop_exit in Hr by (unfold n in *; lia).
    injection Hr as <-. rewrite Hinv.
    apply substring_whole. unfold n in *. lia.
Qed.

End ChunkShape.

(** ** What the chunker returns *)

(** X1. When the computed overlap is not negative and smaller than the
    computed size, the chunk of index [k] of a returned list is the piece
    of the text that starts at [k * (chunk_char_size - chunk_char_overlap)];
    it is longer than the overlap (so it is not empty) and at most
    [chunk_char_size] long; every chunk but the last has exactly that
    length, and the last one ends where the text ends. *)
Theorem split_text_on_tokens_chunk_shape (fuel : nat) (text : string)
    (text_token chunk_size chunk_overlap size ov : Z)
    (chunks : list string) :
  chunk_char_sizes (Z.of_nat (String.length text)) text_token
    chunk_size chunk_overlap = Return (size, ov) ->
  0 <= ov -> ov < size ->
  split_text_on_tokens fuel (PStr text) text_token chunk_size chunk_overlap =
    Return chunks ->
  forall (k : nat) (chunk : string),
    chunks !! k = Some chunk ->
    let start := Z.of_nat k * (size - ov) in
    chunk = substring (Z.to_nat start) (String.length chunk) text /\
    ov < Z.of_nat (String.length chunk) <= size /\
    ((S k < length chunks)%nat -> Z.of_nat (String.length chunk) = size) /\
    (S k = length chunks ->
     start + Z.of_nat (String.length chunk) =
     Z.of_nat (String.length text)).
Proof.
  intros Hsizes Hov Hstep Hr k chunk Hlook start.
  rewrite (split_text_on_tokens_loop _ _ _ _ _ _ _ Hsizes) in Hr.
  destruct (chunk_loop_nth text size ov Hov Hstep fuel 0 [] chunks
              eq_refl Hr k chunk ltac:(cbn; lia) Hlook) as [Hcond Heq].
  fold start in Hcond, Heq.
  assert (Hstart : 0 <= start) by (unfold start; nia).
  assert (Hlen : Z.of_nat (String.length chunk) =
                 Z.min size (Z.of_nat (String.length text) - start)).
  { rewrite Heq, length_substring. lia. }
  split; [|split; [|split]].
  - rewrite Heq at 1. f_equal. lia.
  - lia.
  - intros Hnext.
    destruct (lookup_lt_is_Some_2 chunks (S k) Hnext) as [c' Hc'].
    destruct (chunk_loop_nth text size ov Hov Hstep fuel 0 [] chunks
                eq_refl Hr (S k) c' ltac:(cbn; lia) Hc') as [Hcond' _].
    unfold start in *. lia.
  - intros Hlast.
    pose proof (chunk_loop_final_cursor text size ov fuel 0 []
                  chunks eq_refl Hr) as Hfinal.
    rewrite <- Hlast in Hfinal. unfold start in *. lia.
Qed.

Lemma split_text_on_tokens_chunk_shape_witness :
  let text := text_of_length 4000 in
  substring 2800 1200 text =
    substring (Z.to_nat (Z.of_nat 1 * (3200 - 400)))
      (String.length (substring 2800 1200 text)) text.
Proof.
  cbv zeta.
  refine (proj1 (split_text_on_tokens_chunk_shape 3 (text_of_length 4000)
                   1000 800 100 3200 400
                   [substring 0 3200 (text_of_length 4000);
                    substring 2800 1200 (text_of_length 4000)]
                   _ _ _ _ 1%nat _ _)).
  - vm_compute. reflexivity.
  - lia.
  - lia.
  - vm_compute. reflexivity.
  - reflexivity.
Defined.

(** X2. Under the same conditions the number of chunks is 0 when the text
    is not longer than the overlap, and otherwise the quotient of
    [len(text) - chunk_char_overlap], rounded up, by the step
    [chunk_char_size - chunk_char_overlap]. *)
Theorem split_text_on_tokens_chunk_count (fuel : nat) (text : string)
    (text_token chunk_size chunk_overlap size ov : Z)
    (chunks : list string) :
  chunk_char_sizes (Z.of_nat (String.length text)) text_token
    chunk_size chunk_overlap = Return (size, ov) ->
  0 <= ov -> ov < size ->
  split_text_on_tokens fuel (PStr text) text_token chunk_size chunk_overlap =
    Return chunks ->
  Z.of_nat (length chunks) =
  if Z.of_nat (String.length text) <=? ov then 0
  else (Z.of_nat (String.length text) - ov + (size - ov) - 1) / (size - ov).
Proof.
  intros Hsizes Hov Hstep Hr.
  rewrite (split_text_on_tokens_loop _ _ _ _ _ _ _ Hsizes) in Hr.
  pose proof (chunk_loop_final_cursor text size ov fuel 0 []
                chunks eq_refl Hr) as Hfinal.
  destruct (Z.of_nat (String.length text) <=? ov) eqn:E.
  - apply Z.leb_le in E. destruct fuel as [|fuel]; [discriminate|].
    rewrite chunk_loop_exit in Hr by lia. now injection Hr as <-.
  - apply Z.leb_gt in E.
    assert (Hpos : (0 < length chunks)%nat).
    { destruct chunks; [cbn in Hfinal; lia | cbn; lia]. }
    destruct (lookup_lt_is_Some_2 chunks (length chunks - 1) ltac:(lia))
      as [c Hc].
    destruct (chunk_loop_nth text size ov Hov Hstep fuel 0 [] chunks
                eq_refl Hr _ c ltac:(cbn; lia) Hc) as [Hcond _].
    apply Z.div_unique
      with (r := Z.of_nat (String.length text) - ov + (size - ov) - 1 -
                 (size - ov) * Z.of_nat (length chunks)); nia.
Qed.

Lemma split_text_on_tokens_chunk_count_witness :
  Z.of_nat (length [substring 0 3200 (text_of_length 4000);
                    substring 2800 1200 (text_of_length 4000)]) =
  if Z.of_nat (String.length (text_of_length 4000)) <=? 400 then 0
  else (Z.of_nat (String.length (text_of_length 4000)) - 400 +
        (3200 - 400) - 1) / (3200 - 400).
Proof.
  apply (split_text_on_tokens_chunk_count 3 (text_of_length 4000)
           1000 800 100 3200 400).
  - vm_compute. reflexivity.
  - lia.
  - lia.
  - vm_compute. reflexivity.
Defined.

(** X3. Consecutive chunks share the overlap: the last
    [chunk_char_overlap] characters of a chunk are the first
    [chunk_char_overlap] characters of the next one. *)
Theorem split_text_on_tokens_overlap (fuel : nat) (text : string)
    (text_token chunk_size chunk_overlap size ov : Z)
    (chunks : list string) (k : nat) (c c' : string) :
  chunk_char_sizes (Z.of_nat (String.length text)) text_token
    chunk_size chunk_overlap = Return (size, ov) ->
  0 <= ov -> ov < size ->
  split_text_on_tokens fuel (PStr text) text_token chunk_size chunk_overlap =
    Return chunks ->
  chunks !! k = Some c ->
  chunks !! S k = Some c' ->
  substring (String.length c - Z.to_nat ov) (Z.to_nat ov) c =
  substring 0 (Z.to_nat ov) c'.
Proof.
  intros Hsizes Hov Hstep Hr Hc Hc'.
  rewrite (split_text_on_tokens_loop _ _ _ _ _ _ _ Hsizes) in Hr.
  destruct (chunk_loop_nth text size ov Hov Hstep fuel 0 [] chunks
              eq_refl Hr k c ltac:(cbn; lia) Hc) as [Hcond Heq].
  destruct (chunk_loop_nth text size ov Hov Hstep fuel 0 [] chunks
              eq_refl Hr (S k) c' ltac:(cbn; lia) Hc') as [Hcond' Heq'].
  assert (Hlen : Z.of_nat (String.length c) = size).
  { rewrite Heq, length_substring. nia. }
  rewrite Heq at 2. rewrite Heq'. rewrite !substring_substring.
  f_equal; nia.
Qed.

Lemma split_text_on_tokens_overlap_witness :
  let text := text_of_length 4000 in
  substring (String.length (substring 0 3200 text) - Z.to_nat 400)
    (Z.to_nat 400) (substring 0 3200 text) =
  substring 0 (Z.to_nat 400) (substring 2800 1200 text).
Proof.
  cbv zeta.
  apply (split_text_on_tokens_overlap 3 (text_of_length 4000)
           1000 800 100 3200 400
           [substring 0 3200 (text_of_length 4000);
            substring 2800 1200 (text_of_length 4000)] 0%nat).
  - vm_compute. reflexivity.
  - lia.
  - lia.
  - vm_compute. reflexivity.
  - reflexivity.
  - reflexivity.
Defined.

(** X4. Splitting loses nothing: when the overlap is not negative, smaller
    than the size and shorter than the text, the first chunk followed by
    every later chunk without its first [chunk_char_overlap] characters is
    the text again. *)
Theorem split_text_on_tokens_unsplit (fuel : nat) (text : string)
    (text_token chunk_size chunk_overlap size ov : Z)
    (chunks : list string) :
  chunk_char_sizes (Z.of_nat (String.length text)) text_token
    chunk_size chunk_overlap = Return (size, ov) ->
  0 <= ov < Z.of_nat (String.length text) ->
  ov < size ->
  split_text_on_tokens fuel (PStr text) text_token chunk_size chunk_overlap =
    Return chunks ->
  unsplit (Z.to_nat ov) chunks = text.
Proof.
  intros Hsizes Hov Hstep Hr.
  rewrite (split_text_on_tokens_loop _ _ _ _ _ _ _ Hsizes) in Hr.
  destruct fuel as [|fuel]; [discriminate|].
  rewrite chunk_loop_step in Hr by lia.
  refine (chunk_loop_unsplit text size ov ltac:(lia) Hstep fuel _ _ chunks
            _ _ _ Hr).
  - discriminate.
  - cbn [app length]. lia.
  - cbn [app unsplit fold_left].
    destruct (emitted_chunk_span text size ov ltac:(lia) Hstep 0
                ltac:(lia)) as [Heq Hlen].
    rewrite Heq. cbn [Z.to_nat].
    rewrite (substring_clip text 0 (Z.to_nat (0 + (size - ov) + ov))).
    f_equal. lia.
Qed.

Lemma split_text_on_tokens_unsplit_witness :
  unsplit (Z.to_nat 400)
    [substring 0 3200 (text_of_length 4000);
     substring 2800 1200 (text_of_length 4000)] = text_of_length 4000.
Proof.
  apply (split_text_on_tokens_unsplit 3 (text_of_length 4000)
           1000 800 100 3200 400).
  - vm_compute. reflexivity.
  - vm_compute. split; [discriminate | reflexivity].
  - lia.
  - vm_compute. reflexivity.
Defined.

(** ** More on the splitter *)

Lemma py_slice_piece (s : string) (a b : Z) : piece_of (py_slice s a b) s.
Proof. apply piece_of_substring. Qed.

Lemma py_slice_from_piece (s : string) (a : Z) :
  piece_of (py_slice_from s a) s.
Proof. apply piece_of_substring. Qed.

(** Every chunk the loop appends is a piece of the text. *)
Lemma chunk_loop_pieces (text : string) (size ov : Z) (fuel : nat) (pos : Z)
    (acc r : list string) :
  Forall (fun c => piece_of c text) acc ->
  chunk_loop fuel text size ov pos acc = Return r ->
  Forall (fun c => piece_of c text) r.
Proof.
  revert pos acc. induction fuel as [|fuel IH]; intros pos acc Hacc Hr;
    [discriminate|].
  destruct (Z_lt_ge_dec (pos + ov) (Z.of_nat (String.length text)))
    as [Hlt|Hge].
  - rewrite chunk_loop_step in Hr by assumption.
    eapply IH; [|exact Hr].
    apply Forall_app. split; [assumption|].
    constructor; [|constructor].
    destruct (_ <=? _); [apply py_slice_from_piece | apply py_slice_piece].
  - rewrite chunk_loop_exit in Hr by lia. now injection Hr as <-.
Qed.

(** The accumulator of the loop of [split_texts] is only ever extended, by
    what the same loop returns from an empty accumulator. *)
Lemma split_texts_loop_acc (fuel : nat) (texts : list pyval) (llm : LLM)
    (cs co : Z) (acc : list string) (w : world) :
  split_texts_loop fuel texts llm cs co acc w =
  match split_texts_loop fuel texts llm cs co [] w with
  | (Return r, w') => (Return (acc ++ r), w')
  | other => other
  end.
Proof.
  revert acc w. induction texts as [|t texts IH]; intros acc w.
  - cbn. unfold ret. now rewrite app_nil_r.
  - cbn [split_texts_loop]. unfold bind, call_get_num_tokens, lift.
    destruct (get_num_tokens llm (estimator_calls w) t) as [tok|e|];
      try reflexivity.
    destruct (split_text_on_tokens fuel t tok cs co) as [chunks|e|];
      try reflexivity.
    rewrite (IH (acc ++ chunks)), (IH ([] ++ chunks)).
    destruct (split_texts_loop fuel texts llm cs co [] _) as [[r|e|] w'];
      try reflexivity.
    now rewrite app_assoc.
Qed.

(** The loop over a batch made of two parts runs the first part and then,
    from the world it leaves, the second. *)
Lemma split_texts_loop_app (fuel : nat) (texts1 texts2 : list pyval)
    (llm : LLM) (cs co : Z) (acc : list string) (w : world) :
  split_texts_loop fuel (texts1 ++ texts2) llm cs co acc w =
  bind (split_texts_loop fuel texts1 llm cs co acc)
    (fun r1 => split_texts_loop fuel texts2 llm cs co r1) w.
Proof.
  revert acc w. induction texts1 as [|t texts1 IH]; intros acc w.
  - reflexivity.
  - cbn [app split_texts_loop]. unfold bind, call_get_num_tokens, lift.
    destruct (get_num_tokens llm (estimator_calls w) t) as [tok|e|];
      try reflexivity.
    destruct (split_text_on_tokens fuel t tok cs co) as [chunks|e|];
      try reflexivity.
    rewrite IH. reflexivity.
Qed.

(** A run of the loop asks the estimator at most once per text. *)
Lemma split_texts_loop_calls_le (fuel : nat) (texts : list pyval) (llm : LLM)
    (cs co : Z) (acc : list string) (w : world) :
  (estimator_calls w <=
   estimator_calls (snd (split_texts_loop fuel texts llm cs co acc w)) <=
   estimator_calls w + length texts)%nat.
Proof.
  revert acc w. induction texts as [|t texts IH]; intros acc w.
  - cbn. lia.
  - cbn [split_texts_loop]. unfold bind, call_get_num_tokens, lift.
    destruct (get_num_tokens llm (estimator_calls w) t) as [tok|e|];
      try (cbn; lia).
    destruct (split_text_on_tokens fuel t tok cs co) as [chunks|e|];
      try (cbn; lia).
    match goal with
    | |- context [split_texts_loop fuel texts llm cs co ?a ?w0] =>
        specialize (IH a w0)
    end.
    cbn in *. lia.
Qed.

(** The chunks of a run of the loop are pieces of the texts of the batch. *)
Lemma split_texts_loop_pieces (fuel : nat) (texts : list pyval) (llm : LLM)
    (cs co : Z) (acc r : list string) (w w' : world) :
  split_texts_loop fuel texts llm cs co acc w = (Return r, w') ->
  forall chunk, In chunk r ->
    In chunk acc \/ exists s, In (PStr s) texts /\ piece_of chunk s.
Proof.
  revert acc w. induction texts as [|t texts IH]; intros acc w.
  - cbn. unfold ret. intros [= <- _] chunk Hin. now left.
  - cbn [split_texts_loop]. unfold bind, call_get_num_tokens, lift.
    destruct (get_num_tokens llm (estimator_calls w) t) as [tok|e|];
      try discriminate.
    destruct (split_text_on_tokens fuel t tok cs co) as [chunks|e|] eqn:E;
      try discriminate.
    intros Hr chunk Hin.
    destruct (IH _ _ Hr chunk Hin) as [Hacc|(s & Hs & Hp)].
    + apply in_app_or in Hacc as [Hacc|Hnew]; [now left|].
      right.
      apply split_text_on_tokens_returns in E
        as (s & size & ov & -> & _ & Hloop).
      exists s. split; [now left|].
      pose proof (chunk_loop_pieces s size ov fuel 0 [] chunks
                    (List.Forall_nil _) Hloop) as Hall.
      rewrite List.Forall_forall in Hall. apply Hall. exact Hnew.
    + right. exists s. split; [now right | assumption].
Qed.

(** X5. Whatever the estimator does and whether or not the call retried,
    every chunk that [split_texts] returns is a contiguous piece of one of
    the texts of the batch: nothing is invented or rewritten. *)
Theorem split_texts_chunks_are_pieces (fuel : nat) (texts : list pyval)
    (agent_llm : LLM) (chunk_size chunk_overlap : Z) (retry : bool)
    (w w' : world) (chunks : list string) :
  split_texts fuel texts agent_llm chunk_size chunk_overlap retry w =
    (Return chunks, w') ->
  forall chunk, In chunk chunks ->
    exists text, In (PStr text) texts /\ piece_of chunk text.
Proof.
  intros Hr chunk Hin.
  apply split_texts_return_inv in Hr as (cs' & co' & w0 & Hloop).
  destruct (split_texts_loop_pieces _ _ _ _ _ _ _ _ _ Hloop chunk Hin)
    as [[]|Hp].
  exact Hp.
Qed.

Lemma split_texts_chunks_are_pieces_witness :
  exists text,
    In (PStr text) [PStr (text_of_length 4000)] /\
    piece_of (substring 2800 1200 (text_of_length 4000)) text.
Proof.
  apply (split_texts_chunks_are_pieces 3 [PStr (text_of_length 4000)]
           (flaky_llm (Exn RuntimeFailure "timeout") (fun _ => 1000)
              4096 1024)
           400 100 true world0 (World 2 [])
           [substring 0 3200 (text_of_length 4000);
            substring 2800 1200 (text_of_length 4000)]).
  - vm_compute. reflexivity.
  - right. left. reflexivity.
Defined.

(** X6. The only exception that leaves [split_texts] is its own
    [ValueError]: whatever was raised inside (by the estimator or by the
    chunker) and whatever the [retry] flag, a call that raises raises
    [ValueError("split text failed, exception=" + str(cause))], where
    [cause] is what the last attempt raised. *)
Theorem split_texts_raises_only_split_failed (fuel : nat)
    (texts : list pyval) (agent_llm : LLM) (chunk_size chunk_overlap : Z)
    (retry : bool) (w w' : world) (e : exn) :
  split_texts fuel texts agent_llm chunk_size chunk_overlap retry w =
    (Raise e, w') ->
  exists cause cs co w0,
    split_texts_loop fuel texts agent_llm cs co [] w0 = (Raise cause, w') /\
    e = Exn ValueError ("split text failed, exception=" +:+ py_str_exn cause).
Proof.
  unfold split_texts, split_texts_no_retry, try_except, raise.
  destruct (split_texts_loop fuel texts agent_llm chunk_size chunk_overlap
              [] w) as [[r0|e1|] w1] eqn:E1; try discriminate.
  destruct retry.
  - destruct (split_texts_loop fuel texts agent_llm _ _ [] w1)
      as [[r0|e2|] w2] eqn:E2; try discriminate.
    intros [= <- <-]. exists e2, default_chunk_size, default_chunk_overlap, w1.
    split; [exact E2 | reflexivity].
  - intros [= <- <-]. exists e1, chunk_size, chunk_overlap, w.
    split; [exact E1 | reflexivity].
Qed.

Lemma split_texts_raises_only_split_failed_witness :
  exists cause cs co w0,
    split_texts_loop 5 [PStr "background"] moody_llm cs co [] w0 =
      (Raise cause, World 2 []) /\
    Exn ValueError "split text failed, exception=rate limit" =
    Exn ValueError ("split text failed, exception=" +:+ py_str_exn cause).
Proof.
  apply (split_texts_raises_only_split_failed 5 [PStr "background"]
           moody_llm 400 100 true world0).
  reflexivity.
Defined.

(** A call of [split_texts] asks the estimator at most once per text in
    each of its attempts. *)
Lemma split_texts_calls_le (fuel : nat) (texts : list pyval) (llm : LLM)
    (cs co : Z) (retry : bool) (w : world) :
  (estimator_calls w <=
   estimator_calls (snd (split_texts fuel texts llm cs co retry w)) <=
   estimator_calls w + (if retry then 2 else 1) * length texts)%nat.
Proof.
  unfold split_texts, split_texts_no_retry, try_except, raise.
  pose proof (split_texts_loop_calls_le fuel texts llm cs co [] w) as H1.
  destruct (split_texts_loop fuel texts llm cs co [] w) as [[r|e|] w1];
    cbn [snd] in *; try (destruct retry; lia).
  destruct retry; cbn [snd]; [|lia].
  pose proof (split_texts_loop_calls_le fuel texts llm
                default_chunk_size default_chunk_overlap [] w1) as H2.
  destruct (split_texts_loop fuel texts llm _ _ [] w1)
    as [[r|e'|] w2]; cbn [snd] in *; lia.
Qed.

(** X7. [split_texts] leaves the record of strategy calls alone and asks
    the estimator at most once per text in each attempt: at most
    [len(texts)] times with [retry=False], at most twice that with
    [retry=True]; a call with [retry=False] that returns has asked exactly
    once per text. *)
Theorem split_texts_estimator_calls (fuel : nat) (texts : list pyval)
    (agent_llm : LLM) (chunk_size chunk_overlap : Z) (retry : bool)
    (w : world) :
  let run := split_texts fuel texts agent_llm chunk_size chunk_overlap
               retry w in
  strategy_calls (snd run) = strategy_calls w /\
  (estimator_calls w <= estimator_calls (snd run) <=
   estimator_calls w + (if retry then 2 else 1) * length texts)%nat /\
  (forall chunks, fst run = Return chunks -> retry = false ->
     estimator_calls (snd run) = (estimator_calls w + length texts)%nat).
Proof.
  cbv zeta. split; [|split].
  - apply split_texts_world.
  - apply split_texts_calls_le.
  - intros chunks Hr ->. revert Hr.
    unfold split_texts, try_except, raise.
    destruct (split_texts_loop fuel texts agent_llm chunk_size
                chunk_overlap [] w) as [[r|e|] w1] eqn:E; cbn [fst snd];
      try discriminate.
    intros _. eapply split_texts_loop_calls. exact E.
Qed.

(** X8. With [retry=False], splitting a batch made of two parts is
    splitting the first part and then, with the estimator in the state the
    first part left it in, the second: the call returns exactly when both
    parts return, and its chunks are those of the first part followed by
    those of the second. *)
Theorem split_texts_app (fuel : nat) (texts1 texts2 : list pyval)
    (agent_llm : LLM) (chunk_size chunk_overlap : Z) (w w' : world)
    (chunks : list string) :
  split_texts fuel (texts1 ++ texts2) agent_llm chunk_size chunk_overlap
    false w = (Return chunks, w') <->
  exists chunks1 chunks2 w1,
    split_texts fuel texts1 agent_llm chunk_size chunk_overlap false w =
      (Return chunks1, w1) /\
    split_texts fuel texts2 agent_llm chunk_size chunk_overlap false w1 =
      (Return chunks2, w') /\
    chunks = chunks1 ++ chunks2.
Proof.
  unfold split_texts, try_except, raise.
  rewrite split_texts_loop_app. unfold bind.
  destruct (split_texts_loop fuel texts1 agent_llm chunk_size
              chunk_overlap [] w) as [[r1|e1|] w1] eqn:E1.
  - rewrite split_texts_loop_acc.
    destruct (split_texts_loop fuel texts2 agent_llm chunk_size
                chunk_overlap [] w1) as [[r2|e2|] w2] eqn:E2.
    + split.
      * intros [= <- <-]. exists r1, r2, w1. rewrite E2. auto.
      * intros (c1 & c2 & w0 & [= <- <-] & H2 & ->).
        rewrite E2 in H2. now injection H2 as <- <-.
    + split; [discriminate|].
      intros (c1 & c2 & w0 & [= <- <-] & H2 & ->).
      rewrite E2 in H2. discriminate.
    + split; [discriminate|].
      intros (c1 & c2 & w0 & [= <- <-] & H2 & ->).
      rewrite E2 in H2. discriminate.
  - split; [discriminate|]. intros (c1 & c2 & w0 & H1 & _). discriminate.
  - split; [discriminate|]. intros (c1 & c2 & w0 & H1 & _). discriminate.
Qed.

(** ** When the chunker returns, and how long its chunks are *)

(** X9. For computed sizes [size] and [ov], the chunker returns for some
    iteration budget exactly when the step is positive ([ov < size]) or the
    loop is never entered ([len(text) <= ov]); in that case
    [len(text) - ov + 1] evaluations of the loop condition suffice.  In the
    remaining case, [size <= ov < len(text)], no budget is enough. *)
Theorem split_text_on_tokens_returns_iff (text : string)
    (text_token chunk_size chunk_overlap size ov : Z) :
  chunk_char_sizes (Z.of_nat (String.length text)) text_token
    chunk_size chunk_overlap = Return (size, ov) ->
  ((exists fuel chunks,
      split_text_on_tokens fuel (PStr text) text_token chunk_size
        chunk_overlap = Return chunks) <->
   (ov < size \/ Z.of_nat (String.length text) <= ov)) /\
  (ov < size \/ Z.of_nat (String.length text) <= ov ->
   forall fuel,
     (Z.to_nat (Z.of_nat (String.length text) - ov) < fuel)%nat ->
     exists chunks,
       split_text_on_tokens fuel (PStr text) text_token chunk_size
         chunk_overlap = Return chunks).
Proof.
  intros Hsizes.
  assert (Henough :
    ov < size \/ Z.of_nat (String.length text) <= ov ->
    forall fuel,
      (Z.to_nat (Z.of_nat (String.length text) - ov) < fuel)%nat ->
      exists chunks,
        split_text_on_tokens fuel (PStr text) text_token chunk_size
          chunk_overlap = Return chunks).
  { intros Hcase fuel Hfuel.
    rewrite (split_text_on_tokens_loop _ _ _ _ _ _ _ Hsizes).
    destruct Hcase as [Hstep|Hshort].
    - apply chunk_loop_terminates; [assumption | lia].
    - destruct fuel as [|fuel]; [lia|].
      exists []. apply chunk_loop_exit. lia. }
  split; [|exact Henough]. split.
  - intros (fuel & chunks & Hr).
    destruct (Z_lt_ge_dec ov size) as [Hlt|Hge]; [now left|].
    destruct (Z_lt_ge_dec ov (Z.of_nat (String.length text)))
      as [Hin|Hout]; [|right; lia].
    rewrite (split_text_on_tokens_loops_forever fuel text text_token
               chunk_size chunk_overlap size ov Hsizes ltac:(lia) Hin) in Hr.
    discriminate.
  - intros Hcase.
    exists (S (Z.to_nat (Z.of_nat (String.length text) - ov))).
    apply Henough; [assumption | lia].
Qed.

Lemma split_text_on_tokens_returns_iff_witness :
  exists chunks,
    split_text_on_tokens 3601 (PStr (text_of_length 4000)) 1000 800 100 =
    Return chunks.
Proof.
  refine (proj2 (split_text_on_tokens_returns_iff (text_of_length 4000)
                   1000 800 100 3200 400 _) _ 3601%nat _).
  - vm_compute. reflexivity.
  - left. lia.
  - vm_compute. lia.
Defined.

(** The computed overlap is bounded as the computed size is. *)
Lemma chunk_char_sizes_overlap_upper (n tok cs co size ov : Z) :
  0 < n -> 0 < tok < 2 ^ 900 -> 0 <= co -> co * n < 2 ^ 50 ->
  chunk_char_sizes n tok cs co = Return (size, ov) ->
  0 <= ov /\ ov * tok <= co * n.
Proof.
  intros Hn Htok Hco Hprod. unfold chunk_char_sizes.
  destruct (PyFloat.int_truediv n tok) as [cpt| |] eqn:Ediv;
    try discriminate.
  cbn [obind].
  destruct (scaled_chars cs cpt) as [a| |] eqn:Ea; try discriminate.
  cbn [obind].
  destruct (scaled_chars co cpt) as [b| |] eqn:Eb; try discriminate.
  intros [= <- <-].
  exact (scaled_chars_upper n tok co cpt b Hn Htok Hco Hprod Ediv Eb).
Qed.

Lemma piece_of_length (chunk text : string) :
  piece_of chunk text -> (String.length chunk <= String.length text)%nat.
Proof.
  intros [start Heq].
  apply (f_equal String.length) in Heq.
  rewrite length_substring in Heq. lia.
Qed.

(** X10. No chunk is longer than [chunk_size] tokens' worth of characters:
    for a positive token estimate below [2 ^ 900], parameters that are not
    negative, and [chunk_size * len(text)] and [chunk_overlap * len(text)]
    below [2 ^ 50], every chunk satisfies
    [len(chunk) * text_token <= chunk_size * len(text)], the three
    floating-point roundings notwithstanding. *)
Theorem split_text_on_tokens_chunk_budget (fuel : nat) (text : string)
    (text_token chunk_size chunk_overlap : Z) (chunks : list string) :
  0 < text_token < 2 ^ 900 ->
  0 <= chunk_size ->
  chunk_size * Z.of_nat (String.length text) < 2 ^ 50 ->
  0 <= chunk_overlap ->
  chunk_overlap * Z.of_nat (String.length text) < 2 ^ 50 ->
  split_text_on_tokens fuel (PStr text) text_token chunk_size chunk_overlap =
    Return chunks ->
  forall chunk, In chunk chunks ->
    Z.of_nat (String.length chunk) * text_token <=
    chunk_size * Z.of_nat (String.length text).
Proof.
  intros Htok Hcs Hcsn Hco Hcon Hr chunk Hin.
  apply split_text_on_tokens_returns in Hr
    as (s & size & ov & [= <-] & Hsizes & Hloop).
  destruct (Nat.eq_dec (String.length text) 0%nat) as [Hz|Hnz].
  - pose proof (chunk_loop_pieces text size ov fuel 0 [] chunks
                  (List.Forall_nil _) Hloop) as Hall.
    rewrite List.Forall_forall in Hall.
    pose proof (piece_of_length _ _ (Hall chunk Hin)). hide_big; nia.
  - assert (Hn : 0 < Z.of_nat (String.length text)) by lia.
    destruct (chunk_char_sizes_upper _ _ _ _ _ _ Hn Htok Hcs Hcsn Hsizes)
      as [Hsize0 Hsize].
    destruct (chunk_char_sizes_overlap_upper _ _ _ _ _ _ Hn Htok Hco Hcon
                Hsizes) as [Hov0 _].
    destruct fuel as [|fuel]; [discriminate|].
    destruct (Z_lt_ge_dec ov (Z.of_nat (String.length text)))
      as [Hin'|Hout].
    + destruct (Z_lt_ge_dec ov size) as [Hstep|Hnostep].
      * apply list_elem_of_In, list_elem_of_lookup_1 in Hin as [k Hk].
        destruct (chunk_loop_nth text size ov Hov0 Hstep (S fuel) 0 []
                    chunks eq_refl Hloop k chunk ltac:(cbn; lia) Hk)
          as [_ Heq].
        apply (f_equal String.length) in Heq.
        rewrite length_substring in Heq. hide_big; nia.
      * rewrite chunk_loop_diverges in Hloop by lia. discriminate.
    + rewrite chunk_loop_exit in Hloop by lia.
      injection Hloop as <-. destruct Hin.
Qed.

Lemma split_text_on_tokens_chunk_budget_witness :
  Z.of_nat (String.length (substring 2800 1200 (text_of_length 4000))) *
    1000 <= 800 * Z.of_nat (String.length (text_of_length 4000)).
Proof.
  apply (split_text_on_tokens_chunk_budget 3 (text_of_length 4000)
           1000 800 100
           [substring 0 3200 (text_of_length 4000);
            substring 2800 1200 (text_of_length 4000)]).
  - lia.
  - lia.
  - vm_compute. reflexivity.
  - lia.
  - vm_compute. reflexivity.
  - vm_compute. reflexivity.
  - right. left. reflexivity.
Defined.

(** ** Truncation of a missing background *)

(** X11. A content of [None] (a missing background) is not truncated:
    unless the estimator itself never answers, [truncate_content] raises
    the [ValueError] of [split_texts] after both attempts, having asked the
    estimator twice; when the estimator answers the second call, the
    message names the failure of [len(None)]. *)
Theorem truncate_content_none (fuel : nat) (token_length : Z)
    (agent_llm : LLM) (w : world) :
  (forall calls, get_num_tokens agent_llm calls PNone <> OutOfFuel) ->
  exists cause,
    truncate_content fuel PNone token_length agent_llm w =
      (Raise (Exn ValueError
                ("split text failed, exception=" +:+ py_str_exn cause)),
       World (S (S (estimator_calls w)))
         (strategy_calls w ++
          [CallTruncate PNone token_length agent_llm])) /\
    (forall tok,
       get_num_tokens agent_llm (S (estimator_calls w)) PNone = Return tok ->
       cause = Exn TypeError "object of type 'NoneType' has no len()").
Proof.
  intros Htotal.
  unfold truncate_content, record_call, split_texts, split_texts_no_retry,
    try_except, raise, bind.
  cbn [split_texts_loop]. unfold bind, call_get_num_tokens, lift.
  cbn [estimator_calls strategy_calls].
  pose proof (Htotal (estimator_calls w)) as H1.
  pose proof (Htotal (S (estimator_calls w))) as H2.
  assert (Hnone : forall tok cs co,
            split_text_on_tokens fuel PNone tok cs co =
            Raise (Exn TypeError "object of type 'NoneType' has no len()"))
    by reflexivity.
  destruct (get_num_tokens agent_llm (estimator_calls w) PNone)
    as [tok1|e1|]; try contradiction; rewrite ?Hnone;
    cbv beta iota; cbn [estimator_calls strategy_calls];
  destruct (get_num_tokens agent_llm (S (estimator_calls w)) PNone)
    as [tok2|e2|]; try contradiction; rewrite ?Hnone;
    cbv beta iota; cbn [estimator_calls strategy_calls].
  all: eexists; split; [reflexivity|]; intros tok [= ]; reflexivity.
Qed.

Lemma truncate_content_none_witness :
  exists cause,
    truncate_content 5 PNone 3072 (constant_llm 1000 4096 1024) world0 =
      (Raise (Exn ValueError
                ("split text failed, exception=" +:+ py_str_exn cause)),
       World 2 [CallTruncate PNone 3072 (constant_llm 1000 4096 1024)]) /\
    (forall tok,
       get_num_tokens (constant_llm 1000 4096 1024) 1 PNone = Return tok ->
       cause = Exn TypeError "object of type 'NoneType' has no len()").
Proof.
  apply (truncate_content_none 5 3072 (constant_llm 1000 4096 1024) world0).
  intros calls. discriminate.
Defined.

(** ** The dictionary given to the template *)

Lemma prompt_input_dict_of_fold (input_variables : list string)
    (planner_input d : gmap string pyval) (key : string) :
  fold_left
    (fun d key =>
       match planner_input !! key with
       | Some v => <[key := v]> d
       | None => d
       end)
    input_variables d !! key =
  if decide (key ∈ input_variables)
  then match planner_input !! key with
       | Some v => Some v
       | None => d !! key
       end
  else d !! key.
Proof.
  revert d. induction input_variables as [|k vars IH]; intros d.
  - cbn. destruct (decide (key ∈ [])) as [Hin|_]; [|reflexivity].
    now apply not_elem_of_nil in Hin.
  - cbn [fold_left]. rewrite IH.
    destruct (decide (key = k)) as [->|Hne].
    + destruct (decide (k ∈ k :: vars)) as [_|Hout];
        [|exfalso; apply Hout; left].
      destruct (planner_input !! k) as [v|] eqn:Ek.
      * rewrite lookup_insert_eq. now destruct (decide (k ∈ vars)).
      * now destruct (decide (k ∈ vars)).
    + assert (Hd : (match planner_input !! k with
                    | Some v => <[k := v]> d
                    | None => d
                    end) !! key = d !! key).
      { destruct (planner_input !! k); [|reflexivity].
        now rewrite lookup_insert_ne. }
      rewrite Hd.
      destruct (decide (key ∈ vars)) as [Hin|Hout];
        destruct (decide (key ∈ k :: vars)) as [Hin'|Hout'];
        try reflexivity.
      * exfalso. apply Hout'. now right.
      * exfalso. apply elem_of_cons in Hin' as [?|?]; congruence.
Qed.

(** X12. The dictionary that [process_llm_token] formats the template
    with holds, for each key, the value of [planner_input] when the key is
    one of the template's input variables, and nothing otherwise: a key of
    [planner_input] the template does not declare is not passed, and a
    declared variable that [planner_input] lacks is left out rather than
    raising. *)
Theorem prompt_input_dict_of_lookup (input_variables : list string)
    (planner_input : gmap string pyval) (key : string) :
  prompt_input_dict_of input_variables planner_input !! key =
  if decide (key ∈ input_variables) then planner_input !! key else None.
Proof.
  unfold prompt_input_dict_of. rewrite prompt_input_dict_of_fold.
  rewrite lookup_empty.
  destruct (decide (key ∈ input_variables)); [|reflexivity].
  now destruct (planner_input !! key).
Qed.

(** ** [generate_template] *)

Lemma string_append_assoc (a b c : string) :
  (a +:+ b) +:+ c = a +:+ (b +:+ c).
Proof.
  induction a as [|ch a IH]; [reflexivity|].
  change (String ch ((a +:+ b) +:+ c) = String ch (a +:+ (b +:+ c))).
  now rewrite IH.
Qed.

Lemma py_join_app (sep : string) (l1 l2 : list string) :
  l1 <> [] -> l2 <> [] ->
  py_join sep (l1 ++ l2) = py_join sep l1 +:+ sep +:+ py_join sep l2.
Proof.
  intros H1 H2. induction l1 as [|v l1 IH]; [congruence|].
  destruct l1 as [|v' l1].
  - cbn [app py_join]. destruct l2; [congruence | reflexivity].
  - change (py_join sep ((v :: v' :: l1) ++ l2))
      with (v +:+ sep +:+ py_join sep ((v' :: l1) ++ l2)).
    rewrite IH by discriminate.
    change (py_join sep (v :: v' :: l1))
      with (v +:+ sep +:+ py_join sep (v' :: l1)).
    now rewrite !string_append_assoc.
Qed.

(** The loop appends to [values] the string attributes named by the
    order, in that order. *)
Lemma generate_template_loop_omap (agent_prompt_model : gmap string pyval)
    (prompt_assemble_order : list string) (values : list string) :
  generate_template_loop agent_prompt_model prompt_assemble_order values =
  values ++
  omap (fun attr => match py_getattr agent_prompt_model attr with
                    | PStr value => Some value
                    | PNone => None
                    end) prompt_assemble_order.
Proof.
  revert values.
  induction prompt_assemble_order as [|attr rest IH]; intros values.
  - cbn. now rewrite app_nil_r.
  - cbn [generate_template_loop omap list_omap].
    destruct (py_getattr agent_prompt_model attr) as [|value].
    + apply IH.
    + rewrite IH, <- app_assoc. reflexivity.
Qed.

(** X13. The template depends only on the attributes the order names, and
    an attribute that is [None] counts as one that is absent: two prompt
    models that agree, through [getattr(_, attr, None)], on every attribute
    of the order give the same template. *)
Theorem generate_template_ext (model1 model2 : gmap string pyval)
    (prompt_assemble_order : list string) :
  (forall attr, In attr prompt_assemble_order ->
     py_getattr model1 attr = py_getattr model2 attr) ->
  generate_template model1 prompt_assemble_order =
  generate_template model2 prompt_assemble_order.
Proof.
  intros Hagree. unfold generate_template.
  rewrite !generate_template_loop_omap. f_equal. f_equal.
  induction prompt_assemble_order as [|attr rest IH]; [reflexivity|].
  cbn [omap list_omap]. rewrite (Hagree attr) by now left.
  rewrite IH; [reflexivity|]. intros a Ha. apply Hagree. now right.
Qed.

Lemma generate_template_ext_witness :
  generate_template
    (<["introduction" := PStr "intro"]>
       (<["target" := PNone]> (<["unused" := PStr "x"]> ∅)))
    ["introduction"; "target"; "instruction"] =
  generate_template
    (<["introduction" := PStr "intro"]> ∅)
    ["introduction"; "target"; "instruction"].
Proof.
  apply generate_template_ext.
  intros attr [<-|[<-|[<-|[]]]]; vm_compute; reflexivity.
Defined.

(** X14. The template of an order made of two parts is the template of
    the first part, a newline, and the template of the second part, when
    both parts contribute a value; when one part contributes none, it is
    the template of the other part, with no newline added. *)
Theorem generate_template_app (agent_prompt_model : gmap string pyval)
    (order1 order2 : list string) :
  generate_template agent_prompt_model (order1 ++ order2) =
  match generate_template_loop agent_prompt_model order1 [],
        generate_template_loop agent_prompt_model order2 [] with
  | [], _ => generate_template agent_prompt_model order2
  | _ :: _, [] => generate_template agent_prompt_model order1
  | _ :: _, _ :: _ =>
      generate_template agent_prompt_model order1 +:+ newline +:+
      generate_template agent_prompt_model order2
  end.
Proof.
  unfold generate_template.
  rewrite !generate_template_loop_omap. cbn [app].
  rewrite omap_app.
  destruct (omap _ order1) as [|v1 l1]; [reflexivity|].
  destruct (omap _ order2) as [|v2 l2].
  - now rewrite app_nil_r.
  - apply py_join_app; discriminate.
Qed.

(** ** [GenPlotAgent] *)

(** X15. [parse_input] supplies every key that [input_keys] declares, with
    the value the input object gives for it, leaves every other key of
    [agent_input] as it was, and parsing twice is parsing once. *)
Theorem parse_input_supplies_input_keys {V : Type} (get_data : string -> V)
    (agent_input : gmap string V) :
  (forall key, In key GenPlotAgent.input_keys ->
     GenPlotAgent.parse_input get_data agent_input !! key =
     Some (get_data key)) /\
  (forall key, ~ In key GenPlotAgent.input_keys ->
     GenPlotAgent.parse_input get_data agent_input !! key =
     agent_input !! key) /\
  GenPlotAgent.parse_input get_data
    (GenPlotAgent.parse_input get_data agent_input) =
  GenPlotAgent.parse_input get_data agent_input.
Proof.
  unfold GenPlotAgent.parse_input, GenPlotAgent.input_keys.
  split; [|split].
  - intros key [<-|[]]. apply lookup_insert_eq.
  - intros key Hout. apply lookup_insert_ne. intros <-. apply Hout. now left.
  - apply insert_insert_eq.
Qed.

(** ** What the map-reduce summariser hands to its chain *)



Lemma split_text_on_tokens_covers_witness :
  exists chunks,
    split_text_on_tokens 4001 (PStr (text_of_length 4000)) 1000 800 100 =
      Return chunks /\
    covers (text_of_length 4000) (3200 - 400) chunks.
Proof.
  apply (split_text_on_tokens_covers 4001 (text_of_length 4000)
           1000 800 100 3200 400).
  - vm_compute. reflexivity.
  - vm_compute. split; [discriminate | reflexivity].
  - lia.
  - vm_compute. lia.
Defined.

Lemma process_llm_token_truncate_within_budget_witness :
  exists s,
    @process_llm_token (demo_collaborators (char_count_llm 4096 1024)) 4001
      (demo_template 100) (demo_profile None)
      (demo_planner_input (text_of_length 4000)) world0 =
      {| run_outcome := Return tt;
         run_planner_input :=
           <["background" := PStr s]>
             (demo_planner_input (text_of_length 4000));
         run_world :=
           World 2
             [CallTruncate (PStr (text_of_length 4000)) 3072
                (char_count_llm 4096 1024)] |} /\
    String.prefix s (text_of_length 4000) = true /\
    Z.of_nat (String.length s) * 4000 <=
      3072 * Z.of_nat (String.length (text_of_length 4000)).
Proof.
  apply (@process_llm_token_truncate_within_budget
           (demo_collaborators (char_count_llm 4096 1024)) 4001
           (demo_template 100) (demo_profile None)
           (demo_planner_input (text_of_length 4000)) world0
           {| lm_name := Some "demo_llm";
              lm_prompt_processor := Some
                {| pp_type := None; pp_llm := None;
                   pp_summary_prompt_version := None;
                   pp_combine_prompt_version := None |} |}
           (char_count_llm 4096 1024) (char_count_llm 4096 1024)
           (text_of_length 100 +:+ text_of_length 4000) 4100
           eq_refl eq_refl eq_refl
           ltac:(vm_compute; reflexivity) ltac:(vm_compute; reflexivity)
           (text_of_length 4000) 4000 3072 100).
  - vm_compute. reflexivity.
  - reflexivity.
  - vm_compute. reflexivity.
  - vm_compute. reflexivity.
  - vm_compute. reflexivity.
  - vm_compute. split; [discriminate | reflexivity].
  - lia.
  - vm_compute. lia.
  - lia.
  - vm_compute. discriminate.
  - vm_compute. reflexivity.
Defined.

(** ** Rounding from below, and when the result is finite *)

Section RoundingLower.

Local Abbreviation prec := PyFloat.prec.
Local Abbreviation emax := PyFloat.emax.

Lemma Zdigits2_le (m x : Z) :
  0 < m -> m < 2 ^ x -> 0 <= x -> Zdigits2 m <= x.
Proof.
  intros Hm Hlt Hx. pose proof (Zdigits2_bounds m Hm) as [Hlo _].
  pose proof (Zdigits2_pos m Hm) as Hd.
  destruct (Z_le_gt_dec (Zdigits2 m) x) as [Hle|Hgt]; [assumption|].
  exfalso.
  assert (2 ^ x <= 2 ^ (Zdigits2 m - 1)) by (apply Z.pow_le_mono_r; lia).
  lia.
Qed.

Lemma Zdigits2_gt (m x : Z) :
  0 < m -> 2 ^ x <= m -> x < Zdigits2 m.
Proof.
  intros Hm Hge. pose proof (Zdigits2_bounds m Hm) as [_ Hhi].
  pose proof (Zdigits2_pos m Hm) as Hd.
  destruct (Z_lt_ge_dec x (Zdigits2 m)) as [Hlt|Hle]; [assumption|].
  exfalso.
  assert (2 ^ Zdigits2 m <= 2 ^ x) by (apply Z.pow_le_mono_r; lia).
  lia.
Qed.

(** The shift after rounding: a mantissa that was in place before it was
    rounded up by at most one needs at most one more shift, and that shift
    loses nothing of the mantissa before rounding. *)
Lemma shr_fexp_after_rounding (m1 m2 e1 : Z) :
  0 < m1 ->
  fexp prec emax (Zdigits2 m1 + e1) <= e1 ->
  m1 <= m2 <= m1 + 1 ->
  let '(mrs2, e2) := shr_fexp prec emax m2 e1 loc_Exact in
  (fval m1 e1 <= fval (shr_m mrs2) e2)%R /\ 0 < shr_m mrs2 /\
  e1 <= e2 <= e1 + 1.
Proof.
  intros Hm1 Hfexp Hm2. unfold shr_fexp.
  set (k2 := fexp prec emax (Zdigits2 m2 + e1) - e1).
  pose proof (shr_spec (shr_record_of_loc m2 loc_Exact) e1 k2) as Hs.
  destruct (shr (shr_record_of_loc m2 loc_Exact) e1 k2) as [mrs2 e2].
  cbn [shr_record_of_loc shr_m] in Hs. specialize (Hs ltac:(lia)).
  destruct Hs as [Hpos Hneg].
  pose proof (Zdigits2_bounds m1 Hm1) as Hb1.
  pose proof (Zdigits2_bounds m2 ltac:(lia)) as Hb2.
  pose proof (Zdigits2_pos m1 Hm1) as Hd1.
  pose proof (Zdigits2_pos m2 ltac:(lia)) as Hd2.
  assert (Hle : Zdigits2 m2 <= Zdigits2 m1 + 1).
  { apply Zdigits2_le; [lia | | lia].
    rewrite Z.pow_add_r by lia. change (2 ^ 1) with 2. lia. }
  assert (Htop : Zdigits2 m2 = Zdigits2 m1 + 1 -> m2 = m1 + 1 /\ 2 <= m2).
  { intros E. rewrite E in Hb2.
    replace (Zdigits2 m1 + 1 - 1) with (Zdigits2 m1) in Hb2 by lia. lia. }
  assert (Hge : Zdigits2 m1 <= Zdigits2 m2).
  { pose proof (Zdigits2_gt m2 (Zdigits2 m1 - 1) ltac:(lia) ltac:(lia)).
    lia. }
  assert (Hk2 : k2 <= Zdigits2 m2 - Zdigits2 m1)
    by (unfold k2, fexp in *; lia).
  destruct (Z_lt_le_dec 0 k2) as [Hk|Hk].
  - destruct (Hpos Hk) as [-> ->].
    assert (Ek : k2 = 1) by lia.
    destruct (Htop ltac:(lia)) as [Em2 H2]. rewrite Ek in *.
    change (2 ^ 1) with 2.
    assert (Hhalf : m1 <= m2 / 2 * 2 /\ 0 < m2 / 2)
      by (pose proof (Z.div_mod m2 2 ltac:(lia));
          pose proof (Z.mod_pos_bound m2 2 ltac:(lia)); lia).
    split; [|split; lia].
    replace (m2 / 2 * 2) with (m2 / 2 * 2 ^ 1) in Hhalf by reflexivity.
    rewrite <- fval_shift by lia. apply fval_le. lia.
  - destruct (Hneg Hk) as [-> ->]. cbn [shr_m].
    split; [apply fval_le; lia | lia].
Qed.

(** One rounding in the normal range: the result is the finite number
    below, or an infinity when its exponent is too large; the exponent is
    at most one above the larger of the input's own and its canonical one,
    and the value lost is at most the fraction [feps]. *)
Lemma binary_round_aux_lower (m e : Z) (l : location) :
  0 < m ->
  emin prec emax <= Zdigits2 m + e - prec ->
  exists (m3 : positive) (e3 : Z),
    binary_round_aux prec emax false m e l =
      (if e3 <=? emax - prec
       then S754_finite false m3 e3 else S754_infinity false) /\
    e3 <= Z.max (Zdigits2 m + e - prec) e + 1 /\
    (fval m e * (1 - feps) <= fval (Zpos m3) e3)%R.
Proof.
  intros Hm Hnormal. unfold binary_round_aux. unfold shr_fexp at 1.
  set (k := fexp prec emax (Zdigits2 m + e) - e).
  assert (Ek : k = Zdigits2 m - prec) by (unfold k, fexp; lia).
  pose proof (shr_spec (shr_record_of_loc m l) e k) as Hs.
  destruct (shr (shr_record_of_loc m l) e k) as [mrs1 e1].
  rewrite shr_record_of_loc_m in Hs. specialize (Hs ltac:(lia)).
  destruct Hs as [Hpos Hneg].
  pose proof (Zdigits2_bounds m Hm) as Hd.
  pose proof (Zdigits2_pos m Hm) as Hdp.
  assert (Hfirst :
    0 < shr_m mrs1 /\ fexp prec emax (Zdigits2 (shr_m mrs1) + e1) <= e1 /\
    e1 <= Z.max (Zdigits2 m + e - prec) e /\
    (fval m e * (1 - feps) <= fval (shr_m mrs1) e1)%R).
  { destruct (Z_lt_le_dec 0 k) as [Hk|Hk].
    - destruct (Hpos Hk) as [-> ->].
      assert (Hpow : 2 ^ (Zdigits2 m - 1) = 2 ^ k * 2 ^ 52).
      { rewrite <- Z.pow_add_r by lia. f_equal. unfold prec in Ek. lia. }
      assert (Hpow' : 2 ^ Zdigits2 m = 2 ^ k * 2 ^ 53).
      { rewrite <- Z.pow_add_r by lia. f_equal. unfold prec in Ek. lia. }
      assert (H2k : 0 < 2 ^ k) by (apply Z.pow_pos_nonneg; lia).
      assert (Hlo : 2 ^ 52 <= m / 2 ^ k)
        by (apply Z.div_le_lower_bound; lia).
      assert (Hhi : m / 2 ^ k < 2 ^ 53)
        by (apply Z.div_lt_upper_bound; lia).
      assert (Hd1 : Zdigits2 (m / 2 ^ k) <= 53)
        by (apply Zdigits2_le; lia).
      split; [lia|]. split; [unfold fexp, prec in *; lia|].
      split; [unfold prec in *; lia|].
      rewrite <- fval_shift by lia.
      pose proof (Z.div_mod m (2 ^ k) ltac:(lia)) as Hdm.
      pose proof (Z.mod_pos_bound m (2 ^ k) ltac:(lia)) as Hmod.
      assert (Hfloor : m - 2 ^ k <= m / 2 ^ k * 2 ^ k) by lia.
      assert (Hfrac : 2 ^ k * 2 ^ 52 <= m) by lia.
      apply IZR_le in Hfloor, Hfrac.
      rewrite minus_IZR in Hfloor. rewrite mult_IZR in Hfrac.
      change (IZR (2 ^ 52)) with 4503599627370496%R in Hfrac.
      unfold fval. rewrite feps_value.
      pose proof (powerRZ_2_pos e) as He0.
      set (X := IZR (m / 2 ^ k * 2 ^ k)) in *.
      set (P := IZR (2 ^ k)) in *. set (M := IZR m) in *.
      assert (Hmain : (M * (1 - / 4503599627370496) <= X)%R) by lra.
      apply Rmult_le_compat_r with (r := powerRZ 2 e) in Hmain; lra.
    - destruct (Hneg Hk) as [-> ->]. rewrite shr_record_of_loc_m.
      split; [lia|]. split; [fold k; lia|]. split; [lia|].
      pose proof (fval_nonneg m e ltac:(lia)) as Hv.
      pose proof feps_pos as Heps.
      assert (fval m e * feps >= 0)%R by nra. lra. }
  destruct Hfirst as (Hm1 & Hf1 & He1 & Hv1).
  pose proof (round_nearest_even_bounds (shr_m mrs1)
                (loc_of_shr_record mrs1)) as Hrne.
  pose proof (shr_fexp_after_rounding (shr_m mrs1)
                (round_nearest_even (shr_m mrs1) (loc_of_shr_record mrs1))
                e1 Hm1 Hf1 Hrne) as Hsecond.
  destruct (shr_fexp prec emax _ e1 loc_Exact) as [mrs2 e2].
  destruct Hsecond as (Hv2 & Hm2 & He2).
  destruct (shr_m mrs2) as [|p|p]; try lia.
  exists p, e2. split; [reflexivity|]. split; [lia | lra].
Qed.

End RoundingLower.

Section ChunkSizeLower.

Local Abbreviation prec := PyFloat.prec.
Local Abbreviation emax := PyFloat.emax.

Lemma fval_pow2 (k e : Z) : 0 <= k -> fval (2 ^ k) e = powerRZ 2 (k + e).
Proof.
  intros Hk. unfold fval. rewrite IZR_pow2 by assumption.
  symmetry. apply powerRZ_add. exact two_neq_0.
Qed.

Lemma powerRZ_2_le (a b : Z) : a <= b -> (powerRZ 2 a <= powerRZ 2 b)%R.
Proof.
  intros Hab. replace b with (a + (b - a)) by lia.
  rewrite (powerRZ_add 2 a (b - a) two_neq_0).
  rewrite <- (IZR_pow2 (b - a)) by lia.
  assert (H1 : (1 <= IZR (2 ^ (b - a)))%R).
  { apply IZR_le. pose proof (Z.pow_pos_nonneg 2 (b - a)). lia. }
  pose proof (powerRZ_2_pos a). nra.
Qed.

(** A positive number below [2 ^ x] has its digits and its exponent
    below [x]. *)
Lemma fval_lt_pow (m e x : Z) :
  0 < m -> (fval m e < powerRZ 2 x)%R -> Zdigits2 m + e <= x /\ e < x.
Proof.
  intros Hm Hlt.
  pose proof (Zdigits2_bounds m Hm) as [Hlo _].
  pose proof (Zdigits2_pos m Hm) as Hd.
  apply (fval_le _ _ e) in Hlo. rewrite fval_pow2 in Hlo by lia.
  assert (Hx : Zdigits2 m - 1 + e < x).
  { destruct (Z_lt_ge_dec (Zdigits2 m - 1 + e) x) as [H|H]; [assumption|].
    exfalso.
    assert (powerRZ 2 x <= powerRZ 2 (Zdigits2 m - 1 + e))%R
      by (apply powerRZ_2_le; lia).
    lra. }
  lia.
Qed.

(** One rounding of a number in the normal range and below [2 ^ 971]
    gives a finite number, at most the fraction [feps] below. *)
Lemma binary_round_aux_total (m e : Z) (l : location) :
  0 < m ->
  emin prec emax <= Zdigits2 m + e - prec ->
  (fval m e < powerRZ 2 (emax - prec))%R ->
  exists (m3 : positive) (e3 : Z),
    binary_round_aux prec emax false m e l = S754_finite false m3 e3 /\
    (fval m e * (1 - feps) <= fval (Zpos m3) e3)%R.
Proof.
  intros Hm Hnormal Hsmall.
  destruct (binary_round_aux_lower m e l Hm Hnormal)
    as (m3 & e3 & Heq & He3 & Hv).
  destruct (fval_lt_pow m e _ Hm Hsmall) as [Hd He].
  exists m3, e3. split; [|exact Hv].
  rewrite Heq.
  destruct (e3 <=? emax - prec) eqn:E; [reflexivity|].
  apply Z.leb_gt in E. unfold prec, emax, PyFloat.prec, PyFloat.emax in *.
  lia.
Qed.

Lemma IZR_lt_pow2 (r k : Z) :
  0 <= k -> r < 2 ^ k -> (IZR r < powerRZ 2 k)%R.
Proof.
  intros Hk Hr. rewrite <- IZR_pow2 by assumption. now apply IZR_lt.
Qed.

(** [float(r)] for a positive integer below [2 ^ 971]: finite, and within
    the fraction [feps] of [r]. *)
Lemma of_int_total (r : Z) :
  0 < r < 2 ^ 971 ->
  exists (m : positive) (e : Z),
    PyFloat.of_int r = Return (S754_finite false m e) /\
    (IZR r * (1 - feps) <= fval (Zpos m) e <= IZR r * (1 + feps))%R /\
    -52 <= e.
Proof.
  intros [Hr Hr']. destruct r as [|p|p]; try lia.
  assert (Hgoal : exists (m : positive) (e : Z),
            PyFloat.of_int (Zpos p) = Return (S754_finite false m e) /\
            (IZR (Zpos p) * (1 - feps) <= fval (Zpos m) e)%R).
  { unfold PyFloat.of_int. cbn [binary_normalize]. unfold binary_round.
    pose proof (shl_align_spec p 0
                  (fexp prec emax (Zpos (digits2_pos p) + 0))) as Hal.
    destruct (shl_align p 0 _) as [mz ez]. destruct Hal as [Hval Hez].
    assert (Hez' : -52 <= ez).
    { pose proof (digits2_pos_bounds p). unfold fexp, prec in Hez. lia. }
    pose proof (Zdigits2_pos (Zpos mz) ltac:(lia)) as Hdp.
    destruct (binary_round_aux_total (Zpos mz) ez loc_Exact ltac:(lia))
      as (m3 & e3 & Heq & Hv).
    - unfold emin, prec, emax, PyFloat.prec, PyFloat.emax. lia.
    - rewrite Hval, fval_0. apply IZR_lt_pow2; [|exact Hr'].
      unfold prec, emax, PyFloat.prec, PyFloat.emax. lia.
    - rewrite Heq. exists m3, e3. split; [reflexivity|].
      rewrite Hval, fval_0 in Hv. exact Hv. }
  destruct Hgoal as (m & e & Heq & Hlo).
  exists m, e. split; [exact Heq|].
  destruct (of_int_upper (Zpos p) _ ltac:(lia) Heq)
    as [(m' & e' & [= <- <-] & Hup & He)|Hz]; [|discriminate].
  split; [split; assumption | assumption].
Qed.

(** [int(x)] is more than [x - 1]. *)
Lemma to_int_lower (m : positive) (e z : Z) :
  PyFloat.to_int (S754_finite false m e) = Return z ->
  (fval (Zpos m) e < IZR z + 1)%R.
Proof.
  cbn [PyFloat.to_int]. intros [= <-].
  destruct (0 <=? e) eqn:E.
  - apply Z.leb_le in E. rewrite <- (Z.add_0_l e) at 1.
    rewrite <- fval_shift, fval_0 by assumption. lra.
  - apply Z.leb_gt in E.
    pose proof (Z.div_mod (Zpos m) (2 ^ (- e))
                  ltac:(apply Z.pow_nonzero; lia)) as Hdm.
    pose proof (Z.mod_pos_bound (Zpos m) (2 ^ (- e))
                  ltac:(apply Z.pow_pos_nonneg; lia)) as Hmod.
    assert (Hlt : Zpos m < (Zpos m / 2 ^ (- e) + 1) * 2 ^ (- e)) by lia.
    apply IZR_lt in Hlt.
    pose proof (powerRZ_2_pos e) as He0.
    assert (Hv : (fval (Zpos m) e <
                  fval ((Zpos m / 2 ^ (- e) + 1) * 2 ^ (- e)) e)%R)
      by (unfold fval; apply Rmult_lt_compat_r; assumption).
    rewrite fval_shift in Hv by lia.
    replace (e + - e) with 0 in Hv by lia.
    rewrite fval_0, plus_IZR in Hv. exact Hv.
Qed.

(** [a / b] for positive integers: finite, at most the fraction
    [2 * feps] below the quotient and at most [feps] above. *)
Lemma int_truediv_total (a b : Z) :
  0 < a < 2 ^ 971 -> 0 < b < 2 ^ 900 ->
  exists (m : positive) (e : Z),
    PyFloat.int_truediv a b = Return (S754_finite false m e) /\
    (IZR a * (1 - 2 * feps) <= fval (Zpos m) e * IZR b <=
     IZR a * (1 + feps))%R /\
    -953 <= e.
Proof.
  intros [Ha Ha'] [Hb Hb900].
  assert (Hgoal : exists (m : positive) (e : Z),
            PyFloat.int_truediv a b = Return (S754_finite false m e) /\
            (IZR a * (1 - 2 * feps) <= fval (Zpos m) e * IZR b)%R).
  { destruct a as [|pa|pa]; try lia. destruct b as [|pb|pb]; try lia.
    unfold PyFloat.int_truediv. cbn [Z.eqb PyFloat.raw_of_int SFdiv].
    unfold SFdiv_core_binary.
    set (d1 := Zdigits2 (Zpos pa)). set (d2 := Zdigits2 (Zpos pb)).
    pose proof (Zdigits2_bounds (Zpos pa) ltac:(lia)) as Hd1.
    fold d1 in Hd1.
    pose proof (Zdigits2_bounds (Zpos pb) ltac:(lia)) as Hd2.
    fold d2 in Hd2.
    pose proof (Zdigits2_pos (Zpos pa) ltac:(lia)) as Hd1p.
    fold d1 in Hd1p.
    pose proof (Zdigits2_pos (Zpos pb) ltac:(lia)) as Hd2p.
    fold d2 in Hd2p.
    assert (Hd2' : d2 <= 900).
    { assert (Hlt : 2 ^ (d2 - 1) < 2 ^ 900) by lia.
      apply Z.pow_lt_mono_r_iff in Hlt; lia. }
    set (e' := Z.min (fexp prec emax (d1 + 0 - (d2 + 0))) (0 - 0)).
    assert (He' : e' = Z.min (d1 - d2 - 53) 0)
      by (unfold e', fexp, emin, prec, emax; lia).
    set (s := 0 - 0 - e').
    set (m' := match s with
               | 0 => Zpos pa
               | Zpos _ => Z.shiftl (Zpos pa) s
               | Zneg _ => 0
               end).
    assert (Hs : s = - e') by (unfold s; lia).
    assert (Hm' : m' = Zpos pa * 2 ^ s).
    { unfold m'. clearbody s. destruct s as [|p|p]; try lia.
      rewrite Z.shiftl_mul_pow2 by lia. reflexivity. }
    pose proof (Z_div_mod m' (Zpos pb) ltac:(lia)) as Hdiv.
    destruct (Z.div_eucl m' (Zpos pb)) as [q r]. destruct Hdiv as [Hq Hr].
    assert (Hlow : Zpos pb * 2 ^ 52 <= m').
    { rewrite Hm'. destruct (Z_le_gt_dec (d1 - d2 - 53) 0) as [Hc|Hc].
      - assert (Hs' : s = 53 + d2 - d1) by lia.
        assert (2 ^ (d1 - 1) * 2 ^ s = 2 ^ d2 * 2 ^ 52).
        { rewrite <- !Z.pow_add_r by lia. f_equal. lia. }
        nia.
      - assert (Hs' : s = 0) by lia. rewrite Hs', Z.mul_1_r.
        assert (2 ^ d2 * 2 ^ 52 <= 2 ^ (d1 - 1)).
        { rewrite <- Z.pow_add_r by lia. apply Z.pow_le_mono_r; lia. }
        nia. }
    assert (Hq52 : 2 ^ 52 <= q) by nia.
    pose proof (Zdigits2_pos q ltac:(lia)) as Hdq.
    (* the exact quotient, in the reals *)
    assert (Hexact : (fval q e' * IZR (Zpos pb) + fval r e' =
                      IZR (Zpos pa))%R).
    { assert (Hfv : fval (Zpos pa * 2 ^ s) e' = IZR (Zpos pa)).
      { rewrite fval_shift by lia.
        replace (e' + s) with 0 by lia. apply fval_0. }
      rewrite <- Hfv, <- Hm', Hq. unfold fval.
      rewrite plus_IZR, mult_IZR. ring. }
    assert (Hrem : (fval r e' * 4503599627370496 <=
                    fval q e' * IZR (Zpos pb))%R).
    { assert (Hle : r * 2 ^ 52 <= q * Zpos pb) by nia.
      apply IZR_le in Hle. rewrite !mult_IZR in Hle.
      change (IZR (2 ^ 52)) with 4503599627370496%R in Hle.
      pose proof (powerRZ_2_pos e') as He0. unfold fval.
      apply Rmult_le_compat_r with (r := powerRZ 2 e') in Hle; lra. }
    assert (Hr0 : (0 <= fval r e')%R) by (apply fval_nonneg; lia).
    assert (Hb1 : (1 <= IZR (Zpos pb))%R) by (apply IZR_le; lia).
    assert (Hq0 : (0 <= fval q e')%R) by (apply fval_nonneg; lia).
    destruct (binary_round_aux_total q e' (new_location (Zpos pb) r)
                ltac:(lia)) as (m3 & e3 & Heq & Hv).
    - unfold emin, prec, emax, PyFloat.prec, PyFloat.emax. lia.
    - assert (Ha971 : (IZR (Zpos pa) < powerRZ 2 971)%R)
        by (apply IZR_lt_pow2; lia).
      change (emax - prec) with 971. nra.
    - cbn [xorb]. rewrite Heq. exists m3, e3. split; [reflexivity|].
      pose proof feps_pos as Heps. pose proof feps_value as Hev.
      assert (Hpa : (0 < IZR (Zpos pa))%R) by (apply IZR_lt; lia).
      assert (H1 : (IZR (Zpos pa) * (1 - feps) <=
                    fval q e' * IZR (Zpos pb))%R)
        by (rewrite Hev; lra).
      assert (H2 : (fval q e' * (1 - feps) * IZR (Zpos pb) <=
                    fval (Zpos m3) e3 * IZR (Zpos pb))%R)
        by (apply Rmult_le_compat_r; lra).
      assert (Heps1 : (feps < 1)%R) by (rewrite Hev; lra).
      nra. }
  destruct Hgoal as (m & e & Heq & Hlo).
  exists m, e. split; [exact Heq|].
  destruct (int_truediv_upper a b _ Ha (conj Hb Hb900) Heq)
    as [(m' & e' & [= <- <-] & Hup & He)|Hz]; [|discriminate].
  split; [split; assumption | assumption].
Qed.

End ChunkSizeLower.

Section ChunkSizesTotal.

Local Abbreviation prec := PyFloat.prec.
Local Abbreviation emax := PyFloat.emax.

(** [int(r * (a / b))] is computed without an error and is the exact
    quotient [r * a / b] rounded down, or one less. *)
Lemma scaled_chars_total (a b r : Z) (cpt : PyFloat.t) :
  0 < a < 2 ^ 971 -> 0 < b < 2 ^ 900 -> 0 <= r -> r * a < 2 ^ 50 ->
  PyFloat.int_truediv a b = Return cpt ->
  exists size,
    scaled_chars r cpt = Return size /\
    0 <= size /\ size * b <= r * a <= (size + 1) * b.
Proof.
  intros Ha Hb Hr Hra Hdiv.
  assert (Hgoal : exists size,
            scaled_chars r cpt = Return size /\ r * a <= (size + 1) * b).
  { destruct (int_truediv_total a b Ha Hb)
      as (mc & ec & Hdiv' & [Hclo Hcup] & Hec).
    rewrite Hdiv in Hdiv'. injection Hdiv' as ->.
    unfold scaled_chars, PyFloat.int_mul.
    destruct (Z.eq_dec r 0) as [->|Hr0].
    - exists 0. split; [reflexivity | lia].
    - assert (Hr971 : r < 2 ^ 971).
      { assert (r < 2 ^ 50) by nia.
        assert (2 ^ 50 < 2 ^ 971) by (apply Z.pow_lt_mono_r; lia). lia. }
      destruct (of_int_total r ltac:(lia))
        as (mr & er & -> & [Hrlo Hrup] & Her).
      cbn [obind]. unfold PyFloat.mul. cbn [SFmul xorb].
      pose proof feps_pos as Heps. pose proof feps_value as Hev.
      assert (Hb0 : (1 <= IZR b)%R) by (apply IZR_le; lia).
      assert (Ha0 : (1 <= IZR a)%R) by (apply IZR_le; lia).
      assert (Hr0' : (1 <= IZR r)%R) by (apply IZR_le; lia).
      assert (Hvr0 : (0 <= fval (Zpos mr) er)%R)
        by (apply fval_nonneg; lia).
      assert (Hvc0 : (0 <= fval (Zpos mc) ec)%R)
        by (apply fval_nonneg; lia).
      assert (Hra' : (IZR r * IZR a <= 1125899906842623)%R).
      { rewrite <- mult_IZR. apply IZR_le.
        change (2 ^ 50) with 1125899906842624 in Hra. lia. }
      pose proof (Zdigits2_pos (Zpos (mr * mc)) ltac:(lia)) as Hdp.
      (* the product before rounding, times [b] *)
      assert (Hprod_up :
        (fval (Zpos mr) er * (fval (Zpos mc) ec * IZR b) <=
         IZR r * (1 + feps) * (IZR a * (1 + feps)))%R).
      { apply Rmult_le_compat; try lra. apply Rmult_le_pos; lra. }
      assert (Hprod_lo :
        (IZR r * (1 - feps) * (IZR a * (1 - 2 * feps)) <=
         fval (Zpos mr) er * (fval (Zpos mc) ec * IZR b))%R).
      { apply Rmult_le_compat; try lra.
        - apply Rmult_le_pos; [lra | rewrite Hev; lra].
        - apply Rmult_le_pos; [lra | rewrite Hev; lra]. }
      destruct (binary_round_aux_total (Zpos (mr * mc)) (er + ec)
                  loc_Exact ltac:(lia)) as (m3 & e3 & Heq & Hv).
      + unfold emin, prec, emax, PyFloat.prec, PyFloat.emax. lia.
      + rewrite Pos2Z.inj_mul, fval_mul.
        assert (H971 : (powerRZ 2 60 <= powerRZ 2 (emax - prec))%R)
          by (apply powerRZ_2_le;
              unfold prec, emax, PyFloat.prec, PyFloat.emax; lia).
        rewrite <- (IZR_pow2 60) in H971 by lia.
        change (IZR (2 ^ 60)) with 1152921504606846976%R in H971.
        assert (Hx : (fval (Zpos mr) er * fval (Zpos mc) ec <=
                      fval (Zpos mr) er * (fval (Zpos mc) ec * IZR b))%R).
        { rewrite <- (Rmult_1_r (fval (Zpos mr) er * fval (Zpos mc) ec))
            at 1.
          rewrite Rmult_assoc.
          apply Rmult_le_compat_l; [assumption|].
          apply Rmult_le_compat_l; assumption. }
        assert (Hy : (IZR r * (1 + feps) * (IZR a * (1 + feps)) <=
                      1125899906842623 * 4)%R).
        { replace (IZR r * (1 + feps) * (IZR a * (1 + feps)))%R
            with (IZR r * IZR a * ((1 + feps) * (1 + feps)))%R by ring.
          assert (((1 + feps) * (1 + feps) <= 4)%R)
            by (rewrite Hev; lra).
          assert (0 <= IZR r * IZR a)%R by nra.
          nra. }
        lra.
      + rewrite Heq. cbn [PyFloat.to_int].
        eexists. split; [reflexivity|].
        pose proof (to_int_lower m3 e3 _ eq_refl) as Hz.
        cbn [PyFloat.to_int] in Hz.
        set (z := if 0 <=? e3 then Z.pos m3 * 2 ^ e3
                  else Z.pos m3 / 2 ^ (- e3)) in *.
        rewrite Pos2Z.inj_mul, fval_mul in Hv.
        set (X := (IZR r * IZR a)%R) in *.
        assert (HX : (1 <= X)%R) by (unfold X; nra).
        assert (Hlow : (X * (1 - 4 * feps) <=
                        IZR r * (1 - feps) * (IZR a * (1 - 2 * feps)) *
                        (1 - feps))%R).
        { replace (IZR r * (1 - feps) * (IZR a * (1 - 2 * feps)) *
                   (1 - feps))%R
            with (X * ((1 - feps) * (1 - 2 * feps) * (1 - feps)))%R
            by (unfold X; ring).
          apply Rmult_le_compat_l; [lra|]. rewrite Hev. lra. }
        assert (Hvb : (IZR r * (1 - feps) * (IZR a * (1 - 2 * feps)) *
                       (1 - feps) <= fval (Zpos m3) e3 * IZR b)%R).
        { eapply Rle_trans;
            [apply Rmult_le_compat_r; [rewrite Hev; lra | exact Hprod_lo]|].
          replace (fval (Zpos mr) er * (fval (Zpos mc) ec * IZR b) *
                   (1 - feps))%R
            with (fval (Zpos mr) er * fval (Zpos mc) ec * (1 - feps) *
                  IZR b)%R by ring.
          apply Rmult_le_compat_r; lra. }
        assert (Hzb : (fval (Zpos m3) e3 * IZR b < (IZR z + 1) * IZR b)%R)
          by (apply Rmult_lt_compat_r; lra).
        assert (H4 : (X * (4 * feps) < 1)%R) by (rewrite Hev; lra).
        assert (Hfin : (X - 1 < (IZR z + 1) * IZR b)%R) by lra.
        unfold X in Hfin.
        rewrite <- mult_IZR, <- minus_IZR, <- plus_IZR, <- mult_IZR
          in Hfin.
        apply lt_IZR in Hfin. lia. }
  destruct Hgoal as (size & Heq & Hlo).
  exists size. split; [exact Heq|].
  destruct (Z.eq_dec r 0) as [->|Hr0].
  - destruct (int_truediv_total a b Ha Hb) as (mc & ec & Hdiv' & _).
    rewrite Hdiv in Hdiv'. injection Hdiv' as ->.
    cbv in Heq. injection Heq as <-. lia.
  - destruct (scaled_chars_upper a b r cpt size ltac:(lia) Hb Hr Hra
                Hdiv Heq) as [H0 Hup].
    lia.
Qed.

(** The two sizes of the chunker are computed without an error, and each
    is the exact quotient rounded down, or one less. *)
Lemma chunk_char_sizes_total (n tok cs co : Z) :
  0 < n < 2 ^ 971 -> 0 < tok < 2 ^ 900 ->
  0 <= cs -> cs * n < 2 ^ 50 -> 0 <= co -> co * n < 2 ^ 50 ->
  exists size ov,
    chunk_char_sizes n tok cs co = Return (size, ov) /\
    (0 <= size /\ size * tok <= cs * n <= (size + 1) * tok) /\
    (0 <= ov /\ ov * tok <= co * n <= (ov + 1) * tok).
Proof.
  intros Hn Htok Hcs Hcsn Hco Hcon.
  destruct (int_truediv_total n tok Hn Htok) as (m & e & Hdiv & _).
  destruct (scaled_chars_total n tok cs _ Hn Htok Hcs Hcsn Hdiv)
    as (size & Hsize & Hsb).
  destruct (scaled_chars_total n tok co _ Hn Htok Hco Hcon Hdiv)
    as (ov & Hov & Hob).
  exists size, ov. split; [|split; assumption].
  unfold chunk_char_sizes. rewrite Hdiv. cbn [obind].
  rewrite Hsize. cbn [obind]. rewrite Hov. reflexivity.
Qed.

End ChunkSizesTotal.

(** ** Arithmetic of the two sizes *)

(** A size parameter that exceeds the overlap parameter by two tokens'
    worth of characters gives a computed size above the computed
    overlap. *)
Lemma sizes_step (n tok cs co size ov : Z) :
  0 < tok -> 0 <= n ->
  2 * tok <= (cs - co) * n ->
  cs * n <= (size + 1) * tok ->
  ov * tok <= co * n ->
  ov < size.
Proof.
  intros Htok Hn Hgap Hs Ho.
  apply (Z.mul_lt_mono_pos_r tok); lia.
Qed.

(** An overlap parameter below the estimate gives a computed overlap
    shorter than the text. *)
Lemma overlap_short (n tok co ov : Z) :
  0 < n -> 0 < tok -> co < tok -> ov * tok <= co * n -> ov < n.
Proof.
  intros Hn Htok Hco Ho.
  assert (Hlt : co * n < tok * n) by (apply Z.mul_lt_mono_pos_r; lia).
  apply (Z.mul_lt_mono_pos_r tok); lia.
Qed.

(** The gap between the parameters makes the text non-empty and the size
    parameter the larger one. *)
Lemma gap_positive (n tok cs co : Z) :
  0 < tok -> 0 <= n -> 2 * tok <= (cs - co) * n -> 0 < n /\ co < cs.
Proof.
  intros Htok Hn Hgap.
  destruct (Z.eq_dec n 0) as [->|Hne]; [lia|].
  split; [lia|].
  destruct (Z_lt_ge_dec co cs) as [H|H]; [assumption|].
  assert (0 <= (co - cs) * n) by (apply Z.mul_nonneg_nonneg; lia).
  lia.
Qed.

(** ** The chunker and the truncation, from the inputs alone *)

(** X19. The sizes in characters are computed without an error and are
    the exact quotients rounded down, or one less when the division is
    exact: for a text of [n] characters ([0 < n < 2 ^ 50]), a positive
    token estimate below [2 ^ 900] and parameters that are not negative
    with [chunk_size * n] and [chunk_overlap * n] below [2 ^ 50],
    [chunk_char_size] is [chunk_size * n // text_token], or one less than
    that when [text_token] divides [chunk_size * n]; the same holds for
    [chunk_char_overlap]. *)
Theorem chunk_char_sizes_floor (n text_token chunk_size chunk_overlap : Z) :
  0 < n < 2 ^ 50 -> 0 < text_token < 2 ^ 900 ->
  0 <= chunk_size -> chunk_size * n < 2 ^ 50 ->
  0 <= chunk_overlap -> chunk_overlap * n < 2 ^ 50 ->
  exists size ov,
    chunk_char_sizes n text_token chunk_size chunk_overlap =
      Return (size, ov) /\
    (size = chunk_size * n / text_token \/
     size = chunk_size * n / text_token - 1 /\
     (chunk_size * n) mod text_token = 0) /\
    (ov = chunk_overlap * n / text_token \/
     ov = chunk_overlap * n / text_token - 1 /\
     (chunk_overlap * n) mod text_token = 0).
Proof.
  intros Hn Htok Hcs Hcsn Hco Hcon.
  assert (Hn' : 0 < n < 2 ^ 971).
  { assert (2 ^ 50 < 2 ^ 971) by (apply Z.pow_lt_mono_r; lia). lia. }
  destruct (chunk_char_sizes_total n text_token chunk_size chunk_overlap
              Hn' Htok Hcs Hcsn Hco Hcon)
    as (size & ov & Heq & (_ & Hs) & (_ & Ho)).
  exists size, ov. split; [exact Heq|].
  assert (Hfloor : forall x q : Z,
            q * text_token <= x <= (q + 1) * text_token ->
            q = x / text_token \/
            q = x / text_token - 1 /\ x mod text_token = 0).
  { intros x q Hq.
    pose proof (Z.div_mod x text_token ltac:(lia)) as Hdm.
    pose proof (Z.mod_pos_bound x text_token ltac:(lia)) as Hmod.
    assert (Hcases : x / text_token = q \/ x / text_token = q + 1)
      by (hide_big; nia).
    destruct Hcases as [E|E]; [left; lia|].
    right. split; [lia|]. hide_big; nia. }
  split; apply Hfloor; assumption.
Qed.

Lemma chunk_char_sizes_floor_witness :
  exists size ov,
    chunk_char_sizes 4000 1000 800 100 = Return (size, ov) /\
    (size = 800 * 4000 / 1000 \/
     size = 800 * 4000 / 1000 - 1 /\ (800 * 4000) mod 1000 = 0) /\
    (ov = 100 * 4000 / 1000 \/
     ov = 100 * 4000 / 1000 - 1 /\ (100 * 4000) mod 1000 = 0).
Proof.
  apply (chunk_char_sizes_floor 4000 1000 800 100); vm_compute;
    first [reflexivity | discriminate | split; reflexivity].
Defined.

(** The round trip of the loop started as the chunker starts it. *)
Lemma chunk_loop_unsplit_from_start (text : string) (size ov : Z)
    (fuel : nat) (chunks : list string) :
  0 <= ov < Z.of_nat (String.length text) ->
  ov < size ->
  chunk_loop fuel text size ov 0 [] = Return chunks ->
  unsplit (Z.to_nat ov) chunks = text.
Proof.
  intros Hov Hstep Hr.
  destruct fuel as [|fuel]; [discriminate|].
  rewrite chunk_loop_step in Hr by lia.
  refine (chunk_loop_unsplit text size ov ltac:(lia) Hstep fuel _ _ chunks
            _ _ _ Hr).
  - discriminate.
  - cbn [app length]. lia.
  - cbn [app unsplit fold_left].
    destruct (emitted_chunk_span text size ov ltac:(lia) Hstep 0
                ltac:(lia)) as [Heq Hlen].
    rewrite Heq. cbn [Z.to_nat].
    rewrite (substring_clip text 0 (Z.to_nat (0 + (size - ov) + ov))).
    f_equal. lia.
Qed.

(** X20. The chunker works on sane inputs: for a positive token estimate
    below [2 ^ 900], an overlap parameter that is not negative and below
    the estimate, [chunk_size * len(text)] below [2 ^ 50], and a size
    parameter that exceeds the overlap parameter by at least two tokens'
    worth of characters ([2 * text_token <= (chunk_size - chunk_overlap) *
    len(text)]), the sizes are computed without an error, the step is
    positive, the call returns within [len(text) + 1] evaluations of the
    loop condition, there is at least one chunk, and the chunks put
    together without their overlaps are the text. *)
Theorem split_text_on_tokens_total (fuel : nat) (text : string)
    (text_token chunk_size chunk_overlap : Z) :
  0 < text_token < 2 ^ 900 ->
  0 <= chunk_overlap < text_token ->
  chunk_size * Z.of_nat (String.length text) < 2 ^ 50 ->
  2 * text_token <=
    (chunk_size - chunk_overlap) * Z.of_nat (String.length text) ->
  (String.length text < fuel)%nat ->
  exists size ov chunks,
    chunk_char_sizes (Z.of_nat (String.length text)) text_token
      chunk_size chunk_overlap = Return (size, ov) /\
    0 <= ov < size /\
    split_text_on_tokens fuel (PStr text) text_token chunk_size
      chunk_overlap = Return chunks /\
    chunks <> [] /\
    unsplit (Z.to_nat ov) chunks = text.
Proof.
  intros Htok Hco Hcsn Hgap Hfuel.
  set (n := Z.of_nat (String.length text)) in *.
  assert (Hnn : 0 <= n) by (unfold n; lia).
  destruct (gap_positive n text_token chunk_size chunk_overlap
              ltac:(lia) Hnn Hgap) as [Hn0 Hcs].
  assert (Hn50 : n < 2 ^ 50) by (clear - Hcsn Hcs Hco Hn0; nia).
  assert (Hcon : chunk_overlap * n < 2 ^ 50)
    by (clear - Hcsn Hcs Hco Hn0; nia).
  assert (Hn' : 0 < n < 2 ^ 971).
  { assert (2 ^ 50 < 2 ^ 971) by (apply Z.pow_lt_mono_r; lia). lia. }
  destruct (chunk_char_sizes_total n text_token chunk_size chunk_overlap
              Hn' Htok ltac:(lia) Hcsn ltac:(lia) Hcon)
    as (size & ov & Heq & (Hs0 & Hs) & (Ho0 & Ho)).
  assert (Hstep : ov < size)
    by (apply (sizes_step n text_token chunk_size chunk_overlap); lia).
  assert (Hshort : ov < n)
    by (apply (overlap_short n text_token chunk_overlap); lia).
  exists size, ov.
  rewrite (split_text_on_tokens_loop fuel text _ _ _ _ _ Heq).
  destruct (chunk_loop_terminates text size ov fuel 0 [] Hstep)
    as [chunks Hr]; [fold n; lia|].
  exists chunks. split; [exact Heq|]. split; [lia|].
  split; [exact Hr|].
  pose proof (chunk_loop_unsplit_from_start text size ov fuel chunks
                ltac:(fold n; lia) Hstep Hr) as Hun.
  split; [|exact Hun].
  intros ->. cbn in Hun. subst text. cbn in n. lia.
Qed.

Lemma split_text_on_tokens_total_witness :
  exists size ov chunks,
    chunk_char_sizes (Z.of_nat (String.length (text_of_length 4000))) 1000
      800 100 = Return (size, ov) /\
    0 <= ov < size /\
    split_text_on_tokens 4001 (PStr (text_of_length 4000)) 1000 800 100 =
      Return chunks /\
    chunks <> [] /\
    unsplit (Z.to_nat ov) chunks = text_of_length 4000.
Proof.
  apply (split_text_on_tokens_total 4001 (text_of_length 4000) 1000 800 100).
  - vm_compute. split; reflexivity.
  - lia.
  - vm_compute. reflexivity.
  - vm_compute. discriminate.
  - vm_compute. lia.
Defined.

(** X21. A content that fits is returned whole: when the estimate of the
    content is more than 100 tokens (the default overlap) and leaves one
    character's worth of tokens below the limit
    ([(len(content) + 1) * tok <= token_length * len(content)]),
    [truncate_content] returns the content itself, after one estimator
    call. *)
Theorem truncate_content_fitting (fuel : nat) (content : string)
    (token_length : Z) (agent_llm : LLM) (w : world) (tok : Z) :
  get_num_tokens agent_llm (estimator_calls w) (PStr content) = Return tok ->
  100 < tok < 2 ^ 900 ->
  (Z.of_nat (String.length content) + 1) * tok <=
    token_length * Z.of_nat (String.length content) ->
  token_length * Z.of_nat (String.length content) < 2 ^ 50 ->
  (String.length content < fuel)%nat ->
  truncate_content fuel (PStr content) token_length agent_llm w =
  (Return content,
   World (S (estimator_calls w))
     (strategy_calls w ++
      [CallTruncate (PStr content) token_length agent_llm])).
Proof.
  intros Hest Htok Hfit Hprod Hfuel.
  set (n := Z.of_nat (String.length content)) in *.
  assert (Hnn : 0 <= n) by (unfold n; lia).
  assert (Htok0 : 100 < tok) by lia.
  assert (Hn0 : 0 < n).
  { destruct (Z.eq_dec n 0) as [E|E]; [|lia].
    rewrite E, Z.mul_0_r in *. lia. }
  assert (Htl : tok < token_length) by (clear - Hfit Hn0 Htok0; nia).
  assert (H100 : 100 * n < 2 ^ 50) by (clear - Hprod Htl Htok0 Hn0; nia).
  assert (Hn' : 0 < n < 2 ^ 971).
  { assert (2 ^ 50 < 2 ^ 971) by (apply Z.pow_lt_mono_r; lia). lia. }
  destruct (chunk_char_sizes_total n tok token_length
              default_chunk_overlap Hn' ltac:(lia) ltac:(lia) Hprod
              ltac:(unfold default_chunk_overlap; lia)
              ltac:(unfold default_chunk_overlap; lia))
    as (size & ov & Heq & (Hs0 & Hs) & (Ho0 & Ho)).
  unfold default_chunk_overlap in Ho.
  assert (Hsize : n <= size) by (clear - Hs Hfit Htok0 Hn0; nia).
  assert (Hov : ov < n) by (apply (overlap_short n tok 100); lia).
  rewrite (truncate_content_first_attempt fuel content token_length
             agent_llm w tok size ov Hest Heq ltac:(fold n; lia)
             ltac:(lia) Hfuel).
  fold n. rewrite Z.min_r by lia. unfold n. rewrite Nat2Z.id.
  rewrite substring_all. reflexivity.
Qed.

Lemma truncate_content_fitting_witness :
  truncate_content 1001 (PStr (text_of_length 1000)) 3072
    (constant_llm 250 4096 1024) world0 =
  (Return (text_of_length 1000),
   World 1 ([] ++ [CallTruncate (PStr (text_of_length 1000)) 3072
                     (constant_llm 250 4096 1024)])).
Proof.
  apply (truncate_content_fitting 1001 (text_of_length 1000) 3072
           (constant_llm 250 4096 1024) world0 250).
  - reflexivity.
  - vm_compute. split; reflexivity.
  - vm_compute. discriminate.
  - vm_compute. reflexivity.
  - vm_compute. lia.
Defined.



(** ** The empty text *)

Lemma scaled_chars_zero (r : Z) (s : bool) :
  0 <= r < 2 ^ 971 -> scaled_chars r (S754_zero s) = Return 0.
Proof.
  intros [Hr0 Hr]. unfold scaled_chars, PyFloat.int_mul.
  destruct (Z.eq_dec r 0) as [->|Hne]; [reflexivity|].
  destruct (of_int_total r ltac:(lia)) as (m & e & -> & _).
  reflexivity.
Qed.

Lemma int_truediv_zero (b : Z) :
  b <> 0 -> exists s, PyFloat.int_truediv 0 b = Return (S754_zero s).
Proof.
  intros Hb. unfold PyFloat.int_truediv.
  destruct b as [|p|p]; [congruence | |]; cbn; eauto.
Qed.

(** X23. An empty text has no chunks: for a token estimate other than 0
    and parameters from 0 to below [2 ^ 900], the chunker computes the
    sizes 0 and 0 and returns the empty list without entering its loop;
    [truncate_content] on an empty content therefore raises [IndexError]
    at [[0]] after one estimator call. *)
Theorem split_text_on_tokens_empty_text (fuel : nat)
    (text_token chunk_size chunk_overlap : Z) :
  text_token <> 0 ->
  0 <= chunk_size < 2 ^ 900 ->
  0 <= chunk_overlap < 2 ^ 900 ->
  chunk_char_sizes 0 text_token chunk_size chunk_overlap = Return (0, 0) /\
  split_text_on_tokens (S fuel) (PStr "") text_token chunk_size
    chunk_overlap = Return [] /\
  (forall (agent_llm : LLM) (w : world),
     get_num_tokens agent_llm (estimator_calls w) (PStr "") =
       Return text_token ->
     truncate_content (S fuel) (PStr "") chunk_size agent_llm w =
     (Raise (Exn IndexError "list index out of range"),
      World (S (estimator_calls w))
        (strategy_calls w ++
         [CallTruncate (PStr "") chunk_size agent_llm]))).
Proof.
  intros Htok Hcs Hco.
  assert (H971 : 2 ^ 900 < 2 ^ 971) by (apply Z.pow_lt_mono_r; lia).
  assert (Hsizes : forall co, 0 <= co < 2 ^ 900 ->
    chunk_char_sizes 0 text_token chunk_size co = Return (0, 0)).
  { intros co Hco'. unfold chunk_char_sizes.
    destruct (int_truediv_zero text_token Htok) as [s ->]. cbn [obind].
    rewrite !scaled_chars_zero by lia. reflexivity. }
  assert (Hsplit : forall co, 0 <= co < 2 ^ 900 ->
    split_text_on_tokens (S fuel) (PStr "") text_token chunk_size co =
    Return []).
  { intros co Hco'.
    rewrite (split_text_on_tokens_loop (S fuel) "" _ _ _ 0 0
               (Hsizes co Hco')).
    reflexivity. }
  split; [exact (Hsizes _ Hco)|]. split; [exact (Hsplit _ Hco)|].
  intros agent_llm w Hest.
  unfold truncate_content, record_call, split_texts, try_except, bind.
  cbn [split_texts_loop]. unfold bind, call_get_num_tokens, lift.
  cbn [estimator_calls strategy_calls]. rewrite Hest.
  rewrite Hsplit by (unfold default_chunk_overlap; lia).
  reflexivity.
Qed.

Lemma split_text_on_tokens_empty_text_witness :
  split_text_on_tokens 1 (PStr "") 7 800 100 = Return [].
Proof.
  refine (proj1 (proj2 (split_text_on_tokens_empty_text 0 7 800 100
                          _ _ _))).
  - discriminate.
  - vm_compute. split; [discriminate | reflexivity].
  - vm_compute. split; [discriminate | reflexivity].
Defined.

(** X24. What [truncate_content] keeps: for a content estimated at more
    than 100 tokens (and fewer than [2 ^ 900]), with
    [token_length * len(content)] below [2 ^ 50] and a token limit that
    exceeds the default overlap by at least two tokens' worth of
    characters ([2 * tok <= (token_length - 100) * len(content)]), the
    call returns after one estimator call; the result is a prefix of the
    content that is within the limit at the measured ratio
    ([len(s) * tok <= token_length * len(content)]) and is as long as the
    limit allows up to one character: it is the whole content, or one
    more character would reach or pass the limit. *)
Theorem truncate_content_keeps (fuel : nat) (content : string)
    (token_length : Z) (agent_llm : LLM) (w : world) (tok : Z) :
  get_num_tokens agent_llm (estimator_calls w) (PStr content) = Return tok ->
  100 < tok < 2 ^ 900 ->
  token_length * Z.of_nat (String.length content) < 2 ^ 50 ->
  2 * tok <= (token_length - 100) * Z.of_nat (String.length content) ->
  (String.length content < fuel)%nat ->
  exists s,
    truncate_content fuel (PStr content) token_length agent_llm w =
      (Return s,
       World (S (estimator_calls w))
         (strategy_calls w ++
          [CallTruncate (PStr content) token_length agent_llm])) /\
    String.prefix s content = true /\
    Z.of_nat (String.length s) * tok <=
      token_length * Z.of_nat (String.length content) /\
    (s = content \/
     token_length * Z.of_nat (String.length content) <=
       (Z.of_nat (String.length s) + 1) * tok).
Proof.
  intros Hest Htok Hprod Hgap Hfuel.
  set (n := Z.of_nat (String.length content)) in *.
  assert (Hnn : 0 <= n) by (unfold n; lia).
  assert (Htok0 : 100 < tok) by lia.
  destruct (gap_positive n tok token_length 100 ltac:(lia) Hnn Hgap)
    as [Hn0 Htl].
  assert (H100 : 100 * n < 2 ^ 50) by (clear - Hprod Htl Hn0; nia).
  assert (Hn' : 0 < n < 2 ^ 971).
  { assert (2 ^ 50 < 2 ^ 971) by (apply Z.pow_lt_mono_r; lia). lia. }
  destruct (chunk_char_sizes_total n tok token_length
              default_chunk_overlap Hn' ltac:(lia) ltac:(lia) Hprod
              ltac:(unfold default_chunk_overlap; lia)
              ltac:(unfold default_chunk_overlap; lia))
    as (size & ov & Heq & (Hs0 & Hs) & (Ho0 & Ho)).
  unfold default_chunk_overlap in Ho.
  assert (Hstep : ov < size)
    by (apply (sizes_step n tok token_length 100); lia).
  assert (Hov : ov < n) by (apply (overlap_short n tok 100); lia).
  assert (Hlen :
    Z.of_nat (String.length
                (substring 0 (Z.to_nat (Z.min size n)) content)) =
    Z.min size n).
  { rewrite length_substring. unfold n. lia. }
  eexists. split; [|split; [|split]].
  - apply (truncate_content_first_attempt fuel content token_length
             agent_llm w tok size ov Hest Heq ltac:(fold n; lia)
             Hstep Hfuel).
  - apply prefix_substring.
  - fold n. rewrite Hlen.
    assert (Hmin : Z.min size n <= size) by lia.
    clear - Hmin Hs Hs0 Htok0. nia.
  - fold n. destruct (Z_le_gt_dec n size) as [Hall|Hcut].
    + left. rewrite Z.min_r by lia. unfold n. rewrite Nat2Z.id.
      apply substring_all.
    + right. rewrite Hlen, Z.min_l by lia. lia.
Qed.

Lemma truncate_content_keeps_witness :
  exists s,
    truncate_content 4001 (PStr (text_of_length 4000)) 800
      (constant_llm 1000 4096 1024) world0 =
      (Return s,
       World 1 ([] ++ [CallTruncate (PStr (text_of_length 4000)) 800
                         (constant_llm 1000 4096 1024)])) /\
    String.prefix s (text_of_length 4000) = true /\
    Z.of_nat (String.length s) * 1000 <=
      800 * Z.of_nat (String.length (text_of_length 4000)) /\
    (s = text_of_length 4000 \/
     800 * Z.of_nat (String.length (text_of_length 4000)) <=
       (Z.of_nat (String.length s) + 1) * 1000).
Proof.
  apply (truncate_content_keeps 4001 (text_of_length 4000) 800
           (constant_llm 1000 4096 1024) world0 1000).
  - reflexivity.
  - vm_compute. split; reflexivity.
  - vm_compute. reflexivity.
  - vm_compute. discriminate.
  - vm_compute. lia.
Defined.




(** ** The STUFF policy, end to end *)

(** X26. Under the STUFF policy, when the prompt is over budget, the
    summary prompt is found and the chain returns a summary, the call of
    [process_llm_token] returns with ['background'] replaced by the summary
    that the compression model made of the one-element list holding the
    old background; the compression model is the one named by the
    [llm] option of the prompt processor or, without it, the target model;
    the estimator has been asked once (for the prompt) and never by the
    summarisation. *)
Theorem process_llm_token_stuff `{Collaborators} (fuel : nat)
    (prompt_template : PromptTemplate) (profile : profile_config)
    (planner_input : gmap string pyval) (w : world)
    (llm_model : llm_model_config) (agent_llm prompt_llm : LLM)
    (prompt : string) (prompt_tokens : Z)
    (summary_prompt : Prompt) (summary : string) :
  pf_llm_model profile = Some llm_model ->
  llm_manager (lm_name llm_model) = Return agent_llm ->
  llm_manager (py_or_opt (pp_llm (prompt_processor_of llm_model))
                 (lm_name llm_model)) = Return prompt_llm ->
  format prompt_template
    (prompt_input_dict_of (input_variables prompt_template) planner_input)
    = Return prompt ->
  get_num_tokens agent_llm (estimator_calls w) (PStr prompt) =
    Return prompt_tokens ->
  max_context_length agent_llm - max_tokens agent_llm < prompt_tokens ->
  pp_type (prompt_processor_of llm_model) = Some "stuff" ->
  prompt_manager (summary_prompt_version_of llm_model) =
    Return summary_prompt ->
  stuff_chain prompt_llm summary_prompt [get_background planner_input] =
    Return summary ->
  process_llm_token fuel prompt_template profile planner_input w =
  {| run_outcome := Return tt;
     run_planner_input := <["background" := PStr summary]> planner_input;
     run_world :=
       World (S (estimator_calls w))
         (strategy_calls w ++
          [CallStuff [get_background planner_input] prompt_llm
             (summary_prompt_version_of llm_model)]) |}.
Proof.
  intros Hm Ha Hp Hf He Hgt Htype Hprompt Hchain.
  assert (Ht : prompt_processor_type_of llm_model = "stuff")
    by (unfold prompt_processor_type_of; rewrite Htype; reflexivity).
  destruct (dispatch_stuff fuel prompt_template profile planner_input w
              llm_model agent_llm prompt_llm prompt prompt_tokens
              Hm Ha Hp Hf He Hgt Ht) as [Hnb _].
  unfold process_llm_token. rewrite Hnb.
  unfold bind, summarize_by_stuff, bind, record_call, lift, ret.
  rewrite Hprompt, Hchain. reflexivity.
Qed.

Lemma process_llm_token_stuff_witness :
  @process_llm_token (demo_collaborators (char_count_llm 4096 1024)) 5
    (demo_template 100) (demo_profile (Some "stuff"))
    (demo_planner_input (text_of_length 4000)) world0 =
  {| run_outcome := Return tt;
     run_planner_input :=
       <["background" := PStr "stuff summary"]>
         (demo_planner_input (text_of_length 4000));
     run_world :=
       World 1
         ([] ++
          [CallStuff [get_background
                        (demo_planner_input (text_of_length 4000))]
             (char_count_llm 4096 1024)
             "prompt_processor.summary_cn"]) |}.
Proof.
  apply (@process_llm_token_stuff
           (demo_collaborators (char_count_llm 4096 1024)) 5
           (demo_template 100) (demo_profile (Some "stuff"))
           (demo_planner_input (text_of_length 4000)) world0
           {| lm_name := Some "demo_llm";
              lm_prompt_processor := Some
                {| pp_type := Some "stuff"; pp_llm := None;
                   pp_summary_prompt_version := None;
                   pp_combine_prompt_version := None |} |}
           (char_count_llm 4096 1024) (char_count_llm 4096 1024)
           (text_of_length 100 +:+ text_of_length 4000) 4100
           "prompt_processor.summary_cn" "stuff summary").
  - reflexivity.
  - reflexivity.
  - reflexivity.
  - vm_compute. reflexivity.
  - vm_compute. reflexivity.
  - vm_compute. reflexivity.
  - reflexivity.
  - reflexivity.
  - reflexivity.
Defined.
